(** * FilesImportControl: the file transfer orchestrator

    A shallow embedding of [src/FilesImportControl/FilesImportControl.tsx]
    and of the request helper of
    [src/FilesImportControl/PowerAutomateCloudFlows.ts], with the properties
    of the orchestrator stated and proved over it; then of the control class
    of [src/FilesImportControl/index.ts], of the flow client of
    [PowerAutomateCloudFlows.ts] and of the button utilities, with further
    properties of each.

    Conventions of the embedding.
    - A JavaScript string is a [string] of 8-bit code units;
      [toLowerCase] and [trim] are the ECMAScript ones restricted to code
      units below 256.
    - File sizes and the megabyte limit are integers ([Z]); every value the
      component computes from them stays far below 2^53, where JavaScript
      numbers are exact.
    - The values of [Math.random()] and the simulated progress are exact
      rationals ([Q]); the component computes them in doubles, so a value
      it shows may differ by rounding from the one computed here. What is
      stated of them is bounds and monotonicity, which the rounded
      operations keep.
    - React state is threaded explicitly ([St]); [setX(prev => ...)] is a
      state update, [onEvent], [fetch] and [console] calls are recorded in a
      trace of effects, and the answers of the network are read from an
      explicit environment ([World]). *)

From Stdlib Require Import ZArith QArith Qround Qminmax Lia List Ascii String Bool.
From stdpp Require Import gmap strings pretty.
Import ListNotations.

Open Scope string_scope.
Open Scope list_scope.
Open Scope Z_scope.

(** ** JavaScript string primitives used by the component *)

Module Js.

Definition code (c : ascii) : N := N_of_ascii c.

(** ECMAScript WhiteSpace and LineTerminator code points below 256. *)
Definition isWhiteSpace (c : ascii) : bool :=
  let n := code c in
  ((9 <=? n) && (n <=? 13) || (n =? 32) || (n =? 160))%N.

(** Simple case mapping below 256: A-Z and the Latin-1 capitals. *)
Definition lowerChar (c : ascii) : ascii :=
  let n := code c in
  if ((65 <=? n) && (n <=? 90)
      || (192 <=? n) && (n <=? 222) && negb (n =? 215))%N
  then ascii_of_N (n + 32) else c.

Fixpoint toLowerCase (s : string) : string :=
  match s with
  | EmptyString => EmptyString
  | String c s' => String (lowerChar c) (toLowerCase s')
  end.

Fixpoint trimStart (s : string) : string :=
  match s with
  | EmptyString => EmptyString
  | String c s' => if isWhiteSpace c then trimStart s' else s
  end.

Fixpoint trimEnd (s : string) : string :=
  match s with
  | EmptyString => EmptyString
  | String c s' =>
      match trimEnd s' with
      | EmptyString => if isWhiteSpace c then EmptyString else String c EmptyString
      | t => String c t
      end
  end.

Definition trim (s : string) : string := trimEnd (trimStart s).

(** The separators of the regular expression [/[;,]/]. *)
Definition isSeparator (c : ascii) : bool :=
  (Ascii.eqb c ";" || Ascii.eqb c ",")%char.

(** [s.split(/[;,]/)]: never empty, one more piece than separators. *)
Fixpoint splitSeparators (s : string) : list string :=
  match s with
  | EmptyString => [EmptyString]
  | String c s' =>
      if isSeparator c then EmptyString :: splitSeparators s'
      else match splitSeparators s' with
           | h :: t => String c h :: t
           | [] => [String c EmptyString]
           end
  end.

(** [s.includes(c)] for a one-character needle. *)
Fixpoint includesChar (c : ascii) (s : string) : bool :=
  match s with
  | EmptyString => false
  | String d s' => Ascii.eqb d c || includesChar c s'
  end.

(** [s.startsWith(p)]. *)
Fixpoint startsWith (s p : string) : bool :=
  match p, s with
  | EmptyString, _ => true
  | String _ _, EmptyString => false
  | String a p', String b s' => Ascii.eqb a b && startsWith s' p'
  end.

(** [s.replace(c, '')] with a string pattern: the first occurrence only. *)
Fixpoint removeFirst (c : ascii) (s : string) : string :=
  match s with
  | EmptyString => EmptyString
  | String d s' => if Ascii.eqb d c then s' else String d (removeFirst c s')
  end.

(** [s.lastIndexOf(c)]: the last position of [c], or -1. *)
Fixpoint lastIndexOf (c : ascii) (s : string) : Z :=
  match s with
  | EmptyString => -1
  | String d s' =>
      let r := lastIndexOf c s' in
      if 0 <=? r then r + 1
      else if Ascii.eqb d c then 0 else -1
  end.

Fixpoint dropChars (n : nat) (s : string) : string :=
  match n, s with
  | O, _ => s
  | S _, EmptyString => EmptyString
  | S n', String _ s' => dropChars n' s'
  end.

(** [s.substring(start)]: a negative start is clamped to 0, a start past
    the end gives the empty string. *)
Definition substringFrom (start : Z) (s : string) : string :=
  dropChars (Z.to_nat (Z.max 0 start)) s.

End Js.

(** ** Data model *)

(** [IFileState.status]. *)
Inductive Status := pending | uploading | completed | failed | invalid.

Definition Status_eqb (a b : Status) : bool :=
  match a, b with
  | pending, pending | uploading, uploading | completed, completed
  | failed, failed | invalid, invalid => true
  | _, _ => false
  end.

(** What [FileReader.readAsDataURL] delivers for a file: [onload] with a
    result string, [onload] with a null result, or [onerror] with the
    reader's error message. *)
Inductive ReadResult :=
  | ReadOk (dataUrl : string)
  | ReadNull
  | ReadError (message : string).

(** The parts of a browser [File] the component reads. *)
Record File := mkFile {
  name : string;
  size : Z;
  type : string;
  content : ReadResult
}.

(** The result of [validateFileType]. *)
Record Validation := mkValidation {
  v_isValid : bool;
  v_error : option string
}.

(** [IFileState]. Entries are only created by [addFilesToState], which
    always sets [isValid] to a boolean. *)
Record IFileState := mkFileState {
  file : File;
  progress : Z;
  status : Status;
  url : option string;
  error : option string;
  isValid : bool
}.

(** [IExistingFileState]: a file the list endpoint reported
    ([lastModified] is kept as the string the [Date] is built from). *)
Record IExistingFileState := mkExisting {
  ex_name : string;
  ex_size : Z;
  ex_url : string;
  ex_lastModified : string
}.

(** [IAdminConfig]. *)
Record IAdminConfig := mkAdminConfig {
  maxTotalFileSizeMB : Z;
  allowedFileTypes : string
}.

(** ** Validation engine: the type check of [validateFileType] *)

(** One allow-list entry against the lowercased MIME type and the
    lowercased extension of the file (the callback of [allowedTypes.some]). *)
Definition matchesAllowedType (fileType fileExtension allowedType : string) : bool :=
  if Js.includesChar "/" allowedType then
    String.eqb fileType allowedType
    || Js.startsWith fileType (Js.removeFirst "*" allowedType)
  else
    let normalizedAllowedType :=
      if Js.startsWith allowedType "." then allowedType
      else String "." allowedType in
    String.eqb fileExtension normalizedAllowedType.

(** [allowedFileTypes.split(/[;,]/).map(trim, lower).filter(non-empty, non-star)]. *)
Definition parseAllowedTypes (allowed : string) : list string :=
  List.filter
    (fun t => negb (String.eqb t "") && negb (String.eqb t "*"))
    (List.map (fun t => Js.toLowerCase (Js.trim t)) (Js.splitSeparators allowed)).

(** [fileName.substring(fileName.lastIndexOf('.'))] on the lowercased name. *)
Definition fileExtensionOf (f : File) : string :=
  let fileName := Js.toLowerCase (name f) in
  Js.substringFrom (Js.lastIndexOf "." fileName) fileName.

(** The first half of [validateFileType]: [true] when the file passes the
    type restriction (or there is none). *)
Definition typeCheckPasses (allowed : string) (f : File) : bool :=
  if String.eqb allowed "" || String.eqb (Js.trim allowed) ""
     || String.eqb (Js.trim allowed) "*"
  then true
  else
    let allowedTypes := parseAllowedTypes allowed in
    match allowedTypes with
    | [] => true
    | _ =>
        List.existsb
          (matchesAllowedType (Js.toLowerCase (type f)) (fileExtensionOf f))
          allowedTypes
    end.


(** ** Validation engine: the size check and [validateFileType] *)

(** [files.reduce((sum, f) => sum + f.size, 0)]. *)
Definition sumSizes (files : list File) : Z :=
  fold_left (fun sum f => sum + size f) files 0.

(** [fs.isValid && fs.status !== 'failed']: the entries that count towards
    the total. *)
Definition countsTowardsTotal (fs : IFileState) : bool :=
  isValid fs && negb (Status_eqb (status fs) failed).

(** [(bytes / (1024 * 1024)).toFixed(2)] for a non-negative byte count:
    hundredths of a megabyte, rounded half up. *)
Definition toFixed2MB (bytes : Z) : string :=
  let n := (bytes * 200 + 1048576) / 2097152 in
  let d := n mod 100 in
  pretty (n / 100) +:+ "." +:+ (if d <? 10 then "0" +:+ pretty d else pretty d).

Definition validateFileType (config : IAdminConfig) (fileStates : list IFileState)
    (file' : File) (existingFiles : list File) : Validation :=
  if negb (typeCheckPasses (allowedFileTypes config) file') then
    mkValidation false
      (Some ("File type not allowed. Allowed: " +:+ allowedFileTypes config))
  else if negb (maxTotalFileSizeMB config =? 0) && (0 <? maxTotalFileSizeMB config) then
    let maxSizeBytes := maxTotalFileSizeMB config * 1024 * 1024 in
    let existingPendingFiles := List.map file (List.filter countsTowardsTotal fileStates) in
    let allExistingFiles := existingPendingFiles ++ existingFiles in
    let totalExistingSize := sumSizes allExistingFiles in
    let totalNewSize := totalExistingSize + size file' in
    if maxSizeBytes <? totalNewSize then
      mkValidation false
        (Some ("Adding this file (" +:+ toFixed2MB (size file')
               +:+ " MB) would exceed the " +:+ pretty (maxTotalFileSizeMB config)
               +:+ " MB limit. Current total: " +:+ toFixed2MB totalExistingSize
               +:+ " MB"))
    else mkValidation true None
  else mkValidation true None.

(** ** Component state, props, effects and the network environment *)

Inductive ButtonLoadingStateEnum := Initial | Loading | Loaded.

(** An element of [cumulativeFilesJSON]: [{name, size, contentBytes}]. *)
Record BatchFile := mkBatchFile {
  b_name : string;
  b_size : Z;
  b_contentBytes : string
}.

(** [IUploadResult]. *)
Record IUploadResult := mkUploadResult {
  r_fileName : string;
  r_url : string;
  r_success : bool;
  r_error : option string;
  r_flowRunId : option string
}.

(** The React state of the component that the orchestrator reads or writes
    (the per-file flags that only drive rendering are left out), and the
    [progressSimulationIntervals] ref: a live timer per file name, each with
    the [simulatedProgress] variable of its closure. *)
Record St := mkSt {
  fileStates : list IFileState;
  existingFiles : list IExistingFileState;
  selectedFiles : list File;
  cumulativeFilesJSON : list BatchFile;
  adminConfig : IAdminConfig;
  buttonLoadingState : ButtonLoadingStateEnum;
  showFileList : bool;
  loadingExistingFiles : bool;
  isInitialLoad : bool;
  progressSimulationIntervals : gmap string Q
}.

Definition setFileStates (f : list IFileState -> list IFileState) (s : St) : St :=
  mkSt (f (fileStates s)) (existingFiles s) (selectedFiles s) (cumulativeFilesJSON s)
       (adminConfig s) (buttonLoadingState s) (showFileList s)
       (loadingExistingFiles s) (isInitialLoad s) (progressSimulationIntervals s).

Definition setExistingFiles (f : list IExistingFileState -> list IExistingFileState)
    (s : St) : St :=
  mkSt (fileStates s) (f (existingFiles s)) (selectedFiles s) (cumulativeFilesJSON s)
       (adminConfig s) (buttonLoadingState s) (showFileList s)
       (loadingExistingFiles s) (isInitialLoad s) (progressSimulationIntervals s).

Definition setSelectedFiles (f : list File -> list File) (s : St) : St :=
  mkSt (fileStates s) (existingFiles s) (f (selectedFiles s)) (cumulativeFilesJSON s)
       (adminConfig s) (buttonLoadingState s) (showFileList s)
       (loadingExistingFiles s) (isInitialLoad s) (progressSimulationIntervals s).

Definition setCumulativeFilesJSON (f : list BatchFile -> list BatchFile) (s : St) : St :=
  mkSt (fileStates s) (existingFiles s) (selectedFiles s) (f (cumulativeFilesJSON s))
       (adminConfig s) (buttonLoadingState s) (showFileList s)
       (loadingExistingFiles s) (isInitialLoad s) (progressSimulationIntervals s).

Definition setAdminConfig (f : IAdminConfig -> IAdminConfig) (s : St) : St :=
  mkSt (fileStates s) (existingFiles s) (selectedFiles s) (cumulativeFilesJSON s)
       (f (adminConfig s)) (buttonLoadingState s) (showFileList s)
       (loadingExistingFiles s) (isInitialLoad s) (progressSimulationIntervals s).

Definition setButtonLoadingState (b : ButtonLoadingStateEnum) (s : St) : St :=
  mkSt (fileStates s) (existingFiles s) (selectedFiles s) (cumulativeFilesJSON s)
       (adminConfig s) b (showFileList s)
       (loadingExistingFiles s) (isInitialLoad s) (progressSimulationIntervals s).

Definition setShowFileList (b : bool) (s : St) : St :=
  mkSt (fileStates s) (existingFiles s) (selectedFiles s) (cumulativeFilesJSON s)
       (adminConfig s) (buttonLoadingState s) b
       (loadingExistingFiles s) (isInitialLoad s) (progressSimulationIntervals s).

Definition setLoadingExistingFiles (b : bool) (s : St) : St :=
  mkSt (fileStates s) (existingFiles s) (selectedFiles s) (cumulativeFilesJSON s)
       (adminConfig s) (buttonLoadingState s) (showFileList s)
       b (isInitialLoad s) (progressSimulationIntervals s).

Definition setIsInitialLoad (b : bool) (s : St) : St :=
  mkSt (fileStates s) (existingFiles s) (selectedFiles s) (cumulativeFilesJSON s)
       (adminConfig s) (buttonLoadingState s) (showFileList s)
       (loadingExistingFiles s) b (progressSimulationIntervals s).

Definition setIntervals (f : gmap string Q -> gmap string Q) (s : St) : St :=
  mkSt (fileStates s) (existingFiles s) (selectedFiles s) (cumulativeFilesJSON s)
       (adminConfig s) (buttonLoadingState s) (showFileList s)
       (loadingExistingFiles s) (isInitialLoad s) (f (progressSimulationIntervals s)).

(** The props the orchestrator reads. A [string | null | undefined] prop is
    an [option string]. *)
Record Props := mkProps {
  buttonAllowMultipleFiles : bool;
  buttonShowActionSpinner : bool;
  buttonAllowedFileTypes : string;
  propMaxTotalFileSizeMB : Z;
  cloudFlowUploadUrl : option string;
  cloudFlowListFilesUrl : option string;
  cloudFlowDeleteUrl : option string;
  cloudFlowDownloadUrl : option string;
  containerPath : option string;
  listFilesFolderName : option string;
  recordUid : option string
}.

(** JavaScript truthiness of a [string | null | undefined]. *)
Definition truthy (o : option string) : bool :=
  match o with
  | Some s => negb (String.eqb s "")
  | None => false
  end.

(** [o || d] and [o!] for such a value. *)
Definition orElse (o : option string) (d : string) : string :=
  match o with
  | Some s => if String.eqb s "" then d else s
  | None => d
  end.

(** Request bodies of the four endpoints. *)
Inductive Request :=
  | UploadRequest (fileName : string) (fileContent : option string)
      (containerPath folderName : string) (fileSize : Z) (contentType : string)
  | ListRequest (containerPath folderName : string)
  | DeleteRequest (fileName containerPath : string) (folderName : option string)
  | DownloadRequest (storageAccountName filePath fileName : string).

(** The fields the component reads from the parsed response bodies
    ([IUploadFlowResponse], [IListFilesFlowResponse], [IDeleteFlowResponse]
    and the download payload); [success] is the truthiness of the field. *)
Record UploadBody := mkUploadBody {
  ub_success : bool;
  ub_url : option string;
  ub_error : option string;
  ub_flowRunId : option string
}.

(** [result.files]: missing (or another falsy value), an array, or a truthy
    value that is not an array. An element of the array is [null] ([None])
    or is read through its [name], [size], [url] and [lastModified]. *)
Inductive FilesField :=
  | FilesMissing
  | FilesArray (files : list (option IExistingFileState))
  | FilesNotArray.

(** [files.map(file => ({name: file.name, ...}))]: the records of the
    elements, in order; [None] when an element is [null], where reading
    [file.name] throws a [TypeError]. *)
Fixpoint mapFiles {A} (files : list (option A)) : option (list A) :=
  match files with
  | [] => Some []
  | None :: _ => None
  | Some file' :: rest =>
      match mapFiles rest with
      | Some existingFileStates => Some (file' :: existingFileStates)
      | None => None
      end
  end.

Record ListBody := mkListBody {
  lb_success : bool;
  lb_files : FilesField;
  lb_error : option string
}.

Record DeleteBody := mkDeleteBody {
  db_success : bool;
  db_error : option string
}.

(** [{fileContent, contentType, fileName, fileSize, error}]. *)
Record DownloadPayload := mkDownloadPayload {
  dp_fileContent : option string;
  dp_contentType : option string;
  dp_fileName : option string;
  dp_fileSize : option Z;
  dp_error : option string
}.

(** The download response: the payload at top level and, possibly, one more
    under [body]. *)
Record DownloadBody := mkDownloadBody {
  dl_top : DownloadPayload;
  dl_body : option DownloadPayload
}.

(** [response.json()]: the parsed body, or a rejection with a message. *)
Inductive Json (B : Type) :=
  | Parsed (body : B)
  | ParseFailure (message : string).
Arguments Parsed {B} body.
Arguments ParseFailure {B} message.

(** A [Response]: [response.status], [response.statusText] and the body. *)
Record Response (B : Type) := mkResponse {
  statusCode : Z;
  statusText : string;
  json : Json B
}.
Arguments mkResponse {B} statusCode statusText json.
Arguments statusCode {B} r.
Arguments statusText {B} r.
Arguments json {B} r.

(** [response.ok]: the status is in the range 200-299. *)
Definition ok {B} (r : Response B) : bool :=
  (200 <=? statusCode r) && (statusCode r <=? 299).

(** What a [fetch] does: it resolves with a response, rejects with an
    error, or never settles. *)
Inductive FetchOutcome (B : Type) :=
  | Responds (r : Response B)
  | NetworkError (message : string)
  | NoResponse.
Arguments Responds {B} r.
Arguments NetworkError {B} message.
Arguments NoResponse {B}.

(** The flight of one file: the values [Math.random()] returns at the timer
    ticks that fire between [startProgressSimulation] and
    [stopProgressSimulation], and what the upload endpoint does. *)
Record UploadFlight := mkFlight {
  ticks : list Q;
  uploadOutcome : FetchOutcome UploadBody
}.

(** The environment of one run of an operation. *)
Record World := mkWorld {
  w_upload : File -> UploadFlight;
  w_list : FetchOutcome ListBody;
  w_delete : string -> FetchOutcome DeleteBody;
  w_download : string -> FetchOutcome DownloadBody
}.

(** The payload of [filesJSON]: batch entries (JSON mode) or one summary
    [{name, url, success, error}] per upload result (remote mode). *)
Inductive FilesJSON :=
  | JsonBatch (entries : list BatchFile)
  | JsonResults (summaries : list (string * string * bool * option string)).

Inductive UploadStatus := InProgress | Completed | Failed.

Inductive EventTag :=
  | contextChanged
  | cumulativeFilesCleared
  | fileRemovedFromCumulative (fileName : string)
  | fileDeleted (fileName : string)
  | fileViewed (fileName viewUrl : string)
  | fileDownloaded (fileName contentType : string) (fileSize : Z).

(** The object handed to [onEvent]. *)
Record OutEvent := mkEvent {
  ev_filesJSON : option FilesJSON;
  ev_existingFiles : option (list IExistingFileState);
  ev_uploadResults : option (list IUploadResult);
  ev_uploadStatus : option UploadStatus;
  ev_tag : option EventTag
}.

Inductive Effect :=
  | Fetch (url : string) (request : Request)
  | OnEvent (e : OutEvent)
  | ConsoleWarn (message : string)
  | ConsoleError (message : string)
  | ConsoleLog (message : string)
  | Alert (message : string)
  | WindowOpen (url : string)
  | DownloadLink (href download : string).

Definition isFetch (e : Effect) : bool :=
  match e with Fetch _ _ => true | _ => false end.

(** ** The monad of the asynchronous handlers

    A handler runs from a state to a state, leaves a trace of effects and
    either returns, throws (rejects), or stays pending at an [await] that
    never settles. State updates made before a throw persist. *)

(** A thrown value: an [Error] with its message, or the [null] that
    [readFile] rejects with. *)
Inductive JsError :=
  | ErrorObj (message : string)
  | NullValue.

(** [error instanceof Error ? error.message : String(error)]. *)
Definition errorText (e : JsError) : string :=
  match e with
  | ErrorObj m => m
  | NullValue => "null"
  end.

Inductive Completion (A : Type) :=
  | Returned (a : A)
  | Thrown (e : JsError)
  | StillPending.
Arguments Returned {A} a.
Arguments Thrown {A} e.
Arguments StillPending {A}.

Record Outcome (A : Type) := mkOutcome {
  out_state : St;
  out_trace : list Effect;
  out_completion : Completion A
}.
Arguments mkOutcome {A} out_state out_trace out_completion.
Arguments out_state {A} o.
Arguments out_trace {A} o.
Arguments out_completion {A} o.

Definition M (A : Type) : Type := St -> Outcome A.

Definition ret {A} (a : A) : M A := fun s => mkOutcome s [] (Returned a).

Definition bind {A B} (m : M A) (k : A -> M B) : M B := fun s =>
  match m s with
  | mkOutcome s1 t1 (Returned a) =>
      match k a s1 with
      | mkOutcome s2 t2 c => mkOutcome s2 (t1 ++ t2) c
      end
  | mkOutcome s1 t1 (Thrown e) => mkOutcome s1 t1 (Thrown e)
  | mkOutcome s1 t1 StillPending => mkOutcome s1 t1 StillPending
  end.

Declare Scope js_scope.
Delimit Scope js_scope with js.
Notation "'let!' x ':=' m 'in' k" := (bind m (fun x => k))
  (at level 10, x name, m at level 100, k at level 200) : js_scope.
Notation "m '>>' k" := (bind m (fun _ => k))
  (at level 100, k at level 200, right associativity) : js_scope.
Open Scope js_scope.

Definition get : M St := fun s => mkOutcome s [] (Returned s).
Definition modify (f : St -> St) : M unit := fun s => mkOutcome (f s) [] (Returned tt).
Definition effect (e : Effect) : M unit := fun s => mkOutcome s [e] (Returned tt).
Definition throw {A} (e : JsError) : M A := fun s => mkOutcome s [] (Thrown e).
Definition never {A} : M A := fun s => mkOutcome s [] StillPending.

(** [try { m } catch (e) { h e }]. *)
Definition tryCatch {A} (m : M A) (h : JsError -> M A) : M A := fun s =>
  match m s with
  | mkOutcome s1 t1 (Thrown e) =>
      match h e s1 with
      | mkOutcome s2 t2 c => mkOutcome s2 (t1 ++ t2) c
      end
  | o => o
  end.

(** [try { m } finally { f }]: [f] runs when [m] returns or throws. *)
Definition tryFinally {A} (m : M A) (f : M unit) : M A := fun s =>
  match m s with
  | mkOutcome s1 t1 StillPending => mkOutcome s1 t1 StillPending
  | mkOutcome s1 t1 c =>
      match f s1 with
      | mkOutcome s2 t2 (Returned _) => mkOutcome s2 (t1 ++ t2) c
      | mkOutcome s2 t2 (Thrown e) => mkOutcome s2 (t1 ++ t2) (Thrown e)
      | mkOutcome s2 t2 StillPending => mkOutcome s2 (t1 ++ t2) StillPending
      end
  end.

(** [xs.forEach(f)] and the body of [for (const x of xs)]. *)
Fixpoint forEach {A} (xs : list A) (f : A -> M unit) : M unit :=
  match xs with
  | [] => ret tt
  | x :: xs' => f x >> forEach xs' f
  end.

Definition when (b : bool) (m : M unit) : M unit := if b then m else ret tt.

(** [await fetch(url, ...)]: the call is recorded, then the environment
    decides. *)
Definition fetch {B} (url : string) (request : Request) (o : FetchOutcome B)
    : M (Response B) :=
  effect (Fetch url request) >>
  match o with
  | Responds r => ret r
  | NetworkError m => throw (ErrorObj m)
  | NoResponse => never
  end.

(** [await response.json()]. *)
Definition parseJson {B} (r : Response B) : M B :=
  match json r with
  | Parsed b => ret b
  | ParseFailure m => throw (ErrorObj m)
  end.

(** ** The component *)

(** [Partial<IFileState>] as [updateFileState] receives it: a field that is
    present overrides, also when its value is [undefined]. *)
Record Updates := mkUpdates {
  u_progress : option Z;
  u_status : option Status;
  u_url : option (option string);
  u_error : option (option string)
}.

(** [{ ...fileState, ...updates }]. *)
Definition applyUpdates (updates : Updates) (fileState : IFileState) : IFileState :=
  mkFileState (file fileState)
    (default (progress fileState) (u_progress updates))
    (default (status fileState) (u_status updates))
    (default (url fileState) (u_url updates))
    (default (error fileState) (u_error updates))
    (isValid fileState).

Definition updateFileState (fileName : string) (updates : Updates) (s : St) : St :=
  setFileStates
    (List.map (fun fileState =>
       if String.eqb (name (file fileState)) fileName
       then applyUpdates updates fileState else fileState)) s.

Definition statusName (st : Status) : string :=
  match st with
  | pending => "pending" | uploading => "uploading" | completed => "completed"
  | failed => "failed" | invalid => "invalid"
  end.

(** [addFilesToState]: each file is validated against the pending files of
    the state and the files accepted earlier in the same call. *)
Definition addFileToBatch (s : St) (newFileStates : list IFileState) (file' : File)
    : list IFileState :=
  let filesInCurrentBatch := List.map file (List.filter isValid newFileStates) in
  let validation :=
    validateFileType (adminConfig s) (fileStates s) file' filesInCurrentBatch in
  newFileStates ++
    [mkFileState file' 0 (if v_isValid validation then pending else invalid)
       None (v_error validation) (v_isValid validation)].

Definition addFilesToState (files : list File) (s : St) : St :=
  let newFileStates := fold_left (addFileToBatch s) files [] in
  setShowFileList true
    (setSelectedFiles (fun prev => prev ++ files)
       (setFileStates (fun prev => prev ++ newFileStates) s)).

(** [getCurrentTotalFileSize]. *)
Definition getCurrentTotalFileSize (s : St) : Z :=
  fold_left (fun total fs => total + size (file fs))
    (List.filter countsTowardsTotal (fileStates s)) 0.

(** [(reader.result as string).split(',')[1]]: the text between the first
    and the second comma, [undefined] without a comma. *)
Fixpoint untilComma (s : string) : string :=
  match s with
  | EmptyString => EmptyString
  | String c s' => if Ascii.eqb c "," then EmptyString else String c (untilComma s')
  end.

Fixpoint afterFirstComma (s : string) : option string :=
  match s with
  | EmptyString => None
  | String c s' => if Ascii.eqb c "," then Some (untilComma s') else afterFirstComma s'
  end.

(** The progress timers. [tick] is one firing of the interval callback of
    [startProgressSimulation], with the value [Math.random()] returned. *)
Definition startProgressSimulation (fileName : string) (s : St) : St :=
  setIntervals (fun m => <[fileName := 0%Q]> m) s.

(** [stopProgressSimulation] looks the timer up in the plain object
    [progressSimulationIntervals.current]. Under the key [__proto__] the
    assignment of [startProgressSimulation] stored no timer id (it is the
    prototype setter, which ignores a number) and the lookup gives the
    prototype object: [clearInterval] and [delete] then do nothing, and the
    timer of a file of that name stays live. *)
Definition stopProgressSimulation (fileName : string) (s : St) : St :=
  setIntervals
    (fun m => if String.eqb fileName "__proto__" then m else delete fileName m) s.

Definition tick (fileName : string) (random : Q) (s : St) : St :=
  match progressSimulationIntervals s !! fileName with
  | Some simulatedProgress =>
      let simulatedProgress' := Qmin (simulatedProgress + random * 15)%Q 95%Q in
      updateFileState fileName
        (mkUpdates (Some (Qfloor simulatedProgress')) None None None)
        (setIntervals (fun m => <[fileName := simulatedProgress']> m) s)
  | None => s
  end.

Definition runTicks (fileName : string) (randoms : list Q) (s : St) : St :=
  fold_left (fun s' r => tick fileName r s') randoms s.

(** [Promise.all]: every task runs; the result rejects with the first
    rejection. *)
Fixpoint promiseAll {A} (tasks : list (M A)) : M (list A) := fun s =>
  match tasks with
  | [] => mkOutcome s [] (Returned [])
  | m :: rest =>
      match m s with
      | mkOutcome s1 t1 c1 =>
          match promiseAll rest s1 with
          | mkOutcome s2 t2 c2 =>
              mkOutcome s2 (t1 ++ t2)
                (match c1, c2 with
                 | Thrown e, _ => Thrown e
                 | Returned _, Thrown e => Thrown e
                 | Returned a, Returned l => Returned (a :: l)
                 | Returned _, StillPending => StillPending
                 | StillPending, Thrown e => Thrown e
                 | StillPending, _ => StillPending
                 end)
          end
      end
  end.

Definition justStatus (u : UploadStatus) : OutEvent :=
  mkEvent None None None (Some u) None.

Section Component.

Variable props : Props.

Definition isCloudFlowConfigured : bool :=
  truthy (recordUid props)
  && negb (String.eqb (Js.trim (orElse (recordUid props) "")) "")
  && truthy (cloudFlowDownloadUrl props)
  && truthy (cloudFlowUploadUrl props)
  && truthy (cloudFlowListFilesUrl props)
  && truthy (cloudFlowDeleteUrl props)
  && truthy (containerPath props).

(** [!recordUid || recordUid.trim() === '']. *)
Definition recordUidIsEmpty : bool :=
  negb (truthy (recordUid props))
  || String.eqb (Js.trim (orElse (recordUid props) "")) "".

Definition getCombinedFolderPath : string :=
  if negb (truthy (listFilesFolderName props)) || negb (truthy (recordUid props))
  then orElse (recordUid props) (orElse (listFilesFolderName props) "")
  else orElse (listFilesFolderName props) "" +:+ "/" +:+ orElse (recordUid props) "".

Definition isDownloadCloudFlowConfigured : bool :=
  isCloudFlowConfigured && truthy (cloudFlowDownloadUrl props).

(** [loadExistingFiles]. [initialLoad] is the [isInitialLoad] of the render
    the call was made from; [meanwhile] is what the caller does after the
    call has reached its first [await] (or has returned). *)
Definition loadExistingFilesWith (w : World) (initialLoad : bool)
    (meanwhile : M unit) : M unit :=
  if negb isCloudFlowConfigured then
    modify (setExistingFiles (fun _ => [])) >>
    modify (setShowFileList false) >>
    modify (setIsInitialLoad false) >>
    effect (OnEvent (mkEvent None (Some []) None None None)) >>
    meanwhile
  else
    modify (setLoadingExistingFiles true) >>
    tryFinally
      (tryCatch
         (effect (Fetch (orElse (cloudFlowListFilesUrl props) "")
                    (ListRequest (orElse (containerPath props) "") getCombinedFolderPath)) >>
          meanwhile >>
          let! response :=
            match w_list w with
            | Responds r => ret r
            | NetworkError m => throw (ErrorObj m)
            | NoResponse => never
            end in
          let! result :=
            tryCatch (parseJson response)
              (fun _ =>
                 if negb (ok response)
                 then throw (ErrorObj ("List files failed: " +:+ statusText response))
                 else throw (ErrorObj "Failed to parse response")) in
          let hasValidFilesArray :=
            match lb_files result with FilesArray _ => true | _ => false end in
          if (negb (ok response) || negb (lb_success result)) && negb hasValidFilesArray
          then throw (ErrorObj (orElse (lb_error result)
                                  ("List files failed: " +:+ statusText response)))
          else
            let! existingFileStates :=
              match lb_files result with
              | FilesMissing => ret []
              | FilesArray files =>
                  match mapFiles files with
                  | Some mapped => ret mapped
                  | None =>
                      throw (ErrorObj "Cannot read properties of null (reading 'name')")
                  end
              | FilesNotArray => throw (ErrorObj "files.map is not a function")
              end in
            modify (setExistingFiles (fun _ => existingFileStates)) >>
            when ((0 <? Z.of_nat (length existingFileStates)) || initialLoad)
              (modify (setShowFileList true)) >>
            effect (OnEvent (mkEvent None (Some existingFileStates) None None None)))
         (fun e =>
            effect (ConsoleError ("Error loading existing files: " +:+ errorText e)) >>
            when initialLoad (modify (setShowFileList true))))
      (modify (setLoadingExistingFiles false) >>
       modify (setIsInitialLoad false)).

(** A call that is awaited: nothing happens in between. *)
Definition loadExistingFilesFrom (w : World) (initialLoad : bool) : M unit :=
  loadExistingFilesWith w initialLoad (ret tt).

Definition loadExistingFiles (w : World) : M unit :=
  let! s := get in
  loadExistingFilesFrom w (isInitialLoad s).

(** The effect that runs when the list endpoint, the container, the folder
    or the record identity changes (and on mount). *)
Definition contextChangeEffect (w : World) : M unit :=
  let! s := get in
  when (truthy (recordUid props)
        && negb (String.eqb (Js.trim (orElse (recordUid props) "")) ""))
    (modify (setIsInitialLoad true)) >>
  loadExistingFilesWith w (isInitialLoad s)
    (modify (setFileStates (fun _ => [])) >>
     modify (setSelectedFiles (fun _ => [])) >>
     modify (setCumulativeFilesJSON (fun _ => [])) >>
     effect (OnEvent (mkEvent (Some (JsonBatch [])) None None None (Some contextChanged)))).

Definition isLocked (st : Status) : bool :=
  Status_eqb st uploading || Status_eqb st completed || Status_eqb st failed.


(** The entry [removeFile] finds under the name, when its status forbids
    the removal: [fileState && (uploading || completed || failed)]. *)
Definition lockedEntry (fileName : string) (s : St) : option IFileState :=
  match List.find (fun fs => String.eqb (name (file fs)) fileName) (fileStates s) with
  | Some fileState => if isLocked (status fileState) then Some fileState else None
  | None => None
  end.

Definition removeFile (fileName : string) : M unit :=
  let! s := get in
  match lockedEntry fileName s with
  | Some fileState =>
      effect (ConsoleWarn ("Cannot remove file " +:+ fileName +:+ " - file is "
                           +:+ statusName (status fileState)))
  | None =>
      modify (setFileStates
                (List.filter (fun fs => negb (String.eqb (name (file fs)) fileName)))) >>
      (let! s' := get in
       when ((length (fileStates s') =? 0)%nat && (length (existingFiles s) =? 0)%nat)
         (modify (setShowFileList false))) >>
      modify (setSelectedFiles
                (List.filter (fun f => negb (String.eqb (name f) fileName)))) >>
      when recordUidIsEmpty
        (modify (setCumulativeFilesJSON
                   (List.filter (fun b => negb (String.eqb (b_name b) fileName)))) >>
         let! s' := get in
         effect (OnEvent (mkEvent (Some (JsonBatch (cumulativeFilesJSON s'))) None None
                            None (Some (fileRemovedFromCumulative fileName)))))
  end.

Definition clearNewFiles : M unit :=
  let! s := get in
  modify (setFileStates (fun _ => [])) >>
  modify (setSelectedFiles (fun _ => [])) >>
  when recordUidIsEmpty
    (modify (setCumulativeFilesJSON (fun _ => [])) >>
     effect (OnEvent (mkEvent (Some (JsonBatch [])) None None None
                        (Some cumulativeFilesCleared)))) >>
  when (length (existingFiles s) =? 0)%nat (modify (setShowFileList false)).

Definition handleDeleteExistingFile (w : World) (fileName : string) : M unit :=
  let! s := get in
  tryCatch
    ((if negb isCloudFlowConfigured
      then throw (ErrorObj "Cloud Flow configuration is missing") else ret tt) >>
     let! response :=
       fetch (orElse (cloudFlowDeleteUrl props) "")
         (DeleteRequest fileName (orElse (containerPath props) "")
            (if String.eqb getCombinedFolderPath "" then None
             else Some getCombinedFolderPath))
         (w_delete w fileName) in
     (if negb (ok response)
      then throw (ErrorObj ("Delete failed: " +:+ statusText response)) else ret tt) >>
     let! result := parseJson response in
     if db_success result then
       modify (setExistingFiles
                 (List.filter (fun f => negb (String.eqb (ex_name f) fileName)))) >>
       loadExistingFilesFrom w (isInitialLoad s) >>
       effect (OnEvent (mkEvent None
                 (Some (List.filter (fun f => negb (String.eqb (ex_name f) fileName))
                          (existingFiles s)))
                 None None (Some (fileDeleted fileName)))) >>
       effect (ConsoleLog ("File " +:+ fileName +:+ " deleted successfully"))
     else throw (ErrorObj (orElse (db_error result) "Failed to delete file")))
    (fun e =>
       effect (ConsoleError ("Error deleting file: " +:+ errorText e)) >>
       effect (Alert ("Failed to delete file: " +:+ errorText e))).

Definition payloadComplete (p : DownloadPayload) : bool :=
  truthy (dp_fileContent p) && truthy (dp_contentType p) && truthy (dp_fileName p).

(** [result.fileSize || result.body?.fileSize || 0]. *)
Definition reportedFileSize (result : DownloadBody) : Z :=
  match dp_fileSize (dl_top result) with
  | Some n => if n =? 0 then default 0 (dl_body result ≫= dp_fileSize) else n
  | None => default 0 (dl_body result ≫= dp_fileSize)
  end.

Definition handleViewExistingFile (w : World) (fileName : string) : M unit :=
  let! s := get in
  if negb (truthy (cloudFlowDownloadUrl props)) then
    match List.find (fun f => String.eqb (ex_name f) fileName) (existingFiles s) with
    | Some existingFile =>
        if String.eqb (ex_url existingFile) "" then
          effect (Alert "No URL available for this file")
        else
          effect (WindowOpen (ex_url existingFile)) >>
          effect (OnEvent (mkEvent None None None None
                             (Some (fileViewed fileName (ex_url existingFile)))))
    | None => effect (Alert "No URL available for this file")
    end
  else if negb isDownloadCloudFlowConfigured then
    effect (Alert "Cloud Flow configuration for download is missing")
  else
    tryCatch
      (let! response :=
         fetch (orElse (cloudFlowDownloadUrl props) "")
           (DownloadRequest (orElse (containerPath props) "")
              (if String.eqb getCombinedFolderPath "" then fileName
               else getCombinedFolderPath +:+ "/" +:+ fileName)
              fileName)
           (w_download w fileName) in
       (if negb (ok response)
        then throw (ErrorObj ("Download file failed: " +:+ statusText response))
        else ret tt) >>
       let! result := parseJson response in
       let chosen :=
         if payloadComplete (dl_top result) then Some (dl_top result)
         else match dl_body result with
              | Some b => if payloadComplete b then Some b else None
              | None => None
              end in
       match chosen with
       | Some p =>
           effect (DownloadLink
                     ("data:" +:+ orElse (dp_contentType p) "" +:+ ";base64,"
                      +:+ orElse (dp_fileContent p) "")
                     (orElse (dp_fileName p) "")) >>
           effect (OnEvent (mkEvent None None None None
                     (Some (fileDownloaded (orElse (dp_fileName p) "")
                              (orElse (dp_contentType p) "")
                              (reportedFileSize result))))) >>
           effect (ConsoleLog ("Downloaded file " +:+ orElse (dp_fileName p) ""
                               +:+ " successfully"))
       | None =>
           effect (ConsoleError "Unexpected response structure") >>
           throw (ErrorObj
                    (orElse (dp_error (dl_top result))
                       (orElse (dl_body result ≫= dp_error)
                          "Failed to download file - missing file content in response")))
       end)
      (fun e =>
         effect (ConsoleError ("Error downloading file: " +:+ errorText e)) >>
         effect (Alert ("Failed to download file: " +:+ errorText e))).

(** The [Promise] around the [FileReader] of [uploadToCloudFlow]. *)
Definition readAsBase64 (f : File) : M (option string) :=
  match content f with
  | ReadOk d =>
      if String.eqb d "" then throw (ErrorObj "Failed to read file")
      else ret (afterFirstComma d)
  | ReadNull => throw (ErrorObj "Failed to read file")
  | ReadError m => throw (ErrorObj m)
  end.

(** The awaited steps that both branches of [uploadToCloudFlow] share:
    read the file, POST it, check the status, parse the body. *)
Definition postFile (w : World) (f : File) : M UploadBody :=
  let! base64Content := readAsBase64 f in
  let! response :=
    fetch (orElse (cloudFlowUploadUrl props) "")
      (UploadRequest (name f) base64Content (orElse (containerPath props) "")
         getCombinedFolderPath (size f)
         (if String.eqb (type f) "" then "application/octet-stream" else type f))
      (uploadOutcome (w_upload w f)) in
  (if negb (ok response)
   then throw (ErrorObj ("Upload failed: " +:+ statusText response)) else ret tt) >>
  parseJson response.

Definition successResult (f : File) (result : UploadBody) : IUploadResult :=
  mkUploadResult (name f) (orElse (ub_url result) "") true None (ub_flowRunId result).

Definition failureResult (f : File) (message : string) : IUploadResult :=
  mkUploadResult (name f) "" false (Some message) None.

(** The body of the [for] loop of the multiple-file branch: the result it
    pushes. *)
Definition uploadOne (w : World) (f : File) : M IUploadResult :=
  modify (startProgressSimulation (name f)) >>
  modify (runTicks (name f) (ticks (w_upload w f))) >>
  tryCatch
    (let! result := postFile w f in
     modify (stopProgressSimulation (name f)) >>
     if ub_success result then
       modify (updateFileState (name f) (mkUpdates (Some 100) None None None)) >>
       ret (successResult f result)
     else ret (failureResult f (orElse (ub_error result) "Upload failed")))
    (fun e =>
       modify (stopProgressSimulation (name f)) >>
       ret (failureResult f (errorText e))).

Fixpoint uploadEach (w : World) (files : list File) (results : list IUploadResult)
    : M (list IUploadResult) :=
  match files with
  | [] => ret results
  | f :: rest =>
      let! r := uploadOne w f in
      uploadEach w rest (results ++ [r])
  end.

(** The update [results.forEach] applies for one result. *)
Definition resultUpdates (r : IUploadResult) : Updates :=
  mkUpdates (Some (if r_success r then 100 else 0))
    (Some (if r_success r then completed else failed))
    (Some (if r_success r then Some (r_url r) else None))
    (Some (if r_success r then None else r_error r)).

(** The first statements of [uploadToCloudFlow]: every file of the list is
    set to [uploading] with progress 0. *)
Definition markUploading (files : list File) : M unit :=
  forEach files (fun f =>
    modify (updateFileState (name f) (mkUpdates (Some 0) (Some uploading) None None))).

(** The single-file branch: only [files[0]] is read. *)
Definition uploadFirst (w : World) (f0 : File) : M (list IUploadResult) :=
  modify (startProgressSimulation (name f0)) >>
  modify (runTicks (name f0) (ticks (w_upload w f0))) >>
  tryCatch
    (let! result := postFile w f0 in
     modify (stopProgressSimulation (name f0)) >>
     if ub_success result then
       modify (updateFileState (name f0) (mkUpdates (Some 100) None None None)) >>
       let uploadResult := successResult f0 result in
       modify (updateFileState (name f0)
                 (mkUpdates (Some 100) (Some completed)
                    (Some (Some (r_url uploadResult))) None)) >>
       ret [uploadResult]
     else
       let uploadResult :=
         failureResult f0 (orElse (ub_error result) "Upload failed") in
       modify (updateFileState (name f0)
                 (mkUpdates (Some 0) (Some failed) None
                    (Some (r_error uploadResult)))) >>
       ret [uploadResult])
    (fun e =>
       modify (stopProgressSimulation (name f0)) >>
       let uploadResult := failureResult f0 (errorText e) in
       modify (updateFileState (name f0)
                 (mkUpdates (Some 0) (Some failed) None
                    (Some (r_error uploadResult)))) >>
       ret [uploadResult]).

Definition uploadToCloudFlow (w : World) (files : list File) : M (list IUploadResult) :=
  if negb isCloudFlowConfigured then
    throw (ErrorObj "Cloud Flow configuration is missing")
  else
    markUploading files >>
    if buttonAllowMultipleFiles props then
      let! results := uploadEach w files [] in
      forEach results (fun r => modify (updateFileState (r_fileName r) (resultUpdates r))) >>
      ret results
    else
      match files with
      | [] => throw (ErrorObj "Cannot read properties of undefined (reading 'name')")
      | f0 :: _ => uploadFirst w f0
      end.

(** [readFile]: resolves with the reader's result, rejects with [null]. *)
Definition readFile (f : File) : M (option string) :=
  match content f with
  | ReadOk d => ret (Some d)
  | ReadNull => ret None
  | ReadError _ =>
      effect (ConsoleError ("Error reading file: " +:+ name f)) >> throw NullValue
  end.

(** The callback of [files.map] in [processFilesAsJSON]. *)
Definition readTask (f : File) : M BatchFile :=
  let! fileContent := readFile f in
  ret (mkBatchFile (name f) (size f) (default "" fileContent)).

(** [processFilesAsJSON]; the JSON text is kept as the list it encodes. *)
Definition processFilesAsJSON (files : list File) : M (list BatchFile) :=
  promiseAll (List.map readTask files).

Definition resultSummary (r : IUploadResult) : string * string * bool * option string :=
  (r_fileName r, r_url r, r_success r, r_error r).

(** The remote branch of [processFiles]. [initialLoad] is the
    [isInitialLoad] of the render the handler belongs to. *)
Definition processRemote (w : World) (initialLoad : bool) (files : list File) : M unit :=
  effect (OnEvent (justStatus InProgress)) >>
  let! uploadResults := uploadToCloudFlow w files in
  let hasFailures := List.existsb (fun r => negb (r_success r)) uploadResults in
  when (List.existsb r_success uploadResults)
    (loadExistingFilesFrom w initialLoad >>
     let successfulUploads :=
       List.map r_fileName (List.filter r_success uploadResults) in
     modify (setFileStates
               (List.filter (fun fs =>
                  negb (List.existsb (String.eqb (name (file fs))) successfulUploads)))) >>
     modify (setSelectedFiles
               (List.filter (fun f =>
                  negb (List.existsb (String.eqb (name f)) successfulUploads))))) >>
  effect (OnEvent (mkEvent
            (Some (JsonResults (List.map resultSummary uploadResults)))
            None (Some uploadResults)
            (Some (if hasFailures then Failed else Completed)) None)).

(** [files.forEach] of the JSON branch: every file is marked completed. *)
Definition markCompleted (files : list File) : M unit :=
  forEach files (fun f =>
    modify (updateFileState (name f)
              (mkUpdates (Some 100) (Some completed) None None))).

(** The two [files.forEach] of the [catch] block. *)
Definition stopAll (files : list File) : M unit :=
  forEach files (fun f => modify (stopProgressSimulation (name f))).

Definition markFailed (files : list File) (message : string) : M unit :=
  forEach files (fun f =>
    modify (updateFileState (name f)
              (mkUpdates (Some 0) (Some failed) None (Some (Some message))))).

(** The JSON branch of [processFiles]. [cumulative] is the
    [cumulativeFilesJSON] of the render the handler belongs to. *)
Definition processLocal (cumulative : list BatchFile) (files : list File) : M unit :=
  let! currentBatchFiles := processFilesAsJSON files in
  markCompleted files >>
  if recordUidIsEmpty then
    modify (setCumulativeFilesJSON (fun prev => prev ++ currentBatchFiles)) >>
    effect (OnEvent (mkEvent
              (Some (JsonBatch (cumulative ++ currentBatchFiles)))
              None None (Some Completed) None))
  else
    effect (OnEvent (mkEvent (Some (JsonBatch currentBatchFiles))
              None None (Some Completed) None)) >>
    modify (setFileStates
              (List.filter (fun fs =>
                 negb (List.existsb
                         (fun f => String.eqb (name f) (name (file fs))) files)))) >>
    modify (setSelectedFiles
              (List.filter (fun f' =>
                 negb (List.existsb
                         (fun f => String.eqb (name f) (name f')) files)))).

(** The [catch] block of [processFiles]. *)
Definition processFailed (files : list File) (e : JsError) : M unit :=
  effect (ConsoleError ("Error processing files: " +:+ errorText e)) >>
  modify (setButtonLoadingState Initial) >>
  stopAll files >>
  markFailed files (errorText e) >>
  effect (OnEvent (mkEvent None None
            (Some [mkUploadResult "Unknown" "" false (Some (errorText e)) None])
            (Some Failed) None)).

Definition processFiles (w : World) (files : list File) : M unit :=
  match files with
  | [] => ret tt
  | _ =>
    let! s := get in
    tryCatch
      (when (buttonShowActionSpinner props) (modify (setButtonLoadingState Loading)) >>
       (if isCloudFlowConfigured
        then processRemote w (isInitialLoad s) files
        else processLocal (cumulativeFilesJSON s) files) >>
       when (buttonShowActionSpinner props) (modify (setButtonLoadingState Loaded)))
      (processFailed files)
  end.

(** [handleUploadAll]: every pending valid file goes to [processFiles]. *)
Definition handleUploadAll (w : World) : M unit :=
  let! s := get in
  let pendingValidFiles :=
    List.map file
      (List.filter (fun fs => Status_eqb (status fs) pending && isValid fs)
         (fileStates s)) in
  match pendingValidFiles with
  | [] => ret tt
  | _ => processFiles w pendingValidFiles
  end.

(** ** The operations of the component as a labelled transition system *)

Inductive Action :=
  | AddFiles (files : list File)
  | RemoveFile (fileName : string)
  | ClearNewFiles
  | UploadAll (w : World)
  | ProcessFiles (w : World) (files : list File)
  | LoadExisting (w : World)
  | DeleteExisting (w : World) (fileName : string)
  | ViewExisting (w : World) (fileName : string)
  | ContextChange (w : World)
  | TimerTick (fileName : string) (random : Q)
  | AdminSetMaxSize (parsed : option Z)
  | AdminSetAllowedTypes (value : string)
  | AdminReset.

Definition step (a : Action) : M unit :=
  match a with
  | AddFiles files => modify (addFilesToState files)
  | RemoveFile fileName => removeFile fileName
  | ClearNewFiles => clearNewFiles
  | UploadAll w => handleUploadAll w
  | ProcessFiles w files => processFiles w files
  | LoadExisting w => loadExistingFiles w
  | DeleteExisting w fileName => handleDeleteExistingFile w fileName
  | ViewExisting w fileName => handleViewExistingFile w fileName
  | ContextChange w => contextChangeEffect w
  | TimerTick fileName random => modify (tick fileName random)
  | AdminSetMaxSize parsed =>
      modify (setAdminConfig (fun prev =>
        mkAdminConfig
          (match parsed with
           | Some n => if n =? 0 then 1 else n
           | None => 1
           end)
          (allowedFileTypes prev)))
  | AdminSetAllowedTypes value =>
      modify (setAdminConfig (fun prev =>
        mkAdminConfig (maxTotalFileSizeMB prev) value))
  | AdminReset =>
      modify (setAdminConfig (fun _ =>
        mkAdminConfig (propMaxTotalFileSizeMB props) (buttonAllowedFileTypes props)))
  end.

End Component.

(** ** The request helper of PowerAutomateCloudFlows.ts *)

Module CloudFlows.

(** What an endpoint does in time. [RespondsAfter ms r]: the headers of the
    response arrive after [ms] milliseconds and its body, read only for a
    2xx status, arrives complete, however late. [StallsAfter ms]: the
    headers of a 2xx response arrive after [ms] milliseconds and its body
    never arrives complete. [FailsAfter ms message]: the request fails after
    [ms] milliseconds. [Silent]: nothing ever comes back. *)
Inductive Timed (B : Type) :=
  | RespondsAfter (ms : Z) (r : Response B)
  | StallsAfter (ms : Z)
  | FailsAfter (ms : Z) (message : string)
  | Silent.
Arguments RespondsAfter {B} ms r.
Arguments StallsAfter {B} ms.
Arguments FailsAfter {B} ms message.
Arguments Silent {B}.

(** The part of [ICloudFlowConfig] that [invokeCloudFlow] reads beside the
    token: [timeout?: number]. *)
Record ICloudFlowConfig := mkCloudFlowConfig {
  timeout : option Z
}.

(** [config.timeout || 100000]. *)
Definition effectiveTimeout (config : ICloudFlowConfig) : Z :=
  match timeout config with
  | Some t => if t =? 0 then 100000 else t
  | None => 100000
  end.

(** [invokeCloudFlow]: [fetch] races a timer that aborts it; headers that
    come strictly before the timer fires win, and the timer is cleared. The
    body is then awaited with no time limit: when it never arrives, the
    call stays pending. *)
Definition invokeCloudFlow {B} (config : ICloudFlowConfig) (endpoint : Timed B)
    : Completion B :=
  match endpoint with
  | RespondsAfter ms r =>
      if ms <? effectiveTimeout config then
        if negb (ok r) then
          Thrown (ErrorObj ("Flow execution failed: " +:+ pretty (statusCode r)
                            +:+ " " +:+ statusText r))
        else match json r with
             | Parsed b => Returned b
             | ParseFailure m => Thrown (ErrorObj m)
             end
      else Thrown (ErrorObj "Flow execution timed out")
  | StallsAfter ms =>
      if ms <? effectiveTimeout config then StillPending
      else Thrown (ErrorObj "Flow execution timed out")
  | FailsAfter ms m =>
      if ms <? effectiveTimeout config then Thrown (ErrorObj m)
      else Thrown (ErrorObj "Flow execution timed out")
  | Silent => Thrown (ErrorObj "Flow execution timed out")
  end.

(** The same endpoint as the component's own [fetch] calls see it: they
    pass no abort signal and start no timer, and after the headers of a 2xx
    response each of them awaits the body, so a body that never arrives
    leaves them waiting as a missing response does. *)
Definition direct {B} (endpoint : Timed B) : FetchOutcome B :=
  match endpoint with
  | RespondsAfter _ r => Responds r
  | StallsAfter _ => NoResponse
  | FailsAfter _ m => NetworkError m
  | Silent => NoResponse
  end.

End CloudFlows.

(** ** Vocabulary of the statements *)

(** The names of a list of files, and membership of a name. *)
Definition names (files : list File) : list string := List.map name files.

Definition named (fileName : string) (fs : IFileState) : Prop :=
  name (file fs) = fileName.

(** The entry [find] returns for a name: the first one that carries it. *)
Definition findByName (fileName : string) (l : list IFileState) : option IFileState :=
  List.find (fun fs => String.eqb (name (file fs)) fileName) l.

Definition removable (st : Status) : Prop := st = pending \/ st = invalid.

(** *** Reading a run of [loadExistingFiles] *)

Definition isExistingFilesEvent (e : Effect) : bool :=
  match e with
  | OnEvent ev => match ev_existingFiles ev with Some _ => true | None => false end
  | _ => false
  end.

Definition isConsoleError (e : Effect) : bool :=
  match e with ConsoleError _ => true | _ => false end.

(** The run treated the response as a success: it reported the existing
    files outward and logged no error. *)
Definition treatedAsSuccess (o : Outcome unit) : bool :=
  List.existsb isExistingFilesEvent (out_trace o)
  && negb (List.existsb isConsoleError (out_trace o)).

Definition hasFilesArray (b : ListBody) : bool :=
  match lb_files b with FilesArray _ => true | _ => false end.

(** The criterion in the words of the specification: [success=true], or a
    files array, whatever the HTTP status. *)
Definition specListSuccess (r : Response ListBody) : bool :=
  match json r with
  | Parsed b => lb_success b || hasFilesArray b
  | ParseFailure _ => false
  end.

(** No element of the array is [null]. *)
Definition noNullElement {A} (files : list (option A)) : bool :=
  List.forallb (fun file' => match file' with Some _ => true | None => false end) files.

(** The criterion the component applies: a files array without a [null]
    element, or a 2xx status with [success=true] and no [files] value. *)
Definition listSuccess (r : Response ListBody) : bool :=
  match json r with
  | Parsed b =>
      match lb_files b with
      | FilesArray l => noNullElement l
      | FilesMissing => ok r && lb_success b
      | FilesNotArray => false
      end
  | ParseFailure _ => false
  end.

Definition listedFiles (r : Response ListBody) : list IExistingFileState :=
  match json r with
  | Parsed b => match lb_files b with FilesArray l => default [] (mapFiles l) | _ => [] end
  | ParseFailure _ => []
  end.

(** *** Totals of the size check *)

(** [maxTotalFileSizeMB * 1024 * 1024]. *)
Definition limitBytes (s : St) : Z :=
  maxTotalFileSizeMB (adminConfig s) * 1024 * 1024.

(** The sizes of the valid, non-failed pending files of the state. *)
Definition pendingTotal (s : St) : Z :=
  sumSizes (List.map file (List.filter countsTowardsTotal (fileStates s))).

(** The sizes of the files accepted earlier in the same call. *)
Definition batchTotal (batch : list IFileState) : Z :=
  sumSizes (List.map file (List.filter isValid batch)).

(** The sizes of the existing remote files. *)
Definition remoteTotal (s : St) : Z :=
  fold_left (fun sum f => sum + ex_size f) (existingFiles s) 0.

(** The total the component compares with the limit. *)
Definition runningTotal (s : St) (batch : list IFileState) (candidate : File) : Z :=
  pendingTotal s + batchTotal batch + size candidate.

(** The total in the words of the specification: the remote files count. *)
Definition specRunningTotal (s : St) (batch : list IFileState) (candidate : File) : Z :=
  pendingTotal s + remoteTotal s + batchTotal batch + size candidate.

(** *** The real result of an upload *)

(** What the flight of a file ends with: [Some true] when the endpoint
    answers 2xx with a body whose [success] is true, [Some false] when the
    read, the request or the answer fails, [None] when the endpoint never
    answers. *)
Definition flightResult (w : World) (f : File) : option bool :=
  match content f with
  | ReadOk d =>
      if String.eqb d "" then Some false
      else match uploadOutcome (w_upload w f) with
           | Responds r =>
               Some (ok r && match json r with
                             | Parsed b => ub_success b
                             | ParseFailure _ => false
                             end)
           | NetworkError _ => Some false
           | NoResponse => None
           end
  | ReadNull => Some false
  | ReadError _ => Some false
  end.



(** The requests one upload sends: one POST when the file could be read,
    none otherwise. *)
Definition uploadFetches (props : Props) (f : File) : list Effect :=
  match content f with
  | ReadOk d =>
      if String.eqb d "" then []
      else [Fetch (orElse (cloudFlowUploadUrl props) "")
              (UploadRequest (name f) (afterFirstComma d)
                 (orElse (containerPath props) "") (getCombinedFolderPath props)
                 (size f)
                 (if String.eqb (type f) "" then "application/octet-stream"
                  else type f))]
  | _ => []
  end.

(** A result belongs to a file and tells how its flight ended. *)
Definition resultOf (w : World) (f : File) (r : IUploadResult) : Prop :=
  r_fileName r = name f /\ flightResult w f = Some (r_success r).

(** *** Frames *)

(** A handler moves a component of the state along a relation; with
    equality, it leaves the component as it found it. *)
Definition respects {X A} (proj : St -> X) (R : X -> X -> Prop) (m : M A) : Prop :=
  forall s, R (proj s) (proj (out_state (m s))).

Abbreviation preserves proj m := (respects proj eq m).

(** The batch only grows at its end. *)
Definition extends (c c' : list BatchFile) : Prop := exists added, c' = c ++ added.

(** [readFile] resolves for the file (JSON mode). *)
Definition readsForJSON (f : File) : bool :=
  match content f with ReadError _ => false | _ => true end.

(** The batch entry [processFilesAsJSON] builds for a file. *)
Definition batchEntry (f : File) : BatchFile :=
  mkBatchFile (name f) (size f)
    (match content f with ReadOk d => d | _ => "" end).

(** The entries after [files.forEach] updated them, and after it marked
    them completed. *)
Definition updatedEntries (u : Updates) (files : list File) (l : list IFileState)
    : list IFileState :=
  fold_left (fun l' f =>
    List.map (fun fs => if String.eqb (name (file fs)) (name f)
                        then applyUpdates u fs else fs) l')
    files l.

Definition markedCompleted (files : list File) (l : list IFileState) : list IFileState :=
  updatedEntries (mkUpdates (Some 100) (Some completed) None None) files l.

(** The entry is named like one of the files; the entries under other
    names than a given one. *)
Definition namedIn (files : list File) (fs : IFileState) : bool :=
  List.existsb (fun f => String.eqb (name (file fs)) (name f)) files.


(** The entries that are not named like one of the files. *)
Definition withoutFiles (files : list File) (l : list IFileState) : list IFileState :=
  List.filter (fun fs =>
    negb (List.existsb (fun f => String.eqb (name f) (name (file fs))) files)) l.

(** The status a trace reports last, if any. *)
Definition lastStatus (t : list Effect) : option UploadStatus :=
  fold_left (fun acc e =>
    match e with
    | OnEvent ev => match ev_uploadStatus ev with Some u => Some u | None => acc end
    | _ => acc
    end) t None.

(** The [filesJSON] payloads a trace reports, in order. *)
Definition reportedFiles (t : list Effect) : list FilesJSON :=
  List.flat_map (fun e =>
    match e with
    | OnEvent ev => match ev_filesJSON ev with Some j => [j] | None => [] end
    | _ => []
    end) t.

(** A run of [processFiles] that the component itself reports as
    completed. *)
Definition succeeded (o : Outcome unit) : Prop :=
  out_completion o = Returned tt /\ lastStatus (out_trace o) = Some Completed.

(** One of the prerequisites of the remote mode is absent or empty. *)
Definition prerequisiteMissing (props : Props) : Prop :=
  truthy (cloudFlowUploadUrl props) = false
  \/ truthy (cloudFlowListFilesUrl props) = false
  \/ truthy (cloudFlowDeleteUrl props) = false
  \/ truthy (cloudFlowDownloadUrl props) = false
  \/ truthy (containerPath props) = false
  \/ truthy (recordUid props) = false.

(** The operations that may shrink the cumulative batch. *)
Definition clearsBatch (a : Action) : bool :=
  match a with
  | RemoveFile _ | ClearNewFiles | ContextChange _ => true
  | _ => false
  end.

(** *** Allow-list strings *)

(** The same string with every [','] written as [';']. *)
Fixpoint unifySeparators (s : string) : string :=
  match s with
  | EmptyString => EmptyString
  | String c s' =>
      String (if Ascii.eqb c "," then ";"%char else c) (unifySeparators s')
  end.

Fixpoint allWhiteSpace (s : string) : bool :=
  match s with
  | EmptyString => true
  | String c s' => Js.isWhiteSpace c && allWhiteSpace s'
  end.

Fixpoint hasSeparator (s : string) : bool :=
  match s with
  | EmptyString => false
  | String c s' => Js.isSeparator c || hasSeparator s'
  end.

(** An extension as it is written without its dot: not empty, not the
    wildcard, no white space at its ends, no separator, no slash, no dot
    in front. *)
Definition extensionWord (p : string) : Prop :=
  p <> ""
  /\ p <> "*"
  /\ Js.trim p = p
  /\ hasSeparator p = false
  /\ Js.includesChar "/" p = false
  /\ Js.startsWith p "." = false.

(** What may stand before a pattern in an allow-list: nothing or a list
    that ends with a separator, then white space. *)
Definition beforePattern (pre : string) : Prop :=
  exists pre0 ws,
    pre = pre0 +:+ ws /\ allWhiteSpace ws = true
    /\ (pre0 = "" \/ exists pre1 c, pre0 = pre1 +:+ String c "" /\ Js.isSeparator c = true).

(** What may stand after it: white space, then nothing or a separator and
    the rest of the list. *)
Definition afterPattern (post : string) : Prop :=
  exists ws post0,
    post = ws +:+ post0 /\ allWhiteSpace ws = true
    /\ (post0 = "" \/ exists c post1, post0 = String c post1 /\ Js.isSeparator c = true).

(** The characters of a string that are not white space. *)
Fixpoint nonWhiteSpace (s : string) : string :=
  match s with
  | EmptyString => EmptyString
  | String c s' =>
      if Js.isWhiteSpace c then nonWhiteSpace s' else String c (nonWhiteSpace s')
  end.

(** Two allow-lists accept exactly the same files: whatever the size limit,
    the files already picked and the files accepted earlier in the call,
    [validateFileType] gives a file the same verdict under both. *)
Definition sameFiles (allowedA allowedB : string) : Prop :=
  forall (maxMB : Z) (fileStates : list IFileState) (batch : list File) (f : File),
    v_isValid (validateFileType (mkAdminConfig maxMB allowedA) fileStates f batch) =
    v_isValid (validateFileType (mkAdminConfig maxMB allowedB) fileStates f batch).

(** ** Concrete data for the examples *)

Module Sample.

Definition MB : Z := 1024 * 1024.

(** All remote prerequisites present, single-file mode. *)
Definition remoteProps : Props :=
  mkProps false true "*" 10
    (Some "https://flow/upload") (Some "https://flow/list")
    (Some "https://flow/delete") (Some "https://flow/download")
    (Some "container") (Some "docs") (Some "rec-1").

Definition remoteMultiProps : Props :=
  mkProps true true "*" 10
    (Some "https://flow/upload") (Some "https://flow/list")
    (Some "https://flow/delete") (Some "https://flow/download")
    (Some "container") (Some "docs") (Some "rec-1").

(** No endpoint and no record identity. *)
Definition localProps : Props :=
  mkProps true true "*" 10 None None None None None None None.

Definition emptyState (limitMB : Z) (allowed : string) : St :=
  mkSt [] [] [] [] (mkAdminConfig limitMB allowed) Initial false false false ∅.

Definition pdf (fileName : string) (megabytes : Z) : File :=
  mkFile fileName (megabytes * MB) "application/pdf"
    (ReadOk "data:application/pdf;base64,JVBERi0=").

Definition unreadable (fileName : string) : File :=
  mkFile fileName MB "application/pdf" (ReadError "NotReadableError").

Definition listResponse (code : Z) (text : string) (b : ListBody) : Response ListBody :=
  mkResponse code text (Parsed b).

Definition uploadOk : Response UploadBody :=
  mkResponse 200 "OK"
    (Parsed (mkUploadBody true (Some "https://blob/file") None (Some "run-1"))).

(** Every upload answers 200 with [success=true] after the given ticks; the
    list endpoint answers with the given response. *)
Definition world (randoms : list Q) (lr : Response ListBody) : World :=
  mkWorld (fun _ => mkFlight randoms (Responds uploadOk)) (Responds lr)
    (fun _ => NoResponse) (fun _ => NoResponse).

Definition emptyList : Response ListBody :=
  listResponse 200 "OK" (mkListBody true (FilesArray []) None).

(** The upload endpoint never answers while the timer ticks. *)
Definition silentWorld (randoms : list Q) : World :=
  mkWorld (fun _ => mkFlight randoms NoResponse) NoResponse
    (fun _ => NoResponse) (fun _ => NoResponse).

(** The files offered to an empty component with a 100 MB limit. *)
Definition offered (files : list File) : St :=
  addFilesToState files (emptyState 100 "*").

End Sample.

(** ** The rest of the component: texts and flags derived from the state *)

(** [context.resources.getString]: the text stored under a key, or an
    exception ([None]). *)
Definition Resources : Type := string -> option string.

(** [getLocalizedString]: the localized text, or the fallback when the
    lookup gives the key back or throws. *)
Definition getLocalizedString (resources : Resources) (key fallback : string)
    : M string :=
  match resources key with
  | Some localizedValue =>
      ret (if String.eqb localizedValue key then fallback else localizedValue)
  | None =>
      effect (ConsoleWarn ("Failed to get localized string for key '" +:+ key +:+ "':")) >>
      ret fallback
  end.

(** The entries of the allow-list as the hint shows them: parsed as
    [validateFileType] parses them, then without their leading dot. *)
Definition displayedTypes (allowed : string) : list string :=
  List.map (fun t => if Js.startsWith t "." then Js.substringFrom 1 t else t)
    (parseAllowedTypes allowed).

(** [getSecondaryContentText]: the hint under the button. *)
Definition getSecondaryContentText (resources : Resources) : M string :=
  let! s := get in
  let config := adminConfig s in
  if String.eqb (allowedFileTypes config) ""
     || String.eqb (Js.trim (allowedFileTypes config)) ""
     || String.eqb (Js.trim (allowedFileTypes config)) "*"
  then ret ""
  else
    let allowedTypes := displayedTypes (allowedFileTypes config) in
    match allowedTypes with
    | [] => ret ""
    | _ =>
        let! allowedPrefix := getLocalizedString resources "AllowedPrefix" "Allowed" in
        let typesList := String.concat "," allowedTypes in
        ret (allowedPrefix +:+ " " +:+ typesList)
    end.

(** [isUploadInProgress]. *)
Definition isUploadInProgress (s : St) : bool :=
  List.existsb (fun fileState => Status_eqb (status fileState) uploading) (fileStates s).

(** ** Button utilities (utils.ts) *)

Module Utils.

(** The value of a character as a digit, letters counting from ten. *)
Definition digitValue (c : ascii) : option Z :=
  let n := Z.of_N (Js.code c) in
  if (48 <=? n) && (n <=? 57) then Some (n - 48)
  else if (97 <=? n) && (n <=? 122) then Some (n - 87)
  else if (65 <=? n) && (n <=? 90) then Some (n - 55)
  else None.

Definition digitIn (radix : Z) (c : ascii) : option Z :=
  match digitValue c with
  | Some d => if d <? radix then Some d else None
  | None => None
  end.

(** The value of the longest prefix of digits; [None] when it is empty. *)
Fixpoint readDigits (radix : Z) (s : string) (acc : option Z) : option Z :=
  match s with
  | EmptyString => acc
  | String c s' =>
      match digitIn radix c with
      | Some d => readDigits radix s' (Some (default 0 acc * radix + d))
      | None => acc
      end
  end.

(** [Number.parseInt(s)] with no radix: leading white space, a sign, a
    [0x] prefix, then digits; [None] is [NaN]. The result is kept as the
    integer the digits denote (JavaScript rounds it beyond 2^53; minus zero
    is zero). *)
Definition parseInt (s : string) : option Z :=
  let trimmed := Js.trimStart s in
  let '(sign, unsigned) :=
    match trimmed with
    | String "-" rest => (-1, rest)
    | String "+" rest => (1, rest)
    | _ => (1, trimmed)
    end in
  let '(radix, digits) :=
    match unsigned with
    | String "0" (String "x" rest) => (16, rest)
    | String "0" (String "X" rest) => (16, rest)
    | _ => (10, unsigned)
    end in
  match readDigits radix digits None with
  | Some n => Some (sign * n)
  | None => None
  end.

(** A numeric TypeScript enum with members [0 .. length names - 1]: the
    test [parsedEnum in Enum] and the reverse mapping [Enum[parsedEnum]]. *)
Definition inEnum (names : list string) (parsedEnum : Z) : bool :=
  (0 <=? parsedEnum) && (parsedEnum <? Z.of_nat (length names)).

Definition enumName (names : list string) (parsedEnum : Z) : string :=
  nth (Z.to_nat parsedEnum) names "".

Definition ButtonAppearanceEnum : list string :=
  ["primary"; "secondary"; "outline"; "subtle"; "transparent"].
Definition ButtonShapeEnum : list string := ["rounded"; "circular"; "square"].
Definition ButtonIconPositionEnum : list string := ["before"; "after"].
Definition ButtonSizeEnum : list string := ["small"; "medium"; "large"].
Definition ButtonAlign : list string := ["left"; "center"; "right"; "justify"].
Definition ButtonFontWeight : list string := ["bold"; "lighter"; "normal"; "semibold"].

(** The shape the four exported converters share: parse, check, map back. *)
Definition convertEnum (names : list string) (what value : string) : Completion string :=
  match parseInt value with
  | Some parsedEnum =>
      if negb (inEnum names parsedEnum)
      then Thrown (ErrorObj ("Invalid button " +:+ what +:+ ": " +:+ value))
      else Returned (enumName names parsedEnum)
  | None => Thrown (ErrorObj ("Invalid button " +:+ what +:+ ": " +:+ value))
  end.

Definition getButtonAppearance (appearance : string) : Completion string :=
  convertEnum ButtonAppearanceEnum "appearance" appearance.

Definition getButtonIconPosition (iconPosition : string) : Completion string :=
  convertEnum ButtonIconPositionEnum "icon position" iconPosition.

Definition getButtonShape (shape : string) : Completion string :=
  convertEnum ButtonShapeEnum "shape" shape.

Definition getButtonSize (size' : string) : Completion string :=
  convertEnum ButtonSizeEnum "size" size'.

(** [getButtonAlign]: the CSS [justify-content] of an alignment code. *)
Definition getButtonAlign (align : string) : Completion string :=
  match parseInt align with
  | Some parsedEnum =>
      if negb (inEnum ButtonAlign parsedEnum)
      then Thrown (ErrorObj ("Invalid button align: " +:+ align))
      else
        let member := enumName ButtonAlign parsedEnum in
        Returned
          (if String.eqb member "left" then "flex-start"
           else if String.eqb member "center" then "center"
           else if String.eqb member "right" then "flex-end"
           else if String.eqb member "justify" then "stretch"
           else "center")
  | None => Thrown (ErrorObj ("Invalid button align: " +:+ align))
  end.

(** [getButtonFontWeight]. *)
Definition getButtonFontWeight (weight : string) : Completion string :=
  match parseInt weight with
  | Some parsedEnum =>
      if negb (inEnum ButtonFontWeight parsedEnum)
      then Thrown (ErrorObj ("Invalid button font weight: " +:+ weight))
      else
        let member := enumName ButtonFontWeight parsedEnum in
        Returned
          (if String.eqb member "bold" then "bold"
           else if String.eqb member "semibold" then "semibold"
           else if String.eqb member "normal" then "normal"
           else if String.eqb member "lighter" then "lighter"
           else "normal")
  | None => Thrown (ErrorObj ("Invalid button font weight: " +:+ weight))
  end.

(** The style object of [getButtonStyle]. *)
Record ButtonStyle := mkButtonStyle {
  style_width : string;
  style_height : string;
  justifyContent : string;
  fontWeight : string
}.

(** [getButtonStyle]: the alignment is converted before the weight. *)
Definition getButtonStyle (width height : Z) (align weight : string)
    : Completion ButtonStyle :=
  match getButtonAlign align with
  | Returned justify =>
      match getButtonFontWeight weight with
      | Returned w =>
          Returned (mkButtonStyle (pretty width +:+ "px") (pretty height +:+ "px") justify w)
      | Thrown e => Thrown e
      | StillPending => StillPending
      end
  | Thrown e => Thrown e
  | StillPending => StillPending
  end.

(** [getDisplayMode]: the value the component passes as [disabled]. *)
Definition getDisplayMode (loadingState buttonDisplayMode : string) : bool :=
  if String.eqb buttonDisplayMode "3" then true
  else if String.eqb loadingState "loading" then true
  else if String.eqb loadingState "loaded"
       then String.eqb buttonDisplayMode "1" || String.eqb buttonDisplayMode "2"
       else String.eqb buttonDisplayMode "1" || String.eqb buttonDisplayMode "2".

End Utils.

(** ** The control class (index.ts) *)

Module Control.

(** The event object as [handleFileUpload] reads it. *)
Record FileUploadEvent := mkFileUploadEvent {
  e_filesJSON : option string;
  e_existingFiles : option string;
  e_uploadResults : option string;
  e_uploadStatus : option string
}.

(** The private fields of [FluentFilesImportControl], and the number of
    calls of [notifyOutputChanged] so far. *)
Record FluentFilesImportControl := mkControl {
  filesAsJSON : option string;
  existingFilesJSON : option string;
  uploadResults : option string;
  lastUploadStatus : Z;
  notified : nat
}.

(** The instance after [init]. *)
Definition initial : FluentFilesImportControl := mkControl None None None 0 0.

(** The [switch] of [handleFileUpload]. *)
Definition statusNumber (uploadStatus : string) : Z :=
  if String.eqb uploadStatus "None" then 0
  else if String.eqb uploadStatus "InProgress" then 1
  else if String.eqb uploadStatus "Completed" then 2
  else if String.eqb uploadStatus "Failed" then 3
  else 0.

Definition handleFileUpload (event : FileUploadEvent) (this : FluentFilesImportControl)
    : FluentFilesImportControl :=
  mkControl
    (if truthy (e_filesJSON event) then e_filesJSON event else filesAsJSON this)
    (if truthy (e_existingFiles event) then e_existingFiles event
     else existingFilesJSON this)
    (if truthy (e_uploadResults event) then e_uploadResults event
     else uploadResults this)
    (if truthy (e_uploadStatus event)
     then statusNumber (orElse (e_uploadStatus event) "")
     else lastUploadStatus this)
    (S (notified this)).

(** [IOutputs], the four output properties. *)
Record IOutputs := mkOutputs {
  FilesAsJSON : string;
  ExistingFiles : string;
  UploadResults : string;
  LastUploadStatus : string
}.

Definition getOutputs (this : FluentFilesImportControl) : IOutputs :=
  mkOutputs (default "" (filesAsJSON this)) (default "" (existingFilesJSON this))
    (default "" (uploadResults this)) (pretty (lastUploadStatus this)).

(** The events of a run delivered one after the other. *)
Definition deliver (events : list FileUploadEvent) (this : FluentFilesImportControl)
    : FluentFilesImportControl :=
  fold_left (fun c e => handleFileUpload e c) events this.

(** The raw values of [context.parameters] that reach the modelled props
    ([None]: the parameter or its [raw] is missing). *)
Record IInputs := mkInputs {
  AllowMultipleFiles : option bool;
  ShowActionSpinner : option bool;
  AllowedFileTypes : option string;
  MaxTotalFileSizeMB : option Z;
  CloudFlowUploadUrl : option string;
  CloudFlowListFilesUrl : option string;
  CloudFlowDeleteUrl : option string;
  CloudFlowDownloadUrl : option string;
  ContainerPath : option string;
  ListFilesFolderName : option string;
  RecordUid : option string
}.

(** [raw || null] for a string parameter. *)
Definition orNull (raw : option string) : option string :=
  if truthy raw then raw else None.

(** [updateView]: the props handed to the component. *)
Definition updateView (parameters : IInputs) : Props :=
  mkProps
    (default false (AllowMultipleFiles parameters))
    (default true (ShowActionSpinner parameters))
    (orElse (AllowedFileTypes parameters) "*")
    (match MaxTotalFileSizeMB parameters with
     | Some n => if n =? 0 then 20 else n
     | None => 20
     end)
    (orNull (CloudFlowUploadUrl parameters))
    (orNull (CloudFlowListFilesUrl parameters))
    (orNull (CloudFlowDeleteUrl parameters))
    (orNull (CloudFlowDownloadUrl parameters))
    (orNull (ContainerPath parameters))
    (orNull (ListFilesFolderName parameters))
    (orNull (RecordUid parameters)).

(** The enumeration parameters with the fallbacks [updateView] gives
    them. *)
Definition appearanceProp (raw : option string) : string := orElse raw "Primary".
Definition alignProp (raw : option string) : string := orElse raw "Center".
Definition fontWeightProp (raw : option string) : string := orElse raw "Normal".
Definition iconPositionProp (raw : option string) : string := orElse raw "Before".
Definition shapeProp (raw : option string) : string := orElse raw "Rounded".
Definition buttonSizeProp (raw : option string) : string := orElse raw "Medium".
Definition displayModeProp (raw : option string) : string := orElse raw "Edit".

(** The component's events as the control receives them: the payloads go
    through [JSON.stringify], the status is its name. *)
Section Encoding.

Variable stringifyFiles : FilesJSON -> string.
Variable stringifyExisting : list IExistingFileState -> string.
Variable stringifyResults : list IUploadResult -> string.

Definition uploadStatusName (u : UploadStatus) : string :=
  match u with
  | InProgress => "InProgress"
  | Completed => "Completed"
  | Failed => "Failed"
  end.

Definition encode (ev : OutEvent) : FileUploadEvent :=
  mkFileUploadEvent
    (option_map stringifyFiles (ev_filesJSON ev))
    (option_map stringifyExisting (ev_existingFiles ev))
    (option_map stringifyResults (ev_uploadResults ev))
    (option_map uploadStatusName (ev_uploadStatus ev)).

(** The [onEvent] calls of a trace, in order. *)
Definition onEvents (t : list Effect) : list FileUploadEvent :=
  List.flat_map (fun e => match e with OnEvent ev => [encode ev] | _ => [] end) t.

End Encoding.

End Control.

(** ** The flow client (PowerAutomateCloudFlows.ts) *)

Module FlowClient.

(** [ICloudFlowConfig]. *)
Record ICloudFlowConfig := mkConfig {
  environmentUrl : string;
  authToken : string;
  uploadFlowId : string;
  listFilesFlowId : string;
  deleteFlowId : string;
  generateViewUrlFlowId : string;
  flowContainerPath : string;
  timeout : option Z
}.

(** [TransferProgressEvent]. *)
Record TransferProgressEvent := mkProgress {
  loadedBytes : Q;
  totalBytes : Z;
  percentage : Z
}.

(** The request payloads of the four flows. *)
Inductive Payload :=
  | IUploadFlowRequest (fileName : string) (fileContent : option string)
      (containerPath : string) (folderName : option string) (fileSize : Z)
      (contentType : string)
  | IListFilesFlowRequest (containerPath : string) (folderName : option string)
  | IGenerateViewUrlFlowRequest (containerPath filePath : string)
  | IDeleteFlowRequest (fileName containerPath : string) (folderName : option string).

(** The responses of the flows, with the fields of their interfaces. At run
    time [files] is what the body holds: nothing, an array whose elements
    are objects or [null] ([None]), or a value that is not an array; and the
    body itself may be [null] (the [None] of [Body] below), where reading a
    field throws a [TypeError]. *)
Record IUploadFlowResponse := mkUploadResponse {
  up_success : bool;
  up_fileName : string;
  up_url : string;
  up_error : option string;
  up_flowRunId : string
}.

Record IExistingFile := mkExistingFile {
  f_name : string;
  f_size : Z;
  f_url : string;
  f_lastModified : string;
  f_metadata : option string
}.

Inductive FilesValue :=
  | NoFiles
  | Files (files : list (option IExistingFile))
  | NotFiles.

Record IListFilesFlowResponse := mkListResponse {
  ls_success : bool;
  ls_files : FilesValue;
  ls_error : option string;
  ls_flowRunId : string
}.

Record IGenerateViewUrlFlowResponse := mkViewUrlResponse {
  vw_success : bool;
  vw_fileName : string;
  vw_viewUrl : string;
  vw_error : option string;
  vw_flowRunId : string
}.

Record IDeleteFlowResponse := mkDeleteResponse {
  dl_success : bool;
  dl_fileName : string;
  dl_error : option string;
  dl_flowRunId : string
}.

(** A parsed body: an object read through its fields, or [null]. *)
Definition Body (B : Type) : Type := option B.

(** [IGenerateViewUrlResult] and [IDeleteResult]. *)
Record IGenerateViewUrlResult := mkViewUrlResult {
  vr_fileName : string;
  vr_viewUrl : string;
  vr_success : bool;
  vr_error : option string;
  vr_flowRunId : option string
}.

Record IDeleteResult := mkDeleteResult {
  dr_fileName : string;
  dr_success : bool;
  dr_error : option string;
  dr_flowRunId : option string
}.

(** What a call of the client does outward: a POST with its bearer token,
    a call of the progress callback, a line on the error console. *)
Inductive Call :=
  | Post (flowUrl authorization : string) (payload : Payload)
  | OnProgress (fileName : option string) (progress : TransferProgressEvent)
  | LogError (message : string).

(** A run of the client: the calls it made and how it ended. *)
Definition Run (A : Type) : Type := list Call * Completion A.

Definition ret {A} (a : A) : Run A := ([], Returned a).

Definition bind {A B} (m : Run A) (k : A -> Run B) : Run B :=
  match m with
  | (t1, Returned a) => let '(t2, c) := k a in (t1 ++ t2, c)
  | (t1, Thrown e) => (t1, Thrown e)
  | (t1, StillPending) => (t1, StillPending)
  end.

Definition tell (c : Call) : Run unit := ([c], Returned tt).

Definition throw {A} (e : JsError) : Run A := ([], Thrown e).

Definition tryCatch {A} (m : Run A) (h : JsError -> Run A) : Run A :=
  match m with
  | (t1, Thrown e) => let '(t2, c) := h e in (t1 ++ t2, c)
  | _ => m
  end.

Declare Scope flow_scope.
Delimit Scope flow_scope with flow.
Notation "'run!' x ':=' m 'in' k" := (bind m (fun x => k))
  (at level 10, x name, m at level 100, k at level 200) : flow_scope.
Notation "m ';;' k" := (bind m (fun _ => k))
  (at level 100, k at level 200, right associativity) : flow_scope.
Local Open Scope flow_scope.

(** [s.endsWith('/')] and [s.slice(0, -1)]. *)
Fixpoint endsWithSlash (s : string) : bool :=
  match s with
  | EmptyString => false
  | String c EmptyString => Ascii.eqb c "/"
  | String _ s' => endsWithSlash s'
  end.

Fixpoint dropLast (s : string) : string :=
  match s with
  | EmptyString => EmptyString
  | String _ EmptyString => EmptyString
  | String c s' => String c (dropLast s')
  end.

(** [buildFlowUrl]. *)
Definition buildFlowUrl (config : ICloudFlowConfig) (flowId : string) : string :=
  let baseUrl :=
    if endsWithSlash (environmentUrl config) then dropLast (environmentUrl config)
    else environmentUrl config in
  baseUrl +:+ "/_api/cloudflow/v1.0/trigger/" +:+ flowId.

(** [fileToBase64]: the text after the first comma of the data URL. *)
Definition fileToBase64 (file' : File) : Run (option string) :=
  match content file' with
  | ReadOk d =>
      if String.eqb d "" then throw (ErrorObj "Failed to read file")
      else ret (afterFirstComma d)
  | ReadNull => throw (ErrorObj "Failed to read file")
  | ReadError m => throw (ErrorObj m)
  end.

(** [invokeCloudFlow]: the POST is recorded; how it ends is decided by the
    race against the timer. *)
Definition invokeCloudFlow {B} (flowUrl : string) (payload : Payload)
    (config : ICloudFlowConfig) (endpoint : CloudFlows.Timed B) : Run B :=
  ([Post flowUrl ("Bearer " +:+ authToken config) payload],
   CloudFlows.invokeCloudFlow (CloudFlows.mkCloudFlowConfig (timeout config)) endpoint).

(** [if (onProgress) onProgress(...)]. *)
Definition report (onProgress : option (TransferProgressEvent -> Call))
    (p : TransferProgressEvent) : Run unit :=
  match onProgress with
  | Some callback => tell (callback p)
  | None => ret tt
  end.

(** [uploadFileToCloudFlow]. The progress callback is taken to return. *)
Definition uploadFileToCloudFlow (file' : option File) (config : ICloudFlowConfig)
    (folderName : option string) (onProgress : option (TransferProgressEvent -> Call))
    (endpoint : CloudFlows.Timed (Body IUploadFlowResponse))
    : Run (option IUploadResult) :=
  match file' with
  | None => ret None
  | Some f =>
      tryCatch
        (report onProgress (mkProgress 0 (size f) 0) ;;
         run! base64Content := fileToBase64 f in
         report onProgress (mkProgress (inject_Z (size f) * 0.5) (size f) 50) ;;
         let uploadRequest :=
           IUploadFlowRequest (name f) base64Content (flowContainerPath config)
             folderName (size f)
             (if String.eqb (type f) "" then "application/octet-stream" else type f) in
         let flowUrl := buildFlowUrl config (uploadFlowId config) in
         run! body := invokeCloudFlow flowUrl uploadRequest config endpoint in
         report onProgress (mkProgress (inject_Z (size f)) (size f) 100) ;;
         match body with
         | Some response =>
             ret (Some (mkUploadResult (up_fileName response) (up_url response)
                          (up_success response) (up_error response)
                          (Some (up_flowRunId response))))
         | None => throw (ErrorObj "Cannot read properties of null (reading 'fileName')")
         end)
        (fun e =>
           tell (LogError ("Cloud Flow upload error: " +:+ errorText e)) ;;
           ret (Some (mkUploadResult (name f) "" false (Some (errorText e)) None)))
  end.

(** The [for] loop of [uploadMultipleFilesToCloudFlow], from a list of
    results so far. *)
Fixpoint uploadEachFile (files : list File) (config : ICloudFlowConfig)
    (folderName : option string)
    (onProgress : option (string -> TransferProgressEvent -> Call))
    (endpoints : File -> CloudFlows.Timed (Body IUploadFlowResponse))
    (results : list IUploadResult) : Run (list IUploadResult) :=
  match files with
  | [] => ret results
  | f :: rest =>
      run! result :=
        uploadFileToCloudFlow (Some f) config folderName
          (match onProgress with
           | Some callback => Some (fun progress => callback (name f) progress)
           | None => None
           end)
          (endpoints f) in
      uploadEachFile rest config folderName onProgress endpoints
        (match result with
         | Some r => results ++ [r]
         | None => results
         end)
  end.

Definition uploadMultipleFilesToCloudFlow (files : list File) (config : ICloudFlowConfig)
    (folderName : option string)
    (onProgress : option (string -> TransferProgressEvent -> Call))
    (endpoints : File -> CloudFlows.Timed (Body IUploadFlowResponse))
    : Run (list IUploadResult) :=
  uploadEachFile files config folderName onProgress endpoints [].

(** [listExistingFilesFromCloudFlow]. *)
Definition listExistingFilesFromCloudFlow (config : ICloudFlowConfig)
    (folderName : option string)
    (endpoint : CloudFlows.Timed (Body IListFilesFlowResponse))
    : Run (list IExistingFile) :=
  tryCatch
    (let listRequest := IListFilesFlowRequest (flowContainerPath config) folderName in
     let flowUrl := buildFlowUrl config (listFilesFlowId config) in
     run! body := invokeCloudFlow flowUrl listRequest config endpoint in
     match body with
     | None => throw (ErrorObj "Cannot read properties of null (reading 'success')")
     | Some response =>
         if negb (ls_success response) then
           tell (LogError ("List files flow failed: "
                           +:+ default "undefined" (ls_error response))) ;;
           ret []
         else
           match ls_files response with
           | Files files =>
               match mapFiles files with
               | Some elements =>
                   ret (List.map (fun file' =>
                          mkExistingFile (f_name file') (f_size file') (f_url file')
                            (f_lastModified file') (f_metadata file')) elements)
               | None =>
                   throw (ErrorObj "Cannot read properties of null (reading 'name')")
               end
           | NoFiles =>
               throw (ErrorObj "Cannot read properties of undefined (reading 'map')")
           | NotFiles => throw (ErrorObj "response.files.map is not a function")
           end
     end)
    (fun e =>
       tell (LogError ("Error listing files from Cloud Flow: " +:+ errorText e)) ;;
       ret []).

(** [generateViewUrlFromCloudFlow]. *)
Definition generateViewUrlFromCloudFlow (fileName : string) (config : ICloudFlowConfig)
    (folderName : option string)
    (endpoint : CloudFlows.Timed (Body IGenerateViewUrlFlowResponse))
    : Run IGenerateViewUrlResult :=
  tryCatch
    (let filePath :=
       if truthy folderName then orElse folderName "" +:+ "/" +:+ fileName
       else fileName in
     let generateViewUrlRequest :=
       IGenerateViewUrlFlowRequest (flowContainerPath config) filePath in
     let flowUrl := buildFlowUrl config (generateViewUrlFlowId config) in
     run! body := invokeCloudFlow flowUrl generateViewUrlRequest config endpoint in
     match body with
     | Some response =>
         ret (mkViewUrlResult (vw_fileName response) (vw_viewUrl response)
                (vw_success response) (vw_error response) (Some (vw_flowRunId response)))
     | None => throw (ErrorObj "Cannot read properties of null (reading 'fileName')")
     end)
    (fun e =>
       tell (LogError ("Error generating view URL for file " +:+ fileName
                       +:+ " from Cloud Flow: " +:+ errorText e)) ;;
       ret (mkViewUrlResult fileName "" false (Some (errorText e)) None)).

(** [deleteFileFromCloudFlow]. *)
Definition deleteFileFromCloudFlow (fileName : string) (config : ICloudFlowConfig)
    (folderName : option string)
    (endpoint : CloudFlows.Timed (Body IDeleteFlowResponse))
    : Run IDeleteResult :=
  tryCatch
    (let deleteRequest :=
       IDeleteFlowRequest fileName (flowContainerPath config) folderName in
     let flowUrl := buildFlowUrl config (deleteFlowId config) in
     run! body := invokeCloudFlow flowUrl deleteRequest config endpoint in
     match body with
     | Some response =>
         ret (mkDeleteResult (dl_fileName response) (dl_success response)
                (dl_error response) (Some (dl_flowRunId response)))
     | None => throw (ErrorObj "Cannot read properties of null (reading 'fileName')")
     end)
    (fun e =>
       tell (LogError ("Error deleting file " +:+ fileName +:+ " from Cloud Flow: "
                       +:+ errorText e)) ;;
       ret (mkDeleteResult fileName false (Some (errorText e)) None)).

(** [validateCloudFlowConfig]. *)
Definition validateCloudFlowConfig (config : ICloudFlowConfig) : bool :=
  negb (String.eqb (environmentUrl config) "")
  && negb (String.eqb (authToken config) "")
  && negb (String.eqb (uploadFlowId config) "")
  && negb (String.eqb (listFilesFlowId config) "")
  && negb (String.eqb (deleteFlowId config) "")
  && negb (String.eqb (generateViewUrlFlowId config) "")
  && negb (String.eqb (flowContainerPath config) "").

End FlowClient.

(** ** Vocabulary of the further properties *)

(** The selected files are the files of the entries, in order. *)
Definition mirrors (s : St) : Prop :=
  selectedFiles s = List.map file (fileStates s).

(** The state after a sequence of operations, each run to the point where
    it returns or waits. *)
Definition after (props : Props) (actions : list Action) (s : St) : St :=
  fold_left (fun st a => out_state (step props a st)) actions s.

(** Every effect of a handler satisfies [P]. *)
Definition emits {A} (P : Effect -> Prop) (m : M A) : Prop :=
  forall s, Forall P (out_trace (m s)).

(** A handler never rejects; a handler never waits for ever. *)
Definition neverRejects {A} (m : M A) : Prop :=
  forall s e, out_completion (m s) <> Thrown e.

Definition settles {A} (m : M A) : Prop :=
  forall s, out_completion (m s) <> StillPending.

(** Every request the environment may receive is answered, with a
    response or with a network error. *)
Definition answered {B} (o : FetchOutcome B) : Prop := o <> NoResponse.

Definition answers (w : World) : Prop :=
  answered (w_list w)
  /\ (forall f, answered (uploadOutcome (w_upload w f)))
  /\ (forall n, answered (w_delete w n))
  /\ (forall n, answered (w_download w n)).

(** The environment an operation runs in, if it talks to the network. *)
Definition worldOf (a : Action) : option World :=
  match a with
  | UploadAll w | ProcessFiles w _ | LoadExisting w | DeleteExisting w _
  | ViewExisting w _ | ContextChange w => Some w
  | _ => None
  end.

(** The pending valid files, as [handleUploadAll] collects them. *)
Definition pendingValidFiles (s : St) : list File :=
  List.map file
    (List.filter (fun fs => Status_eqb (status fs) pending && isValid fs) (fileStates s)).

(** The file name of an upload request. *)
Definition uploadedName (e : Effect) : option string :=
  match e with
  | Fetch _ (UploadRequest fileName _ _ _ _ _) => Some fileName
  | _ => None
  end.

Definition isOnEvent (e : Effect) : bool :=
  match e with OnEvent _ => true | _ => false end.

Definition isDownloadLink (e : Effect) : bool :=
  match e with DownloadLink _ _ => true | _ => false end.

(** The number the control keeps for a status. *)
Definition statusCodeOf (u : UploadStatus) : Z :=
  match u with
  | InProgress => 1
  | Completed => 2
  | Failed => 3
  end.

(** A live timer: the name has an entry in [progressSimulationIntervals]. *)
Definition timerRunning (fileName : string) (s : St) : Prop :=
  is_Some (progressSimulationIntervals s !! fileName).

(** The file every allow-list entry rejects: no name, no type. *)
Definition namelessFile : File := mkFile "" 0 "" ReadNull.

(** The first character of a string is none of the characters
    [parseInt] skips or reads: not white space, not a sign, not a decimal
    digit. *)
Definition startsWithWord (s : string) : bool :=
  match s with
  | EmptyString => false
  | String c _ =>
      negb (Js.isWhiteSpace c) && negb (Ascii.eqb c "-") && negb (Ascii.eqb c "+")
      && negb ((48 <=? Z.of_N (Js.code c)) && (Z.of_N (Js.code c) <=? 57))
  end.

(** ** Further concrete data *)

Module Demo.

(** An environment that answers every request: uploads and the list
    succeed, the delete and download endpoints are unreachable. *)
Definition answering : World :=
  mkWorld (fun _ => mkFlight [] (Responds Sample.uploadOk)) (Responds Sample.emptyList)
    (fun _ => NetworkError "Failed to fetch") (fun _ => NetworkError "Failed to fetch").

End Demo.

(** An entry as [addFilesToState] creates it. *)
Definition freshEntry (e : IFileState) : Prop :=
  progress e = 0 /\ url e = None
  /\ status e = (if isValid e then pending else invalid)
  /\ (isValid e = true <-> error e = None).

(** A state update keeps an invariant. *)
Definition keeps (I : St -> Prop) (s s' : St) : Prop := I s -> I s'.

Abbreviation keepsMirror m := (respects (fun s : St => s) (keeps mirrors) m).



(** An effect is no upload request, or one for a file of the list. *)
Definition uploadsOnly (files : list File) (e : Effect) : Prop :=
  forall n, uploadedName e = Some n -> In n (names files).

(** *** Deleting an existing file *)

(** The delete endpoint accepted the request: a 2xx answer whose body
    parses and has a true [success]. *)
Definition deleteAccepted (r : Response DeleteBody) : bool :=
  ok r && match json r with
          | Parsed b => db_success b
          | ParseFailure _ => false
          end.

(** The message of the failure of a delete, when it fails before the list
    is reloaded. *)
Definition deleteFailure (props : Props) (w : World) (fileName : string) : option string :=
  if negb (isCloudFlowConfigured props) then Some "Cloud Flow configuration is missing"
  else match w_delete w fileName with
       | Responds r =>
           if negb (ok r) then Some ("Delete failed: " +:+ statusText r)
           else match json r with
                | Parsed b =>
                    if db_success b then None
                    else Some (orElse (db_error b) "Failed to delete file")
                | ParseFailure m => Some m
                end
       | NetworkError m => Some m
       | NoResponse => None
       end.

(** The [existingFiles] payloads a trace reports, in order. *)
Definition reportedExisting (t : list Effect) : list (list IExistingFileState) :=
  List.flat_map (fun e =>
    match e with
    | OnEvent ev => match ev_existingFiles ev with Some l => [l] | None => [] end
    | _ => []
    end) t.

(** The existing files without the ones of a name. *)
Definition withoutExisting (fileName : string) (l : list IExistingFileState)
    : list IExistingFileState :=
  List.filter (fun f => negb (String.eqb (ex_name f) fileName)) l.

(** The existing files after a reload, from the list held before. *)
Definition reloaded (w : World) (before : list IExistingFileState)
    : list IExistingFileState :=
  match w_list w with
  | Responds r => if listSuccess r then listedFiles r else before
  | _ => before
  end.

(** *** Viewing an existing file *)

(** The payload the download handler uses: the top level of the body when
    it is complete, else the one under [body] when that is complete. *)
Definition chosenPayload (b : DownloadBody) : option DownloadPayload :=
  if payloadComplete (dl_top b) then Some (dl_top b)
  else match dl_body b with
       | Some p => if payloadComplete p then Some p else None
       | None => None
       end.

(** The download link built from a payload. *)
Definition linkOf (p : DownloadPayload) : Effect :=
  DownloadLink
    ("data:" +:+ orElse (dp_contentType p) "" +:+ ";base64," +:+ orElse (dp_fileContent p) "")
    (orElse (dp_fileName p) "").

Definition isWindowOpen (e : Effect) : bool :=
  match e with WindowOpen _ => true | _ => false end.

(** No file bears the name under which the registry of timers, a plain
    object, stores nothing. *)
Definition ordinaryNames (files : list File) : Prop :=
  Forall (fun f => name f <> "__proto__") files.

(** None of the files has a live timer. *)
Definition noTimerFor (files : list File) (s : St) : Prop :=
  forall f, In f files -> progressSimulationIntervals s !! name f = None.

(** The state with another allow-list in its configuration. *)
Definition withAllowedTypes (allowed : string) (s : St) : St :=
  setAdminConfig (fun prev => mkAdminConfig (maxTotalFileSizeMB prev) allowed) s.

(** The text [getLocalizedString] returns. *)
Definition localized (resources : Resources) (key fallback : string) : string :=
  match resources key with
  | Some localizedValue => if String.eqb localizedValue key then fallback else localizedValue
  | None => fallback
  end.

(** The hint for an allow-list. *)
Definition hintFor (resources : Resources) (allowed : string) : string :=
  if String.eqb allowed "" || String.eqb (Js.trim allowed) ""
     || String.eqb (Js.trim allowed) "*"
  then ""
  else match displayedTypes allowed with
       | [] => ""
       | types =>
           localized resources "AllowedPrefix" "Allowed" +:+ " " +:+ String.concat "," types
       end.

(** *** What an operation may write *)

(** The operations that write the configuration. *)
Definition writesConfig (a : Action) : bool :=
  match a with
  | AdminSetMaxSize _ | AdminSetAllowedTypes _ | AdminReset => true
  | _ => false
  end.

(** The operations that may write the existing files: the ones that list
    them or take one off. *)
Definition writesExisting (a : Action) : bool :=
  match a with
  | UploadAll _ | ProcessFiles _ _ | LoadExisting _ | DeleteExisting _ _
  | ContextChange _ => true
  | _ => false
  end.

(** The operations that may write the entries or the selected files. *)
Definition writesEntries (a : Action) : bool :=
  match a with
  | AddFiles _ | RemoveFile _ | ClearNewFiles | UploadAll _ | ProcessFiles _ _
  | ContextChange _ | TimerTick _ _ => true
  | _ => false
  end.

(** *** The control *)

(** No event of the list carries a non-empty value in the field. *)
Definition silentOn (field : Control.FileUploadEvent -> option string)
    (events : list Control.FileUploadEvent) : Prop :=
  Forall (fun e => truthy (field e) = false) events.

(** *** Button utilities *)

(** The text parses, as [Number.parseInt] parses it, to one of the codes
    [0 .. n - 1]. *)
Definition codeIn (n : Z) (value : string) : Prop :=
  exists k, Utils.parseInt value = Some k /\ 0 <= k < n.

(** A converter returns exactly on the texts that parse to one of [n]
    codes, returns only values of the list, and is never left pending. *)
Definition converts (n : Z) (values : list string)
    (convert : string -> Completion string) (value : string) : Prop :=
  ((exists r, convert value = Returned r) <-> codeIn n value)
  /\ (forall r, convert value = Returned r -> In r values)
  /\ convert value <> StillPending.

(** The exception of a converter for a value it does not accept. *)
Definition invalidButton (what value : string) : Completion string :=
  Thrown (ErrorObj ("Invalid button " +:+ what +:+ ": " +:+ value)).

(** *** The flow client *)

(** The percentages passed to the progress callback, the requests sent and
    the lines written to the error console, each in order. *)
Definition percentages (calls : list FlowClient.Call) : list Z :=
  List.flat_map
    (fun c => match c with
              | FlowClient.OnProgress _ p => [FlowClient.percentage p]
              | _ => []
              end) calls.

Definition posts (calls : list FlowClient.Call) : list FlowClient.Call :=
  List.filter (fun c => match c with FlowClient.Post _ _ _ => true | _ => false end) calls.



(** The data URL of a file whose reading gives a non-empty one. *)
Definition readableAs (f : File) : option string :=
  match content f with
  | ReadOk d => if String.eqb d "" then None else Some d
  | _ => None
  end.

(** The message of the exception for a file that cannot be read. *)
Definition readFailure (f : File) : string :=
  match content f with
  | ReadError m => m
  | _ => "Failed to read file"
  end.

(** How the request to an endpoint ends under the time limit of a
    configuration. *)
Definition flowAnswer {B} (config : FlowClient.ICloudFlowConfig)
    (endpoint : CloudFlows.Timed B) : Completion B :=
  CloudFlows.invokeCloudFlow
    (CloudFlows.mkCloudFlowConfig (FlowClient.timeout config)) endpoint.

(** The request [uploadFileToCloudFlow] sends for a file read as [d]. *)
Definition uploadPost (config : FlowClient.ICloudFlowConfig) (folderName : option string)
    (f : File) (d : string) : FlowClient.Call :=
  FlowClient.Post
    (FlowClient.buildFlowUrl config (FlowClient.uploadFlowId config))
    ("Bearer " +:+ FlowClient.authToken config)
    (FlowClient.IUploadFlowRequest (name f) (afterFirstComma d)
       (FlowClient.flowContainerPath config) folderName (size f)
       (if String.eqb (type f) "" then "application/octet-stream" else type f)).

(** The result the client makes up for a call that failed with a
    message. *)
Definition failedUpload (f : File) (message : string) : IUploadResult :=
  mkUploadResult (name f) "" false (Some message) None.





(** The headers of a 2xx answer came in time and its body never does: the
    request stays pending. *)
Definition stalls {B} (config : FlowClient.ICloudFlowConfig)
    (endpoint : CloudFlows.Timed B) : Prop :=
  flowAnswer config endpoint = StillPending.

(** The results built from the fields of a response. *)
Definition uploadResultOf (response : FlowClient.IUploadFlowResponse) : IUploadResult :=
  mkUploadResult (FlowClient.up_fileName response) (FlowClient.up_url response)
    (FlowClient.up_success response) (FlowClient.up_error response)
    (Some (FlowClient.up_flowRunId response)).





(** The upload of one file as the loop of [uploadMultipleFilesToCloudFlow]
    makes it: the progress callback is given the name of the file. *)
Definition singleUpload (config : FlowClient.ICloudFlowConfig)
    (folderName : option string)
    (onProgress : option (string -> FlowClient.TransferProgressEvent -> FlowClient.Call))
    (endpoints : File -> CloudFlows.Timed (FlowClient.Body FlowClient.IUploadFlowResponse))
    (f : File) : FlowClient.Run (option IUploadResult) :=
  FlowClient.uploadFileToCloudFlow (Some f) config folderName
    (match onProgress with
     | Some callback => Some (fun progress => callback (name f) progress)
     | None => None
     end) (endpoints f).

(** * Properties *)

Arguments ok : simpl never.

(** Runs a handler symbolically: unfolds the monad and the state setters,
    and stops at the first test that depends on an unknown. *)
Ltac run1 :=
  cbv beta iota zeta delta
    [bind tryCatch tryFinally get modify effect ret throw never when fetch parseJson
     out_state out_trace out_completion
     lb_files lb_success lb_error json statusText];
  cbn [fileStates existingFiles selectedFiles cumulativeFilesJSON adminConfig
       buttonLoadingState showFileList loadingExistingFiles isInitialLoad
       progressSimulationIntervals
       setFileStates setExistingFiles setSelectedFiles setCumulativeFilesJSON
       setAdminConfig setButtonLoadingState setShowFileList setLoadingExistingFiles
       setIsInitialLoad setIntervals negb orb andb app].
Ltac run := repeat (progress run1).
Example typeCheck_pdf_1 :
  typeCheckPasses ".pdf;.docx" (mkFile "Report.PDF" 10 "application/pdf" ReadNull) = true.
Proof. reflexivity. Qed.

Example typeCheck_pdf_2 :
  typeCheckPasses "PDF, docx" (mkFile "a.b.txt" 10 "text/plain" ReadNull) = false.
Proof. reflexivity. Qed.

Example typeCheck_mime :
  typeCheckPasses "image/*" (mkFile "x" 10 "image/png" ReadNull) = true.
Proof. reflexivity. Qed.

Example typeCheck_nodot :
  typeCheckPasses "pdf" (mkFile "pdf" 10 "" ReadNull) = false.
Proof. reflexivity. Qed.


(** ** removeFile *)

Lemma isLocked_false_removable st : isLocked st = false -> removable st.
Proof. destruct st; cbn; intros H; try discriminate; [left | right]; reflexivity. Qed.

Lemma isLocked_true_iff st :
  isLocked st = true <-> st = uploading \/ st = completed \/ st = failed.
Proof.
  destruct st; cbn; split; intros H; try discriminate; auto;
    destruct H as [H | [H | H]]; discriminate.
Qed.

Lemma lockedEntry_None fileName s :
  lockedEntry fileName s = None ->
  forall fs0, findByName fileName (fileStates s) = Some fs0 -> removable (status fs0).
Proof.
  unfold lockedEntry, findByName. intros H fs0 Hf. rewrite Hf in H.
  destruct (isLocked (status fs0)) eqn:E; [discriminate |].
  now apply isLocked_false_removable.
Qed.

Lemma removeFile_refused props fileName s fs0 :
  lockedEntry fileName s = Some fs0 ->
  removeFile props fileName s =
    mkOutcome s
      [ConsoleWarn ("Cannot remove file " +:+ fileName +:+ " - file is "
                    +:+ statusName (status fs0))]
      (Returned tt).
Proof. intros H. unfold removeFile. run. rewrite H. run. reflexivity. Qed.

Lemma removeFile_fileStates props fileName s :
  lockedEntry fileName s = None ->
  fileStates (out_state (removeFile props fileName s)) =
    List.filter (fun fs => negb (String.eqb (name (file fs)) fileName)) (fileStates s).
Proof.
  intros H. unfold removeFile. run. rewrite H. run.
  destruct (_ && _)%bool; run; destruct (recordUidIsEmpty props); run; reflexivity.
Qed.

Lemma removeFile_returns props fileName s :
  out_completion (removeFile props fileName s) = Returned tt.
Proof.
  unfold removeFile. run.
  destruct (lockedEntry fileName s); run; [reflexivity |].
  destruct (_ && _)%bool; run; destruct (recordUidIsEmpty props); run; reflexivity.
Qed.

Lemma find_Some_first {A} (p : A -> bool) l x :
  List.find p l = Some x -> In x l /\ p x = true.
Proof. apply List.find_some. Qed.

(** C8. For every file name, [removeFile] returns normally. When the entry
    found under the name is [uploading], [completed] or [failed], the whole
    state is left as it was and the only effect is a console warning.
    Otherwise exactly the entries with that name leave the list; so an entry
    leaves the list only if it carries the name and the entry found under
    the name is [pending] or [invalid], which is the entry itself when it is
    the only one with the name. *)
Theorem C8_removeFile_only_pending_or_invalid :
  forall (props : Props) (fileName : string) (s : St),
    let o := removeFile props fileName s in
    out_completion o = Returned tt
    /\ (forall fs0,
          findByName fileName (fileStates s) = Some fs0 ->
          status fs0 = uploading \/ status fs0 = completed \/ status fs0 = failed ->
          out_state o = s
          /\ out_trace o =
               [ConsoleWarn ("Cannot remove file " +:+ fileName +:+ " - file is "
                             +:+ statusName (status fs0))])
    /\ (forall fs0,
          findByName fileName (fileStates s) = Some fs0 ->
          removable (status fs0) ->
          fileStates (out_state o) =
            List.filter (fun fs => negb (String.eqb (name (file fs)) fileName))
              (fileStates s))
    /\ (forall fs,
          In fs (fileStates s) -> ~ In fs (fileStates (out_state o)) ->
          named fileName fs
          /\ (exists fs0, findByName fileName (fileStates s) = Some fs0
                          /\ removable (status fs0))
          /\ ((forall fs', In fs' (fileStates s) -> named fileName fs' -> fs' = fs) ->
              removable (status fs))).
Proof.
  intros props fileName s o. subst o.
  split; [apply removeFile_returns |].
  split; [| split].
  - intros fs0 Hf Hst.
    assert (Hl : lockedEntry fileName s = Some fs0).
    { unfold lockedEntry. unfold findByName in Hf. rewrite Hf.
      apply isLocked_true_iff in Hst. now rewrite Hst. }
    rewrite (removeFile_refused props _ _ _ Hl). cbn. split; reflexivity.
  - intros fs0 Hf Hst. apply removeFile_fileStates.
    unfold lockedEntry. unfold findByName in Hf. rewrite Hf.
    destruct (isLocked (status fs0)) eqn:E; [| reflexivity].
    apply isLocked_true_iff in E. destruct Hst as [H | H]; rewrite H in E;
      destruct E as [E | [E | E]]; discriminate.
  - intros fs Hin Hout.
    destruct (lockedEntry fileName s) as [fl |] eqn:Hl.
    + rewrite (removeFile_refused props _ _ _ Hl) in Hout. cbn in Hout. contradiction.
    + rewrite (removeFile_fileStates props _ _ Hl) in Hout.
      assert (Hname : named fileName fs).
      { unfold named. destruct (String.eqb (name (file fs)) fileName) eqn:E.
        - now apply String.eqb_eq in E.
        - exfalso. apply Hout. apply List.filter_In. split; [exact Hin |].
          now rewrite E. }
      split; [exact Hname |].
      destruct (findByName fileName (fileStates s)) as [fs0 |] eqn:Hf.
      * pose proof (lockedEntry_None _ _ Hl fs0 Hf) as Hrem.
        split; [exists fs0; split; [reflexivity | exact Hrem] |].
        intros Huniq.
        apply find_Some_first in Hf. destruct Hf as [Hin0 Hp0].
        apply String.eqb_eq in Hp0.
        rewrite <- (Huniq fs0 Hin0 Hp0). exact Hrem.
      * exfalso. unfold findByName in Hf.
        apply (List.find_none _ _ Hf) in Hin.
        unfold named in Hname. rewrite Hname, String.eqb_refl in Hin. discriminate.
Qed.

(** A file that is being uploaded stays in the list. *)
Lemma C8_removeFile_only_pending_or_invalid_witness :
  let fs0 := mkFileState (Sample.pdf "a.pdf" 1) 40 uploading None None true in
  let s := setFileStates (fun _ => [fs0]) (Sample.emptyState 10 "*") in
  out_state (removeFile Sample.localProps "a.pdf" s) = s.
Proof.
  intros fs0 s.
  exact (proj1 (proj1 (proj2 (C8_removeFile_only_pending_or_invalid
                                Sample.localProps "a.pdf" s))
                  fs0 eq_refl (or_introl eq_refl))).
Defined.

(** A pending file is removed, a completed one is not. *)
Example removeFile_pending_and_completed :
  let a := mkFileState (Sample.pdf "a.pdf" 1) 0 pending None None true in
  let b := mkFileState (Sample.pdf "b.pdf" 1) 100 completed None None true in
  let s := setFileStates (fun _ => [a; b]) (Sample.emptyState 10 "*") in
  fileStates (out_state (removeFile Sample.localProps "a.pdf" s)) = [b]
  /\ fileStates (out_state (removeFile Sample.localProps "b.pdf" s)) = [a; b].
Proof. split; reflexivity. Qed.

(** ** loadExistingFiles *)

Lemma mapFiles_noNull {A} (l : list (option A)) :
  noNullElement l = match mapFiles l with Some _ => true | None => false end.
Proof.
  induction l as [| [a |] l IH]; cbn; [reflexivity | | reflexivity].
  unfold noNullElement in IH. rewrite IH. now destruct (mapFiles l).
Qed.

Lemma noNullElement_In {A} (l : list (option A)) :
  noNullElement l = true <-> ~ In None l.
Proof.
  unfold noNullElement. rewrite List.forallb_forall. split.
  - intros H Hin. specialize (H None Hin). discriminate.
  - intros H [a |] Hin; [reflexivity | contradiction].
Qed.

Lemma mapFiles_Some {A} (l : list (option A)) mapped :
  mapFiles l = Some mapped -> List.map Some mapped = l.
Proof.
  revert mapped. induction l as [| [a |] l IH]; cbn; intros mapped H.
  - now injection H as <-.
  - destruct (mapFiles l) as [m |]; [| discriminate].
    injection H as <-. cbn. now rewrite (IH m eq_refl).
  - discriminate.
Qed.

Lemma loadExistingFiles_responds props w s r :
  isCloudFlowConfigured props = true ->
  w_list w = Responds r ->
  let o := loadExistingFiles props w s in
  out_completion o = Returned tt
  /\ treatedAsSuccess o = listSuccess r
  /\ List.existsb isConsoleError (out_trace o) = negb (listSuccess r)
  /\ existingFiles (out_state o) =
       (if listSuccess r then listedFiles r else existingFiles s)
  /\ fileStates (out_state o) = fileStates s
  /\ cumulativeFilesJSON (out_state o) = cumulativeFilesJSON s.
Proof.
  intros Hc Hw o. subst o. unfold treatedAsSuccess, listSuccess, listedFiles.
  unfold loadExistingFiles, loadExistingFilesFrom, loadExistingFilesWith.
  rewrite Hc, Hw. cbn [negb].
  destruct r as [code text [[succ files err] | m]].
  - run.
    destruct (ok _), succ, files as [| l |]; run; cbn; run.
    all: try (rewrite (mapFiles_noNull l); destruct (mapFiles l) as [mapped |]; run).
    all: try (destruct (isInitialLoad s); run).
    all: try (destruct (0 <? Z.of_nat (length mapped)); run).
    all: cbn; repeat split; reflexivity.
  - run. destruct (ok _); run. all: destruct (isInitialLoad s); run.
    all: cbn; repeat split; reflexivity.
Qed.

(** C3 (as amended). With the remote mode configured, [loadExistingFiles]
    treats a list response as a success exactly when the body parses and
    either holds a files array none of whose elements is [null], empty or
    not and whatever the HTTP status and [success] are, or holds no [files]
    value while the status is 2xx and [success] is true. On success the
    existing files become the listed ones; otherwise, also for an array
    with a [null] element, an error is logged and they are left as they
    were. *)
Theorem C3_list_response_acceptance :
  forall (props : Props) (w : World) (s : St) (r : Response ListBody),
    isCloudFlowConfigured props = true ->
    w_list w = Responds r ->
    let o := loadExistingFiles props w s in
    treatedAsSuccess o = listSuccess r
    /\ (listSuccess r = true -> existingFiles (out_state o) = listedFiles r)
    /\ (listSuccess r = false ->
        existingFiles (out_state o) = existingFiles s
        /\ List.existsb isConsoleError (out_trace o) = true)
    /\ (forall b l, json r = Parsed b -> lb_files b = FilesArray l ->
          (treatedAsSuccess o = true <-> ~ In None l)
          /\ (~ In None l -> List.map Some (existingFiles (out_state o)) = l)
          /\ (In None l ->
              existingFiles (out_state o) = existingFiles s
              /\ List.existsb isConsoleError (out_trace o) = true))
    /\ (forall b, json r = Parsed b -> hasFilesArray b = false ->
          ok r && lb_success b = false -> treatedAsSuccess o = false).
Proof.
  intros props w s r Hc Hw o.
  destruct (loadExistingFiles_responds props w s r Hc Hw) as (_ & Ht & Hl & He & _).
  fold o in Ht, Hl, He. rewrite Ht, Hl, He.
  split; [reflexivity |]. split; [intros H; now rewrite H |].
  split; [intros H; now rewrite H |]. split.
  - intros b l Hj Hf. unfold listSuccess, listedFiles. rewrite Hj, Hf.
    split; [apply noNullElement_In |]. split.
    + intros Hn. apply noNullElement_In in Hn. rewrite Hn.
      rewrite mapFiles_noNull in Hn.
      destruct (mapFiles l) as [mapped |] eqn:Hm; [| discriminate].
      now apply mapFiles_Some.
    + intros Hin. destruct (noNullElement l) eqn:Hn; [| split; reflexivity].
      apply noNullElement_In in Hn. contradiction.
  - intros b Hj Hf Hs. unfold listSuccess. rewrite Hj.
    unfold hasFilesArray in Hf. destruct (lb_files b); [exact Hs | discriminate | reflexivity].
Qed.

(** An HTTP 500 answer that carries an empty files array is a success. *)
Lemma C3_list_response_acceptance_witness :
  let r := Sample.listResponse 500 "Internal Server Error"
             (mkListBody false (FilesArray []) None) in
  let o := loadExistingFiles Sample.remoteProps (Sample.world [] r)
             (Sample.emptyState 10 "*") in
  treatedAsSuccess o = true /\ existingFiles (out_state o) = [].
Proof.
  intros r o.
  destruct (proj1 (proj2 (proj2 (proj2
              (C3_list_response_acceptance Sample.remoteProps (Sample.world [] r)
                 (Sample.emptyState 10 "*") r eq_refl eq_refl))))
              (mkListBody false (FilesArray []) None) [] eq_refl eq_refl)
    as (Hiff & Hl & _).
  assert (Hn : ~ In (@None IExistingFileState) []) by (intros []).
  split; [exact (proj2 Hiff Hn) |].
  specialize (Hl Hn). fold o in Hl.
  destruct (existingFiles (out_state o)); [reflexivity | discriminate].
Defined.

(** A 2xx answer with [success=true] whose files array holds a [null]: the
    guard passes, reading the element throws, and the call ends in the
    error path. *)
Example list_with_null_element_is_an_error :
  let listed := mkExisting "a.pdf" 1 "https://blob/a.pdf" "2024-01-01" in
  let r := Sample.listResponse 200 "OK"
             (mkListBody true (FilesArray [Some listed; None]) None) in
  let o := loadExistingFiles Sample.remoteProps (Sample.world [] r)
             (Sample.emptyState 10 "*") in
  treatedAsSuccess o = false
  /\ existingFiles (out_state o) = []
  /\ out_trace o =
       [Fetch "https://flow/list" (ListRequest "container" "docs/rec-1");
        ConsoleError
          "Error loading existing files: Cannot read properties of null (reading 'name')"].
Proof. vm_compute. repeat split; reflexivity. Qed.

(** An HTTP 500 answer with [success=true] and no files array meets the
    criterion of the specification, yet the component treats it as an
    error. *)
Lemma C3_counterexample :
  let r := Sample.listResponse 500 "Internal Server Error"
             (mkListBody true FilesMissing None) in
  specListSuccess r = true
  /\ treatedAsSuccess
       (loadExistingFiles Sample.remoteProps (Sample.world [] r)
          (Sample.emptyState 10 "*")) = false.
Proof. split; vm_compute; reflexivity. Qed.

(** ** Size limit at acceptance *)

Lemma fold_left_add_acc {A} (g : A -> Z) (l : list A) (a : Z) :
  fold_left (fun sum x => sum + g x) l a = a + fold_left (fun sum x => sum + g x) l 0.
Proof.
  revert a. induction l as [| x l IH]; intros a; cbn; [lia |].
  rewrite (IH (a + g x)), (IH (0 + g x)). lia.
Qed.

Lemma sumSizes_app l1 l2 : sumSizes (l1 ++ l2) = sumSizes l1 + sumSizes l2.
Proof.
  unfold sumSizes. rewrite fold_left_app.
  now rewrite fold_left_add_acc.
Qed.

Lemma sumSizes_cons f l : sumSizes (f :: l) = size f + sumSizes l.
Proof. unfold sumSizes. cbn. now rewrite fold_left_add_acc. Qed.

Lemma getCurrentTotalFileSize_pendingTotal s :
  getCurrentTotalFileSize s = pendingTotal s.
Proof.
  unfold getCurrentTotalFileSize, pendingTotal, sumSizes.
  generalize 0. induction (List.filter countsTowardsTotal (fileStates s)) as [| x l IH];
    intros a; cbn; [reflexivity | apply IH].
Qed.

Lemma validateFileType_isValid config fileStates0 f batchFiles :
  0 < maxTotalFileSizeMB config ->
  v_isValid (validateFileType config fileStates0 f batchFiles) =
    typeCheckPasses (allowedFileTypes config) f
    && (sumSizes (List.map file (List.filter countsTowardsTotal fileStates0) ++ batchFiles)
        + size f <=? maxTotalFileSizeMB config * 1024 * 1024).
Proof.
  intros Hpos. unfold validateFileType.
  destruct (typeCheckPasses (allowedFileTypes config) f); cbn; [| reflexivity].
  replace (maxTotalFileSizeMB config =? 0) with false by (symmetry; apply Z.eqb_neq; lia).
  replace (0 <? maxTotalFileSizeMB config) with true by (symmetry; apply Z.ltb_lt; lia).
  cbn. rewrite Z.ltb_antisym.
  destruct (_ <=? _); reflexivity.
Qed.

(** The entry [addFilesToState] pushes for a candidate. *)
Lemma addFileToBatch_entry s batch f :
  exists e, addFileToBatch s batch f = batch ++ [e]
            /\ file e = f /\ progress e = 0
            /\ isValid e =
                 v_isValid (validateFileType (adminConfig s) (fileStates s) f
                              (List.map file (List.filter isValid batch)))
            /\ status e = (if isValid e then pending else invalid).
Proof.
  unfold addFileToBatch. eexists. split; [reflexivity |]. cbn. repeat split; reflexivity.
Qed.

Lemma addFileToBatch_isValid s batch f e :
  0 < maxTotalFileSizeMB (adminConfig s) ->
  addFileToBatch s batch f = batch ++ [e] ->
  isValid e = typeCheckPasses (allowedFileTypes (adminConfig s)) f
              && (runningTotal s batch f <=? limitBytes s).
Proof.
  intros Hpos H. destruct (addFileToBatch_entry s batch f) as (e' & He' & _ & _ & Hv & _).
  rewrite He' in H. apply app_inv_head in H. injection H as <-.
  rewrite Hv, validateFileType_isValid by exact Hpos.
  unfold runningTotal, limitBytes, pendingTotal, batchTotal.
  now rewrite sumSizes_app.
Qed.

Lemma fold_addFileToBatch_snoc s pre f acc :
  fold_left (addFileToBatch s) (pre ++ [f]) acc =
    addFileToBatch s (fold_left (addFileToBatch s) pre acc) f.
Proof. now rewrite fold_left_app. Qed.

Lemma fold_addFileToBatch_extends s files acc :
  exists new, fold_left (addFileToBatch s) files acc = acc ++ new
              /\ List.map file new = files
              /\ Forall (fun e => status e = (if isValid e then pending else invalid)) new.
Proof.
  revert acc. induction files as [| f files IH]; intros acc; cbn.
  - exists []. rewrite app_nil_r. repeat split; constructor.
  - destruct (addFileToBatch_entry s acc f) as (e & He & Hf & _ & _ & Hst).
    rewrite He. destruct (IH (acc ++ [e])) as (new & Hn & Hm & Hall).
    exists (e :: new). rewrite Hn, <- app_assoc. cbn. repeat split.
    + now rewrite Hf, Hm.
    + constructor; assumption.
Qed.

Lemma countsTowardsTotal_fresh e :
  status e = (if isValid e then pending else invalid) ->
  countsTowardsTotal e = isValid e.
Proof. unfold countsTowardsTotal. intros ->. destruct (isValid e); reflexivity. Qed.

Lemma filter_counts_fresh new :
  Forall (fun e => status e = (if isValid e then pending else invalid)) new ->
  List.filter countsTowardsTotal new = List.filter isValid new.
Proof.
  induction 1 as [| e l He _ IH]; cbn; [reflexivity |].
  now rewrite (countsTowardsTotal_fresh e He), IH.
Qed.

Lemma batchTotal_snoc batch e :
  batchTotal (batch ++ [e]) = batchTotal batch + (if isValid e then size (file e) else 0).
Proof.
  unfold batchTotal. rewrite List.filter_app, List.map_app, sumSizes_app. cbn.
  destruct (isValid e); cbn; unfold sumSizes; cbn; lia.
Qed.

Lemma existsb_snoc {A} (p : A -> bool) l x :
  List.existsb p (l ++ [x]) = List.existsb p l || p x.
Proof. rewrite List.existsb_app. cbn. now rewrite orb_false_r. Qed.

(** Once a candidate of the call is accepted, the accepted candidates and
    the pending files stay within the limit. *)
Lemma batch_within_limit s files :
  0 < maxTotalFileSizeMB (adminConfig s) ->
  let new := fold_left (addFileToBatch s) files [] in
  List.existsb isValid new = true ->
  pendingTotal s + batchTotal new <= limitBytes s.
Proof.
  intros Hpos. induction files as [| f pre IH] using rev_ind; cbn zeta.
  - cbn. discriminate.
  - rewrite fold_addFileToBatch_snoc.
    destruct (addFileToBatch_entry s (fold_left (addFileToBatch s) pre []) f)
      as (e & He & Hf & _ & _ & _).
    pose proof (addFileToBatch_isValid s _ f e Hpos He) as Hv.
    rewrite He, existsb_snoc, batchTotal_snoc, Hf.
    destruct (isValid e) eqn:Ev.
    + intros _. symmetry in Hv. apply andb_prop in Hv. destruct Hv as [_ Hle].
      apply Z.leb_le in Hle. unfold runningTotal in Hle. lia.
    + rewrite orb_false_r. intros H. specialize (IH H). cbn zeta in IH. lia.
Qed.

Lemma addFilesToState_fileStates files s :
  fileStates (addFilesToState files s) =
    fileStates s ++ fold_left (addFileToBatch s) files [].
Proof. reflexivity. Qed.

Lemma pendingTotal_addFilesToState files s :
  pendingTotal (addFilesToState files s) =
    pendingTotal s + batchTotal (fold_left (addFileToBatch s) files []).
Proof.
  unfold pendingTotal at 1. rewrite addFilesToState_fileStates.
  destruct (fold_addFileToBatch_extends s files []) as (new & Hn & _ & Hall).
  cbn in Hn. rewrite Hn.
  rewrite List.filter_app, List.map_app, sumSizes_app, (filter_counts_fresh new Hall).
  reflexivity.
Qed.

(** C1 (as amended). While the limit is positive, the entry that
    [addFilesToState] creates for a candidate is valid exactly when the
    candidate passes the type check and the running total does not exceed
    the limit, where the running total is the sizes of the valid, non-failed
    pending files, plus the sizes of the files accepted earlier in the same
    call, plus the candidate's size (the existing remote files are not
    counted). After a call that accepted at least one file, the valid
    pending files are within the limit. *)
Theorem C1_running_total_at_acceptance :
  forall (s : St) (pre post : list File) (candidate : File),
    0 < maxTotalFileSizeMB (adminConfig s) ->
    let files := pre ++ candidate :: post in
    let batch := fold_left (addFileToBatch s) pre [] in
    let s' := addFilesToState files s in
    (exists e rest,
        fileStates s' = fileStates s ++ batch ++ e :: rest
        /\ file e = candidate
        /\ isValid e =
             typeCheckPasses (allowedFileTypes (adminConfig s)) candidate
             && (runningTotal s batch candidate <=? limitBytes s)
        /\ status e = (if isValid e then pending else invalid))
    /\ (List.existsb isValid (fold_left (addFileToBatch s) files []) = true ->
        getCurrentTotalFileSize s' <= limitBytes s).
Proof.
  intros s pre post candidate Hpos files batch s'. split.
  - subst s' files. rewrite addFilesToState_fileStates, fold_left_app. cbn [fold_left].
    fold batch.
    destruct (addFileToBatch_entry s batch candidate) as (e & He & Hf & _ & _ & Hst).
    pose proof (addFileToBatch_isValid s batch candidate e Hpos He) as Hv.
    rewrite He.
    destruct (fold_addFileToBatch_extends s post (batch ++ [e])) as (rest & Hr & _ & _).
    exists e, rest. rewrite Hr, <- app_assoc. cbn. repeat split; assumption.
  - intros Hex. subst s'. rewrite getCurrentTotalFileSize_pendingTotal,
      pendingTotal_addFilesToState.
    now apply batch_within_limit.
Qed.

(** A 6 MB file then an 8 MB file against a 10 MB limit: the second one is
    rejected and the pending total stays at 6 MB. *)
Lemma C1_running_total_at_acceptance_witness :
  let s := Sample.emptyState 10 ".pdf;.docx" in
  let s' := addFilesToState [Sample.pdf "a.pdf" 6; Sample.pdf "b.pdf" 8] s in
  getCurrentTotalFileSize s' <= limitBytes s.
Proof.
  intros s s'.
  refine (proj2 (C1_running_total_at_acceptance s [Sample.pdf "a.pdf" 6] []
                   (Sample.pdf "b.pdf" 8) _) _).
  - reflexivity.
  - vm_compute. reflexivity.
Defined.

(** One existing remote file of 10 MB fills a 10 MB limit, yet a 1 MB
    candidate is accepted: the total the specification describes (11 MB) is
    above the limit, and so is the sum of the valid pending and the remote
    files after the acceptance. *)
Lemma C1_counterexample :
  let remote := mkExisting "old.pdf" (10 * Sample.MB) "https://blob/old.pdf" "2024-01-01" in
  let s := setExistingFiles (fun _ => [remote]) (Sample.emptyState 10 "*") in
  let candidate := Sample.pdf "new.pdf" 1 in
  let s' := addFilesToState [candidate] s in
  0 < maxTotalFileSizeMB (adminConfig s)
  /\ List.map isValid (fileStates s') = [true]
  /\ limitBytes s < specRunningTotal s [] candidate
  /\ limitBytes s' < getCurrentTotalFileSize s' + remoteTotal s'.
Proof. vm_compute. repeat split; reflexivity. Qed.

(** ** Progress simulation *)

Lemma bind_run {A B} (m : M A) (k : A -> M B) s :
  bind m k s =
    match out_completion (m s) with
    | Returned a =>
        let o' := k a (out_state (m s)) in
        mkOutcome (out_state o') (out_trace (m s) ++ out_trace o') (out_completion o')
    | Thrown e => mkOutcome (out_state (m s)) (out_trace (m s)) (Thrown e)
    | StillPending => mkOutcome (out_state (m s)) (out_trace (m s)) StillPending
    end.
Proof.
  unfold bind. destruct (m s) as [s1 t1 [a | e |]]; cbn; try reflexivity.
  destruct (k a s1); reflexivity.
Qed.

Lemma forEach_modify_state {A} (xs : list A) (g : A -> St -> St) s :
  forEach xs (fun x => modify (g x)) s =
    mkOutcome (fold_left (fun s' x => g x s') xs s) [] (Returned tt).
Proof.
  revert s. induction xs as [| x xs IH]; intros s; cbn; [reflexivity |].
  unfold bind, modify. cbn. rewrite IH. reflexivity.
Qed.

Lemma fileStates_updateFileState n u s :
  fileStates (updateFileState n u s) =
    List.map (fun fs => if String.eqb (name (file fs)) n then applyUpdates u fs else fs)
      (fileStates s).
Proof. reflexivity. Qed.

(** An update under one name leaves what holds of the entries under
    another name. *)
Lemma updateFileState_other n m u s (Q : IFileState -> Prop) :
  m <> n ->
  (forall fs, In fs (fileStates s) -> named n fs -> Q fs) ->
  forall fs, In fs (fileStates (updateFileState m u s)) -> named n fs -> Q fs.
Proof.
  intros Hne H fs Hin Hn. rewrite fileStates_updateFileState in Hin.
  apply List.in_map_iff in Hin. destruct Hin as (fs0 & Heq & Hin0).
  destruct (String.eqb (name (file fs0)) m) eqn:E.
  - apply String.eqb_eq in E. subst fs. unfold named in Hn. cbn in Hn. congruence.
  - subst fs. now apply H.
Qed.

(** An update under a name sets its fields in every entry under it. *)
Lemma updateFileState_same n u s :
  forall fs, In fs (fileStates (updateFileState n u s)) -> named n fs ->
    exists fs0, In fs0 (fileStates s) /\ named n fs0 /\ fs = applyUpdates u fs0.
Proof.
  intros fs Hin Hn. rewrite fileStates_updateFileState in Hin.
  apply List.in_map_iff in Hin. destruct Hin as (fs0 & Heq & Hin0).
  destruct (String.eqb (name (file fs0)) n) eqn:E.
  - exists fs0. apply String.eqb_eq in E. now repeat split.
  - subst fs. unfold named in Hn. apply String.eqb_neq in E. contradiction.
Qed.

Lemma updateFileState_names n u s :
  List.map (fun fs => name (file fs)) (fileStates (updateFileState n u s)) =
  List.map (fun fs => name (file fs)) (fileStates s).
Proof.
  rewrite fileStates_updateFileState, List.map_map. apply List.map_ext.
  intros fs. destruct (String.eqb _ _); reflexivity.
Qed.



Lemma tick_cases fileName r s :
  (progressSimulationIntervals s !! fileName = None /\ tick fileName r s = s)
  \/ (exists sim,
        progressSimulationIntervals s !! fileName = Some sim
        /\ tick fileName r s =
             updateFileState fileName
               (mkUpdates (Some (Qfloor (Qmin (sim + r * 15)%Q 95%Q))) None None None)
               (setIntervals
                  (fun m => <[fileName := Qmin (sim + r * 15)%Q 95%Q]> m) s)).
Proof.
  unfold tick. destruct (progressSimulationIntervals s !! fileName) as [sim |].
  - right. exists sim. split; reflexivity.
  - left. split; reflexivity.
Qed.






(** [markUploading] as a fold, and what it does to the entries. *)
Lemma markUploading_run files s :
  markUploading files s =
    mkOutcome
      (fold_left (fun s' f =>
         updateFileState (name f) (mkUpdates (Some 0) (Some uploading) None None) s')
         files s)
      [] (Returned tt).
Proof. unfold markUploading. apply forEach_modify_state. Qed.

Lemma fold_update_named (u : Updates) files s f :
  In f files ->
  forall fs,
    In fs (fileStates (fold_left (fun s' x => updateFileState (name x) u s') files s)) ->
    named (name f) fs -> exists fs0, fs = applyUpdates u fs0.
Proof.
  induction files as [| x pre IH] using rev_ind; intros Hin; [contradiction |].
  rewrite fold_left_app. cbn [fold_left].
  destruct (String.eqb (name x) (name f)) eqn:E.
  - apply String.eqb_eq in E. rewrite E. intros fs Hfs Hn.
    destruct (updateFileState_same _ _ _ fs Hfs Hn) as (fs0 & _ & _ & ->). now exists fs0.
  - apply String.eqb_neq in E. apply updateFileState_other; [exact E |].
    apply IH. apply List.in_app_or in Hin. destruct Hin as [H | [H | []]]; [exact H |].
    subst x. contradiction.
Qed.

Lemma fold_update_other (u : Updates) files s n (Q : IFileState -> Prop) :
  ~ In n (names files) ->
  (forall fs, In fs (fileStates s) -> named n fs -> Q fs) ->
  forall fs,
    In fs (fileStates (fold_left (fun s' x => updateFileState (name x) u s') files s)) ->
    named n fs -> Q fs.
Proof.
  revert s. induction files as [| x files IH]; intros s Hn H; cbn; [exact H |].
  apply IH.
  - intros C. apply Hn. now right.
  - apply updateFileState_other; [| exact H]. intros C. apply Hn. now left.
Qed.


Ltac solve_named :=
  let fs := fresh "fs" in let Hin := fresh "Hin" in let Hn := fresh "Hn" in
  let fs0 := fresh "fs0" in
  intros fs Hin Hn;
  destruct (updateFileState_same _ _ _ fs Hin Hn) as (fs0 & _ & _ & ->);
  split; reflexivity.

Ltac solve_other :=
  let n := fresh "n" in let Q := fresh "Q" in let Hne := fresh "Hne" in
  let H := fresh "H" in
  intros n Q Hne H;
  repeat (apply updateFileState_other; [congruence |]); exact H.

Lemma uploadFirst_spec props w f0 s :
  let s1 := runTicks (name f0) (ticks (w_upload w f0))
              (startProgressSimulation (name f0) s) in
  let o := uploadFirst props w f0 s in
  match flightResult w f0 with
  | Some b =>
      (exists r, out_completion o = Returned [r]
                 /\ r_fileName r = name f0 /\ r_success r = b)
      /\ (forall fs, In fs (fileStates (out_state o)) -> named (name f0) fs ->
            progress fs = (if b then 100 else 0)
            /\ status fs = (if b then completed else failed))
  | None =>
      out_completion o = StillPending /\ out_state o = s1
  end
  /\ (forall n (Q : IFileState -> Prop), n <> name f0 ->
        (forall fs, In fs (fileStates s1) -> named n fs -> Q fs) ->
        forall fs, In fs (fileStates (out_state o)) -> named n fs -> Q fs).
Proof.
  intros s1 o. subst o. unfold flightResult, uploadFirst, postFile, readAsBase64.
  fold s1.
  destruct (content f0) as [d | | m]; [destruct (String.eqb d "") |..];
    [| destruct (uploadOutcome (w_upload w f0)) as [[code text js] | m |] |..]; run.
  2: destruct (ok _); run; [destruct js as [[succ u e r] | m]; run; [destruct succ; run |] |].
  all: try (split; [split; [eexists; split; [reflexivity | split; reflexivity]
                           | solve_named]
                   | solve_other]).
  split; [split; reflexivity |]. intros n Q Hne H. exact H.
Qed.


Lemma uploadOne_spec props w f s :
  let s1 := runTicks (name f) (ticks (w_upload w f))
              (startProgressSimulation (name f) s) in
  let o := uploadOne props w f s in
  match flightResult w f with
  | Some b => exists r, out_completion o = Returned r /\ resultOf w f r /\ r_success r = b
  | None => out_completion o = StillPending /\ out_state o = s1
  end
  /\ out_trace o = uploadFetches props f
  /\ (forall n (Q : IFileState -> Prop), n <> name f ->
        (forall fs, In fs (fileStates s1) -> named n fs -> Q fs) ->
        forall fs, In fs (fileStates (out_state o)) -> named n fs -> Q fs).
Proof.
  intros s1 o. subst o.
  unfold resultOf, flightResult, uploadFetches, uploadOne, postFile, readAsBase64.
  fold s1.
  destruct (content f) as [d | | m]; [destruct (String.eqb d "") |..];
    [| destruct (uploadOutcome (w_upload w f)) as [[code text js] | m |] |..]; run.
  2: destruct (ok _) eqn:Hok; run;
       [destruct js as [[succ u e r] | m]; run; [destruct succ; run |] |].
  all: try (split; [eexists; split; [reflexivity | split; [split; reflexivity | reflexivity]]
                   | split; [reflexivity | solve_other]]).
  split; [split; reflexivity |]. split; [reflexivity |]. intros n Q Hne H. exact H.
Qed.

Lemma uploadEach_returned props w files :
  forall acc s results,
    out_completion (uploadEach props w files acc s) = Returned results ->
    exists rs, results = acc ++ rs /\ Forall2 (resultOf w) files rs.
Proof.
  induction files as [| f files IH]; intros acc s results H.
  - cbn in H. injection H as <-. exists []. split; [now rewrite app_nil_r | constructor].
  - cbn [uploadEach] in H. rewrite bind_run in H.
    destruct (uploadOne_spec props w f s) as (Hc & _).
    destruct (flightResult w f) as [b |].
    + destruct Hc as (r & Hr & Hof & _). rewrite Hr in H. cbn in H.
      apply IH in H. destruct H as (rs & -> & Hall).
      exists (r :: rs). split; [now rewrite <- app_assoc | now constructor].
    + destruct Hc as (Hp & _). rewrite Hp in H. discriminate.
Qed.



Lemma Forall2_resultOf_names w files results :
  Forall2 (resultOf w) files results -> List.map r_fileName results = names files.
Proof.
  induction 1 as [| f r files results [Hn _] _ IH]; cbn; [reflexivity |].
  now rewrite Hn, IH.
Qed.


(** The multiple-file branch, once it returns. *)
Lemma uploadToCloudFlow_multi props w files s results :
  isCloudFlowConfigured props = true ->
  buttonAllowMultipleFiles props = true ->
  out_completion (uploadToCloudFlow props w files s) = Returned results ->
  Forall2 (resultOf w) files results
  /\ exists s1,
       out_state (uploadToCloudFlow props w files s) =
         fold_left (fun s' r => updateFileState (r_fileName r) (resultUpdates r) s')
           results s1.
Proof.
  intros Hc Hm. unfold uploadToCloudFlow. rewrite Hc, Hm. cbn [negb].
  rewrite bind_run, markUploading_run. cbn [out_completion out_state out_trace].
  rewrite bind_run.
  destruct (out_completion (uploadEach props w files [] _)) as [rs | e |] eqn:E;
    cbn [out_completion out_state out_trace]; try discriminate.
  rewrite bind_run, forEach_modify_state. cbn. intros H. injection H as <-.
  apply uploadEach_returned in E. destruct E as (rs' & Heq & Hall). cbn in Heq. subst rs'.
  split; [exact Hall |]. eexists. reflexivity.
Qed.

(** The single-file branch. *)
Lemma uploadToCloudFlow_single props w f0 rest s :
  isCloudFlowConfigured props = true ->
  buttonAllowMultipleFiles props = false ->
  uploadToCloudFlow props w (f0 :: rest) s =
    uploadFirst props w f0 (out_state (markUploading (f0 :: rest) s)).
Proof.
  intros Hc Hm. unfold uploadToCloudFlow. rewrite Hc, Hm. cbn [negb].
  rewrite bind_run, markUploading_run. cbn [out_completion out_state out_trace].
  destruct (uploadFirst props w f0 _); reflexivity.
Qed.







(** ** The entries under updates by name *)

Lemma map_file_update n u l :
  List.map file
    (List.map (fun fs => if String.eqb (name (file fs)) n then applyUpdates u fs else fs) l)
  = List.map file l.
Proof.
  rewrite List.map_map. apply List.map_ext. intros fs.
  destruct (String.eqb _ _); reflexivity.
Qed.

Lemma applyUpdates_twice u fs : applyUpdates u (applyUpdates u fs) = applyUpdates u fs.
Proof.
  destruct u as [[p |] [st |] [v |] [e |]]; reflexivity.
Qed.

Lemma fileStates_fold_update u files s :
  fileStates (fold_left (fun s' f => updateFileState (name f) u s') files s) =
    updatedEntries u files (fileStates s).
Proof.
  unfold updatedEntries. revert s.
  induction files as [| f files IH]; intros s; cbn; [reflexivity |].
  now rewrite IH.
Qed.

Lemma updatedEntries_files u files l :
  List.map file (updatedEntries u files l) = List.map file l.
Proof.
  unfold updatedEntries. revert l.
  induction files as [| f files IH]; intros l; cbn; [reflexivity |].
  now rewrite IH, map_file_update.
Qed.

(** A [forEach] of the same update over files changes exactly the entries
    named like one of them. *)
Lemma updatedEntries_map u files l :
  updatedEntries u files l =
    List.map (fun fs => if namedIn files fs then applyUpdates u fs else fs) l.
Proof.
  unfold updatedEntries. revert l.
  induction files as [| f files IH]; intros l; cbn [fold_left].
  - unfold namedIn. cbn. now rewrite List.map_id.
  - rewrite IH, List.map_map. apply List.map_ext. intros fs.
    unfold namedIn. cbn [List.existsb].
    destruct (String.eqb (name (file fs)) (name f)) eqn:E; cbn [orb file applyUpdates].
    + destruct (List.existsb _ files); [apply applyUpdates_twice | reflexivity].
    + reflexivity.
Qed.







(** ** Single-file mode with several files *)



Example single_mode_two_files :
  let a := Sample.pdf "a.pdf" 1 in
  let b := Sample.pdf "b.pdf" 2 in
  let o := uploadToCloudFlow Sample.remoteProps (Sample.world [] Sample.emptyList)
             [a; b] (Sample.offered [a; b]) in
  List.map status (fileStates (out_state o)) = [completed; uploading]
  /\ List.map r_fileName
       (match out_completion o with Returned rs => rs | _ => [] end) = ["a.pdf"].
Proof. vm_compute. split; reflexivity. Qed.

(** ** Frame rules of the monad *)

Section Frame.

Context {X : Type} (proj : St -> X) (R : X -> X -> Prop).
Context (R_refl : forall x, R x x) (R_trans : forall x y z, R x y -> R y z -> R x z).

Lemma respects_ret {A} (a : A) : respects proj R (ret a).
Proof. intros s. apply R_refl. Qed.

Lemma respects_throw {A} e : respects proj R (@throw A e).
Proof. intros s. apply R_refl. Qed.

Lemma respects_never {A} : respects proj R (@never A).
Proof. intros s. apply R_refl. Qed.

Lemma respects_effect e : respects proj R (effect e).
Proof. intros s. apply R_refl. Qed.

Lemma respects_get : respects proj R get.
Proof. intros s. apply R_refl. Qed.

Lemma respects_modify f :
  (forall s, R (proj s) (proj (f s))) -> respects proj R (modify f).
Proof. intros H s. apply H. Qed.

Lemma respects_modify_eq f :
  (forall s, proj (f s) = proj s) -> respects proj R (modify f).
Proof. intros H s. cbn. rewrite H. apply R_refl. Qed.

Lemma respects_bind {A B} (m : M A) (k : A -> M B) :
  respects proj R m -> (forall a, respects proj R (k a)) -> respects proj R (bind m k).
Proof.
  intros Hm Hk s. rewrite bind_run. specialize (Hm s).
  destruct (out_completion (m s)) as [a | e |]; cbn; [| exact Hm | exact Hm].
  exact (R_trans _ _ _ Hm (Hk a _)).
Qed.

Lemma respects_tryCatch {A} (m : M A) h :
  respects proj R m -> (forall e, respects proj R (h e)) -> respects proj R (tryCatch m h).
Proof.
  intros Hm Hh s. unfold tryCatch. specialize (Hm s).
  destruct (m s) as [s1 t1 [a | e |]]; cbn in *; try exact Hm.
  specialize (Hh e s1). destruct (h e s1) as [s2 t2 c]; cbn in *.
  exact (R_trans _ _ _ Hm Hh).
Qed.

Lemma respects_tryFinally {A} (m : M A) f :
  respects proj R m -> respects proj R f -> respects proj R (tryFinally m f).
Proof.
  intros Hm Hf s. unfold tryFinally. specialize (Hm s).
  destruct (m s) as [s1 t1 [a | e |]]; cbn in *; try exact Hm;
    specialize (Hf s1); destruct (f s1) as [s2 t2 [[] | e2 |]]; cbn in *;
    exact (R_trans _ _ _ Hm Hf).
Qed.

Lemma respects_forEach {A} (xs : list A) f :
  (forall x, respects proj R (f x)) -> respects proj R (forEach xs f).
Proof.
  intros H. induction xs as [| x xs IH]; cbn.
  - apply respects_ret.
  - apply respects_bind; [apply H | intros _; exact IH].
Qed.

Lemma respects_when b m : respects proj R m -> respects proj R (when b m).
Proof. intros H. destruct b; [exact H | apply respects_ret]. Qed.

Lemma respects_fetch {B} url request (o : FetchOutcome B) :
  respects proj R (fetch url request o).
Proof.
  unfold fetch. apply respects_bind; [apply respects_effect | intros _].
  destruct o; [apply respects_ret | apply respects_throw | apply respects_never].
Qed.

Lemma respects_parseJson {B} (r : Response B) : respects proj R (parseJson r).
Proof. unfold parseJson. destruct (json r); [apply respects_ret | apply respects_throw]. Qed.

Lemma respects_promiseAll {A} (tasks : list (M A)) :
  Forall (respects proj R) tasks -> respects proj R (promiseAll tasks).
Proof.
  induction 1 as [| m rest Hm _ IH]; intros s; cbn; [apply R_refl |].
  specialize (Hm s). destruct (m s) as [s1 t1 c1]. cbn in Hm.
  specialize (IH s1). destruct (promiseAll rest s1) as [s2 t2 c2]. cbn in *.
  exact (R_trans _ _ _ Hm IH).
Qed.

Lemma preserves_respects {A} (m : M A) : preserves proj m -> respects proj R m.
Proof. intros H s. rewrite <- (H s). apply R_refl. Qed.

End Frame.

Lemma extends_refl c : extends c c.
Proof. exists []. now rewrite app_nil_r. Qed.

Lemma extends_trans c1 c2 c3 : extends c1 c2 -> extends c2 c3 -> extends c1 c3.
Proof. intros [a ->] [b ->]. exists (a ++ b). now rewrite app_assoc. Qed.

Lemma eq_trans' {X} (x y z : X) : x = y -> y = z -> x = z.
Proof. congruence. Qed.

(** Decomposes a handler along its structure; what is left are the state
    updates that touch the component. *)
Ltac frame_rel :=
  first [ exact (@eq_refl _) | exact extends_refl
        | exact (@eq_trans' _) | exact extends_trans ].

Ltac frame_step :=
  lazymatch goal with
  | |- respects _ _ (ret _) => apply respects_ret; frame_rel
  | |- respects _ _ (throw _) => apply respects_throw; frame_rel
  | |- respects _ _ never => apply respects_never; frame_rel
  | |- respects _ _ (effect _) => apply respects_effect; frame_rel
  | |- respects _ _ get => apply respects_get; frame_rel
  | |- respects _ _ (fetch _ _ _) => apply respects_fetch; frame_rel
  | |- respects _ _ (parseJson _) => apply respects_parseJson; frame_rel
  | |- respects _ _ (bind _ _) => apply respects_bind; [frame_rel | | intros ?]
  | |- respects _ _ (tryCatch _ _) => apply respects_tryCatch; [frame_rel | | intros ?]
  | |- respects _ _ (tryFinally _ _) => apply respects_tryFinally; [frame_rel | |]
  | |- respects _ _ (forEach _ _) => apply respects_forEach; [frame_rel | frame_rel | intros ?]
  | |- respects _ _ (when _ _) => apply respects_when; [frame_rel |]
  | |- respects _ _ (modify _) =>
      apply respects_modify_eq; [frame_rel | intros ?; reflexivity]
  | |- respects _ _ (if ?b then _ else _) => destruct b
  | |- respects _ _ (match ?x with _ => _ end) => destruct x
  end.
Ltac frame := repeat frame_step.

Lemma cumulative_tick n r s :
  cumulativeFilesJSON (tick n r s) = cumulativeFilesJSON s.
Proof. destruct (tick_cases n r s) as [[_ ->] | (sim & _ & ->)]; reflexivity. Qed.

Lemma cumulative_runTicks n rs s :
  cumulativeFilesJSON (runTicks n rs s) = cumulativeFilesJSON s.
Proof.
  unfold runTicks. revert s. induction rs as [| r rs IH]; intros s; cbn; [reflexivity |].
  now rewrite IH, cumulative_tick.
Qed.

Lemma preserves_cumulative_loadExistingFilesWith props w b meanwhile :
  preserves cumulativeFilesJSON meanwhile ->
  preserves cumulativeFilesJSON (loadExistingFilesWith props w b meanwhile).
Proof. intros H. unfold loadExistingFilesWith. frame; exact H. Qed.

Lemma preserves_cumulative_postFile props w f :
  preserves cumulativeFilesJSON (postFile props w f).
Proof. unfold postFile, readAsBase64. frame. Qed.

Lemma preserves_cumulative_uploadOne props w f :
  preserves cumulativeFilesJSON (uploadOne props w f).
Proof.
  unfold uploadOne. frame; try apply preserves_cumulative_postFile;
    apply respects_modify_eq; [frame_rel | intros s; apply cumulative_runTicks].
Qed.

Lemma preserves_cumulative_uploadFirst props w f :
  preserves cumulativeFilesJSON (uploadFirst props w f).
Proof.
  unfold uploadFirst. frame; try apply preserves_cumulative_postFile;
    apply respects_modify_eq; [frame_rel | intros s; apply cumulative_runTicks].
Qed.

Lemma preserves_cumulative_uploadEach props w files :
  forall acc, preserves cumulativeFilesJSON (uploadEach props w files acc).
Proof.
  induction files as [| f files IH]; intros acc; cbn [uploadEach].
  - apply respects_ret; frame_rel.
  - apply respects_bind; [frame_rel | apply preserves_cumulative_uploadOne | intros r; apply IH].
Qed.

Lemma preserves_cumulative_uploadToCloudFlow props w files :
  preserves cumulativeFilesJSON (uploadToCloudFlow props w files).
Proof.
  unfold uploadToCloudFlow, markUploading. frame.
  - apply preserves_cumulative_uploadEach.
  - apply preserves_cumulative_uploadFirst.
Qed.

Lemma preserves_cumulative_processRemote props w b files :
  preserves cumulativeFilesJSON (processRemote props w b files).
Proof.
  unfold processRemote. frame.
  - apply preserves_cumulative_uploadToCloudFlow.
  - unfold loadExistingFilesFrom.
    apply preserves_cumulative_loadExistingFilesWith. apply respects_ret; frame_rel.
Qed.

Lemma preserves_cumulative_processFailed files e :
  preserves cumulativeFilesJSON (processFailed files e).
Proof. unfold processFailed, stopAll, markFailed. frame. Qed.

(** ** The local JSON path *)

Lemma promiseAll_cons {A} (m : M A) rest s :
  promiseAll (m :: rest) s =
    match m s with
    | mkOutcome s1 t1 c1 =>
        match promiseAll rest s1 with
        | mkOutcome s2 t2 c2 =>
            mkOutcome s2 (t1 ++ t2)
              (match c1, c2 with
               | Thrown e, _ => Thrown e
               | Returned _, Thrown e => Thrown e
               | Returned a, Returned l => Returned (a :: l)
               | Returned _, StillPending => StillPending
               | StillPending, Thrown e => Thrown e
               | StillPending, _ => StillPending
               end)
        end
    end.
Proof. reflexivity. Qed.

Lemma readTask_run f s :
  readTask f s =
    if readsForJSON f then mkOutcome s [] (Returned (batchEntry f))
    else mkOutcome s [ConsoleError ("Error reading file: " +:+ name f)] (Thrown NullValue).
Proof.
  unfold readTask, readFile, readsForJSON, batchEntry.
  destruct (content f); reflexivity.
Qed.

(** What [processFilesAsJSON] does, file by file. *)
Lemma processFilesAsJSON_run files s :
  out_state (processFilesAsJSON files s) = s
  /\ List.existsb isFetch (out_trace (processFilesAsJSON files s)) = false
  /\ (List.forallb readsForJSON files = true ->
      processFilesAsJSON files s = mkOutcome s [] (Returned (List.map batchEntry files)))
  /\ (List.forallb readsForJSON files = false ->
      out_completion (processFilesAsJSON files s) = Thrown NullValue).
Proof.
  unfold processFilesAsJSON.
  induction files as [| f files IH]; cbn [List.map List.forallb].
  - cbn. repeat split; try reflexivity. discriminate.
  - rewrite promiseAll_cons, readTask_run. destruct IH as (Hs & Ht & Hok & Hfail).
    destruct (readsForJSON f); cbv beta iota; cbn [andb];
      destruct (promiseAll (List.map readTask files) s) as [s2 t2 c2];
      cbn in Hs, Ht, Hfail; subst s2; cbn [out_state out_trace out_completion app].
    + split; [reflexivity |]. split; [exact Ht |]. split.
      * intros H. specialize (Hok H). injection Hok as -> ->. reflexivity.
      * intros H. now rewrite (Hfail H).
    + split; [reflexivity |]. split; [exact Ht |]. split; [discriminate | reflexivity].
Qed.

Lemma cumulative_fold_update u files s :
  cumulativeFilesJSON (fold_left (fun s' f => updateFileState (name f) u s') files s) =
    cumulativeFilesJSON s.
Proof.
  revert s. induction files as [| f files IH]; intros s; cbn; [reflexivity |].
  now rewrite IH.
Qed.

Lemma markCompleted_run files s :
  markCompleted files s =
    mkOutcome
      (fold_left (fun s' f =>
         updateFileState (name f) (mkUpdates (Some 100) (Some completed) None None) s')
         files s)
      [] (Returned tt).
Proof. unfold markCompleted. apply forEach_modify_state. Qed.

Lemma markFailed_run files message s :
  markFailed files message s =
    mkOutcome
      (fold_left (fun s' f =>
         updateFileState (name f)
           (mkUpdates (Some 0) (Some failed) None (Some (Some message))) s')
         files s)
      [] (Returned tt).
Proof. unfold markFailed. apply forEach_modify_state. Qed.

Lemma stopAll_run files s :
  stopAll files s =
    mkOutcome (fold_left (fun s' f => stopProgressSimulation (name f) s') files s)
      [] (Returned tt).
Proof. unfold stopAll. apply (forEach_modify_state files (fun f => stopProgressSimulation (name f))). Qed.

Lemma fileStates_fold_stop files s :
  fileStates (fold_left (fun s' f => stopProgressSimulation (name f) s') files s) =
    fileStates s.
Proof.
  revert s. induction files as [| f files IH]; intros s; cbn; [reflexivity |].
  now rewrite IH.
Qed.

Lemma cumulative_fold_stop files s :
  cumulativeFilesJSON (fold_left (fun s' f => stopProgressSimulation (name f) s') files s) =
    cumulativeFilesJSON s.
Proof.
  revert s. induction files as [| f files IH]; intros s; cbn; [reflexivity |].
  now rewrite IH.
Qed.

(** The JSON branch when every file can be read. *)
Lemma processFiles_local_ok props w files s :
  isCloudFlowConfigured props = false ->
  files <> [] ->
  List.forallb readsForJSON files = true ->
  let batch := List.map batchEntry files in
  let o := processFiles props w files s in
  out_completion o = Returned tt
  /\ out_trace o =
       [OnEvent (mkEvent
          (Some (JsonBatch (if recordUidIsEmpty props
                            then cumulativeFilesJSON s ++ batch else batch)))
          None None (Some Completed) None)]
  /\ cumulativeFilesJSON (out_state o) =
       (if recordUidIsEmpty props then cumulativeFilesJSON s ++ batch
        else cumulativeFilesJSON s)
  /\ fileStates (out_state o) =
       (if recordUidIsEmpty props then markedCompleted files (fileStates s)
        else withoutFiles files (markedCompleted files (fileStates s))).
Proof.
  intros Hc Hne Hread. destruct files as [| f files]; [contradiction |].
  cbv zeta. unfold processFiles. rewrite Hc. unfold processLocal, markedCompleted, withoutFiles.
  destruct (buttonShowActionSpinner props); run;
    rewrite (proj1 (proj2 (proj2 (processFilesAsJSON_run (f :: files) _))) Hread); run;
    rewrite markCompleted_run; run;
    destruct (recordUidIsEmpty props); run;
    rewrite ?fileStates_fold_update, ?cumulative_fold_update;
    repeat split; reflexivity.
Qed.

(** The JSON branch when a file cannot be read: the [catch] block. *)
Lemma processFiles_local_fail props w files s :
  isCloudFlowConfigured props = false ->
  List.forallb readsForJSON files = false ->
  let o := processFiles props w files s in
  out_completion o = Returned tt
  /\ lastStatus (out_trace o) = Some Failed
  /\ List.existsb isFetch (out_trace o) = false
  /\ cumulativeFilesJSON (out_state o) = cumulativeFilesJSON s
  /\ fileStates (out_state o) =
       updatedEntries (mkUpdates (Some 0) (Some failed) None (Some (Some "null")))
         files (fileStates s).
Proof.
  intros Hc Hread. destruct files as [| f files]; [discriminate |].
  cbv zeta. unfold processFiles. rewrite Hc. unfold processLocal, processFailed.
  destruct (buttonShowActionSpinner props); run.
  all: match goal with
       | |- context [processFilesAsJSON ?l ?s0] =>
           destruct (processFilesAsJSON_run l s0) as (Hs & Ht & _ & Hfail);
           specialize (Hfail Hread);
           destruct (processFilesAsJSON l s0) as [s2 t2 c2];
           cbn in Hs, Ht, Hfail; subst s2 c2
       end; run.
  all: rewrite stopAll_run; run; rewrite markFailed_run; run.
  all: rewrite ?fileStates_fold_update, ?cumulative_fold_update,
         ?fileStates_fold_stop, ?cumulative_fold_stop.
  all: repeat split; try reflexivity.
  all: try (unfold lastStatus; rewrite fold_left_app; reflexivity).
  all: rewrite List.existsb_app, Ht; reflexivity.
Qed.

Lemma prerequisiteMissing_not_configured props :
  prerequisiteMissing props -> isCloudFlowConfigured props = false.
Proof.
  unfold prerequisiteMissing, isCloudFlowConfigured.
  intros [H | [H | [H | [H | [H | H]]]]]; rewrite H;
    repeat (rewrite ?andb_false_r, ?andb_false_l); reflexivity.
Qed.

Lemma recordUidIsEmpty_not_configured props :
  recordUidIsEmpty props = true -> isCloudFlowConfigured props = false.
Proof.
  unfold recordUidIsEmpty, isCloudFlowConfigured. intros H.
  destruct (truthy (recordUid props)); [| reflexivity].
  cbn in H. rewrite H. reflexivity.
Qed.

Lemma processFiles_local_no_fetch props w files s :
  isCloudFlowConfigured props = false ->
  List.existsb isFetch (out_trace (processFiles props w files s)) = false.
Proof.
  intros Hc. destruct files as [| f files]; [reflexivity |].
  destruct (List.forallb readsForJSON (f :: files)) eqn:Hread.
  - destruct (processFiles_local_ok props w (f :: files) s Hc) as (_ & Ht & _);
      [discriminate | exact Hread |].
    rewrite Ht. reflexivity.
  - exact (proj1 (proj2 (proj2 (processFiles_local_fail props w (f :: files) s Hc Hread)))).
Qed.

Lemma updatedEntries_named u files l f :
  In f files ->
  forall fs, In fs (updatedEntries u files l) -> named (name f) fs ->
    exists fs0, fs = applyUpdates u fs0.
Proof.
  intros Hin fs Hfs Hn.
  pose (s := mkSt l [] [] [] (mkAdminConfig 0 "") Initial false false false ∅).
  apply (fold_update_named u files s f Hin fs); [| exact Hn].
  rewrite fileStates_fold_update. exact Hfs.
Qed.

Lemma processFilesAsJSON_reported files s :
  reportedFiles (out_trace (processFilesAsJSON files s)) = [].
Proof.
  unfold processFilesAsJSON.
  induction files as [| f files IH]; cbn [List.map]; [reflexivity |].
  rewrite promiseAll_cons, readTask_run.
  destruct (readsForJSON f); cbv beta iota;
    destruct (promiseAll (List.map readTask files) s) as [s2 t2 c2];
    cbn [out_trace app] in *; exact IH.
Qed.

(** The [catch] block sends the status and a made-up result, no payload. *)
Lemma processFiles_local_fail_reported props w files s :
  isCloudFlowConfigured props = false ->
  List.forallb readsForJSON files = false ->
  reportedFiles (out_trace (processFiles props w files s)) = [].
Proof.
  intros Hc Hread. destruct files as [| f files]; [discriminate |].
  unfold processFiles. rewrite Hc. unfold processLocal, processFailed.
  destruct (buttonShowActionSpinner props); run.
  all: match goal with
       | |- context [processFilesAsJSON ?l ?s0] =>
           pose proof (processFilesAsJSON_reported l s0) as Hrep;
           destruct (processFilesAsJSON_run l s0) as (Hs & _ & _ & Hfail);
           specialize (Hfail Hread);
           destruct (processFilesAsJSON l s0) as [s2 t2 c2];
           cbn in Hs, Hrep, Hfail; subst s2 c2
       end; run.
  all: rewrite stopAll_run; run; rewrite markFailed_run; run.
  all: unfold reportedFiles in *; rewrite List.flat_map_app, Hrep; reflexivity.
Qed.

(** C9 (as amended). When one of the prerequisites of the remote mode (the
    four endpoint URLs, the container path, the record identity) is absent
    or empty, [isCloudFlowConfigured] is false and [processFiles] takes the
    local path: it returns without a network call. Given a non-empty list
    of files that can all be read, it marks exactly the entries named like
    a processed file [completed] with progress 100 and emits one event that
    carries the JSON payload and the status [Completed] (with a record
    identity bound the marked entries are then taken off the list). When a
    file of the list cannot be read, no payload is emitted: the entries
    named like a file of the list, the readable ones included, are marked
    [failed] with progress 0 and the status reported is [Failed]. On an
    empty list nothing happens. *)
Theorem C9_missing_prerequisite_routes_to_local_json :
  forall (props : Props) (w : World) (files : list File) (s : St),
    prerequisiteMissing props ->
    let o := processFiles props w files s in
    isCloudFlowConfigured props = false
    /\ List.existsb isFetch (out_trace o) = false
    /\ out_completion o = Returned tt
    /\ (files = [] -> out_state o = s /\ out_trace o = [])
    /\ (files <> [] ->
        List.forallb readsForJSON files = true ->
        out_trace o =
          [OnEvent (mkEvent
             (Some (JsonBatch
                (if recordUidIsEmpty props
                 then cumulativeFilesJSON s ++ List.map batchEntry files
                 else List.map batchEntry files)))
             None None (Some Completed) None)]
        /\ markedCompleted files (fileStates s) =
             List.map (fun fs =>
                         if namedIn files fs
                         then applyUpdates
                                (mkUpdates (Some 100) (Some completed) None None) fs
                         else fs) (fileStates s)
        /\ (forall f fs,
              In f files -> In fs (markedCompleted files (fileStates s)) ->
              named (name f) fs -> status fs = completed /\ progress fs = 100)
        /\ fileStates (out_state o) =
             (if recordUidIsEmpty props then markedCompleted files (fileStates s)
              else withoutFiles files (markedCompleted files (fileStates s))))
    /\ (List.forallb readsForJSON files = false ->
        lastStatus (out_trace o) = Some Failed
        /\ reportedFiles (out_trace o) = []
        /\ fileStates (out_state o) =
             List.map (fun fs =>
                         if namedIn files fs
                         then applyUpdates
                                (mkUpdates (Some 0) (Some failed) None (Some (Some "null")))
                                fs
                         else fs) (fileStates s)).
Proof.
  intros props w files s Hmiss o.
  pose proof (prerequisiteMissing_not_configured props Hmiss) as Hc.
  split; [exact Hc |]. split; [now apply processFiles_local_no_fetch |].
  split; [| split; [| split]].
  - subst o. destruct files as [| f files]; [reflexivity |].
    destruct (List.forallb readsForJSON (f :: files)) eqn:Hread.
    + apply (processFiles_local_ok props w (f :: files) s Hc); [discriminate | exact Hread].
    + apply (processFiles_local_fail props w (f :: files) s Hc Hread).
  - intros ->. split; reflexivity.
  - intros Hne Hread.
    destruct (processFiles_local_ok props w files s Hc Hne Hread) as (_ & Ht & _ & Hfs).
    split; [exact Ht |]. split; [apply updatedEntries_map |]. split; [| exact Hfs].
    intros f fs Hin Hfs' Hn.
    destruct (updatedEntries_named _ files (fileStates s) f Hin fs Hfs' Hn) as (fs0 & ->).
    split; reflexivity.
  - intros Hread.
    destruct (processFiles_local_fail props w files s Hc Hread) as (_ & Hl & _ & _ & Hfs).
    split; [exact Hl |]. split; [now apply processFiles_local_fail_reported |].
    fold o in Hfs. rewrite Hfs. apply updatedEntries_map.
Qed.

(** Two readable files, nothing configured: both are marked completed, one
    event, no request. *)
Lemma C9_missing_prerequisite_routes_to_local_json_witness :
  let a := Sample.pdf "a.pdf" 1 in
  let b := Sample.pdf "b.pdf" 2 in
  let o := processFiles Sample.localProps (Sample.silentWorld []) [a; b]
             (Sample.offered [a; b]) in
  List.existsb isFetch (out_trace o) = false
  /\ out_completion o = Returned tt
  /\ fileStates (out_state o) =
       markedCompleted [a; b] (fileStates (Sample.offered [a; b])).
Proof.
  intros a b o.
  pose proof (C9_missing_prerequisite_routes_to_local_json Sample.localProps
                (Sample.silentWorld []) [a; b] (Sample.offered [a; b])
                (or_introl eq_refl)) as H.
  cbv zeta in H. destruct H as (_ & Hnf & Hret & _ & H & _).
  split; [exact Hnf |]. split; [exact Hret |].
  assert (Hne : [a; b] <> []) by discriminate.
  destruct (H Hne eq_refl) as (_ & _ & _ & Hfs). exact Hfs.
Defined.

(** A prerequisite is missing and one of the two files cannot be read:
    the local path marks neither file [completed] and emits no JSON
    payload; both entries end [failed] with progress 0. *)
Lemma C9_counterexample :
  let a := Sample.pdf "a.pdf" 1 in
  let b := Sample.unreadable "b.pdf" in
  let o := processFiles Sample.localProps (Sample.silentWorld []) [a; b]
             (Sample.offered [a; b]) in
  isCloudFlowConfigured Sample.localProps = false
  /\ out_completion o = Returned tt
  /\ List.map status (fileStates (out_state o)) = [failed; failed]
  /\ List.map progress (fileStates (out_state o)) = [0; 0]
  /\ reportedFiles (out_trace o) = []
  /\ lastStatus (out_trace o) = Some Failed.
Proof. vm_compute. repeat split; reflexivity. Qed.

Example local_mode_marks_completed :
  let a := Sample.pdf "a.pdf" 1 in
  let o := processFiles Sample.localProps (Sample.silentWorld []) [a]
             (Sample.offered [a]) in
  List.map status (fileStates (out_state o)) = [completed]
  /\ List.map progress (fileStates (out_state o)) = [100]
  /\ lastStatus (out_trace o) = Some Completed.
Proof. vm_compute. repeat split; reflexivity. Qed.

Example local_mode_read_failure :
  let a := Sample.unreadable "a.pdf" in
  let o := processFiles Sample.localProps (Sample.silentWorld []) [a]
             (Sample.offered [a]) in
  List.map status (fileStates (out_state o)) = [failed]
  /\ lastStatus (out_trace o) = Some Failed
  /\ List.existsb isFetch (out_trace o) = false.
Proof. vm_compute. repeat split; reflexivity. Qed.

(** ** The cumulative batch *)

Lemma succeeded_local props w files s :
  isCloudFlowConfigured props = false ->
  succeeded (processFiles props w files s) ->
  files <> [] /\ List.forallb readsForJSON files = true.
Proof.
  intros Hc [_ Hlast]. destruct files as [| f files]; [discriminate |].
  split; [discriminate |].
  destruct (List.forallb readsForJSON (f :: files)) eqn:Hread; [reflexivity |].
  rewrite (proj1 (proj2 (processFiles_local_fail props w (f :: files) s Hc Hread))) in Hlast.
  discriminate.
Qed.

Lemma respects_extends_processLocal props c files :
  respects cumulativeFilesJSON extends (processLocal props c files).
Proof.
  unfold processLocal, markCompleted. frame.
  - intros s. rewrite (proj1 (processFilesAsJSON_run files s)). apply extends_refl.
  - apply respects_modify. intros s. eexists. reflexivity.
Qed.

Lemma respects_extends_processFiles props w files :
  respects cumulativeFilesJSON extends (processFiles props w files).
Proof.
  unfold processFiles. frame.
  - apply preserves_respects; [exact extends_refl |].
    apply preserves_cumulative_processRemote.
  - apply respects_extends_processLocal.
  - apply preserves_respects; [exact extends_refl |].
    apply preserves_cumulative_processFailed.
Qed.

Lemma respects_extends_step props a :
  clearsBatch a = false ->
  respects cumulativeFilesJSON extends (step props a).
Proof.
  destruct a; cbn [clearsBatch]; intros H; try discriminate; cbn [step].
  - apply respects_modify_eq; [exact extends_refl | reflexivity].
  - unfold handleUploadAll. frame. apply respects_extends_processFiles.
  - apply respects_extends_processFiles.
  - unfold loadExistingFiles, loadExistingFilesFrom. frame.
    apply preserves_respects; [exact extends_refl |].
    apply preserves_cumulative_loadExistingFilesWith. apply respects_ret. reflexivity.
  - unfold handleDeleteExistingFile, loadExistingFilesFrom. frame.
    apply preserves_respects; [exact extends_refl |].
    apply preserves_cumulative_loadExistingFilesWith. apply respects_ret. reflexivity.
  - unfold handleViewExistingFile. frame.
  - apply respects_modify_eq; [exact extends_refl | intros s; apply cumulative_tick].
  - apply respects_modify_eq; [exact extends_refl | reflexivity].
  - apply respects_modify_eq; [exact extends_refl | reflexivity].
  - apply respects_modify_eq; [exact extends_refl | reflexivity].
Qed.

(** C7. With no record identity bound, two successive calls of
    [processFiles] that the component reports as completed leave a
    cumulative batch made of the batch before the first call, then one entry
    per file of the first call, then one entry per file of the second call:
    its length grows by the number of files passed across both calls (and is
    that number when the batch was empty before), and the second call
    reports the whole batch outward. Whatever the configuration, an
    operation other than [removeFile], [clearNewFiles] and the context
    change only appends to the batch. *)
Theorem C7_cumulative_batch_accumulates :
  (forall (props : Props) (w1 w2 : World) (files1 files2 : list File) (s : St),
      recordUidIsEmpty props = true ->
      let o1 := processFiles props w1 files1 s in
      let o2 := processFiles props w2 files2 (out_state o1) in
      succeeded o1 -> succeeded o2 ->
      cumulativeFilesJSON (out_state o2) =
        cumulativeFilesJSON s ++ List.map batchEntry files1 ++ List.map batchEntry files2
      /\ (length (cumulativeFilesJSON (out_state o2)) =
          length (cumulativeFilesJSON s) + length files1 + length files2)%nat
      /\ (cumulativeFilesJSON s = [] ->
          length (cumulativeFilesJSON (out_state o2)) =
            (length files1 + length files2)%nat)
      /\ reportedFiles (out_trace o2) = [JsonBatch (cumulativeFilesJSON (out_state o2))])
  /\ (forall (props : Props) (a : Action) (s : St),
        clearsBatch a = false ->
        extends (cumulativeFilesJSON s) (cumulativeFilesJSON (out_state (step props a s)))).
Proof.
  split.
  - intros props w1 w2 files1 files2 s Hempty o1 o2 H1 H2.
    pose proof (recordUidIsEmpty_not_configured props Hempty) as Hc.
    destruct (succeeded_local props w1 files1 s Hc H1) as (Hne1 & Hr1).
    destruct (succeeded_local props w2 files2 (out_state o1) Hc H2) as (Hne2 & Hr2).
    destruct (processFiles_local_ok props w1 files1 s Hc Hne1 Hr1) as (_ & _ & Hc1 & _).
    destruct (processFiles_local_ok props w2 files2 (out_state o1) Hc Hne2 Hr2)
      as (_ & Ht2 & Hc2 & _).
    rewrite Hempty in Hc1, Hc2, Ht2. fold o1 in Hc1. fold o2 in Hc2, Ht2.
    assert (Hcum : cumulativeFilesJSON (out_state o2) =
                   cumulativeFilesJSON s ++ List.map batchEntry files1
                     ++ List.map batchEntry files2).
    { rewrite Hc2, Hc1. now rewrite <- app_assoc. }
    split; [exact Hcum |].
    assert (Hlen : (length (cumulativeFilesJSON (out_state o2)) =
                    length (cumulativeFilesJSON s) + length files1 + length files2)%nat).
    { rewrite Hcum, !length_app, !length_map. lia. }
    split; [exact Hlen |]. split.
    + intros Hnil. rewrite Hlen, Hnil. reflexivity.
    + rewrite Ht2, Hc2. reflexivity.
  - intros props a s Ha. exact (respects_extends_step props a Ha s).
Qed.

(** Two files, then one file, from an empty batch: three entries. *)
Lemma C7_cumulative_batch_accumulates_witness :
  let a := Sample.pdf "a.pdf" 1 in
  let b := Sample.pdf "b.pdf" 2 in
  let c := Sample.pdf "c.pdf" 3 in
  let o1 := processFiles Sample.localProps (Sample.silentWorld []) [a; b]
              (Sample.offered [a; b]) in
  let o2 := processFiles Sample.localProps (Sample.silentWorld []) [c] (out_state o1) in
  length (cumulativeFilesJSON (out_state o2)) = (2 + 1)%nat.
Proof.
  intros a b c o1 o2.
  refine (proj1 (proj2 (proj2
            (proj1 C7_cumulative_batch_accumulates Sample.localProps
               (Sample.silentWorld []) (Sample.silentWorld []) [a; b] [c]
               (Sample.offered [a; b]) eq_refl _ _))) eq_refl).
  - split; vm_compute; reflexivity.
  - split; vm_compute; reflexivity.
Defined.

(** Removing a file by name and clearing do shrink the batch. *)
Example batch_shrinks_on_explicit_clear :
  let a := Sample.pdf "a.pdf" 1 in
  let b := Sample.pdf "b.pdf" 2 in
  let s := out_state (processFiles Sample.localProps (Sample.silentWorld []) [a; b]
                        (Sample.offered [a; b])) in
  length (cumulativeFilesJSON s) = 2%nat
  /\ length (cumulativeFilesJSON
               (out_state (step Sample.localProps ClearNewFiles s))) = 0%nat
  /\ length (cumulativeFilesJSON
               (out_state (step Sample.localProps
                             (ContextChange (Sample.silentWorld [])) s))) = 0%nat.
Proof. vm_compute. repeat split; reflexivity. Qed.

(** ** A bound record identity *)

Lemma lastStatus_app t1 t2 :
  lastStatus (t1 ++ t2) =
    match lastStatus t2 with
    | Some u => Some u
    | None => lastStatus t1
    end.
Proof.
  unfold lastStatus. rewrite fold_left_app. generalize (fold_left
    (fun acc e => match e with
                  | OnEvent ev => match ev_uploadStatus ev with
                                  | Some u => Some u | None => acc end
                  | _ => acc end) t1 None).
  induction t2 as [| e t2 IH] using rev_ind; intros acc; [reflexivity |].
  rewrite !fold_left_app. cbn.
  destruct e as [| ev | | | | | |]; try apply IH.
  destruct (ev_uploadStatus ev); [reflexivity | apply IH].
Qed.

Lemma lastStatus_cons e t :
  lastStatus (e :: t) =
    match lastStatus t with
    | Some u => Some u
    | None => match e with
              | OnEvent ev => ev_uploadStatus ev
              | _ => None
              end
    end.
Proof.
  change (e :: t) with ([e] ++ t). rewrite lastStatus_app.
  destruct (lastStatus t); [reflexivity |].
  destruct e as [| ev | | | | | |]; try reflexivity.
  cbn. destruct (ev_uploadStatus ev); reflexivity.
Qed.

Lemma bound_record_isEmpty props :
  isCloudFlowConfigured props = true -> recordUidIsEmpty props = false.
Proof.
  intros H. destruct (recordUidIsEmpty props) eqn:E; [| reflexivity].
  rewrite (recordUidIsEmpty_not_configured props E) in H. discriminate.
Qed.

Lemma preserves_fileStates_loadExistingFilesFrom props w b :
  preserves fileStates (loadExistingFilesFrom props w b).
Proof. unfold loadExistingFilesFrom, loadExistingFilesWith. frame. Qed.

(** With a record identity bound the cumulative batch stays as it is. *)
Lemma bound_record_batch_unchanged props w files s :
  recordUidIsEmpty props = false ->
  cumulativeFilesJSON (out_state (processFiles props w files s)) = cumulativeFilesJSON s.
Proof.
  intros Hb. symmetry. revert s.
  change (preserves cumulativeFilesJSON (processFiles props w files)).
  unfold processFiles. frame.
  - apply preserves_cumulative_processRemote.
  - unfold processLocal, markCompleted. rewrite Hb. frame.
    intros s0. now rewrite (proj1 (processFilesAsJSON_run _ s0)).
  - apply preserves_cumulative_processFailed.
Qed.

Lemma withoutFiles_none files l f fs :
  In f files -> In fs (withoutFiles files l) -> ~ named (name f) fs.
Proof.
  intros Hin Hfs Hn. unfold withoutFiles in Hfs. apply List.filter_In in Hfs.
  destruct Hfs as [_ Hb]. apply negb_true_iff in Hb.
  assert (Ht : List.existsb (fun f' => String.eqb (name f') (name (file fs))) files = true).
  { apply List.existsb_exists. exists f. split; [exact Hin |].
    apply String.eqb_eq. now rewrite Hn. }
  congruence.
Qed.

(** What a completed remote run leaves: the upload returned results that
    all succeeded, and the entries named like a result are gone. *)
Lemma processFiles_remote_succeeded props w files s :
  isCloudFlowConfigured props = true ->
  succeeded (processFiles props w files s) ->
  exists s0 results,
    out_completion (uploadToCloudFlow props w files s0) = Returned results
    /\ List.forallb r_success results = true
    /\ (results <> [] ->
        forall fs, In fs (fileStates (out_state (processFiles props w files s))) ->
          ~ In (name (file fs)) (List.map r_fileName results)).
Proof.
  intros Hc [Hret Hlast]. destruct files as [| f files]; [discriminate |].
  revert Hret Hlast. unfold processFiles. rewrite Hc. unfold processRemote, processFailed.
  destruct (buttonShowActionSpinner props); run.
  all: match goal with
       | |- context [uploadToCloudFlow ?p ?w0 ?l ?s0] =>
           destruct (uploadToCloudFlow p w0 l s0) as [s1 t1 [results | e |]] eqn:E
       end; run; try discriminate.
  all: try (rewrite stopAll_run; run; rewrite markFailed_run; run; intros _;
            rewrite !lastStatus_cons, ?lastStatus_app; cbn; discriminate).
  all: destruct (List.existsb r_success results) eqn:Hex; run.
  all: try match goal with
       | |- context [loadExistingFilesFrom ?p ?w0 ?b ?s0] =>
           pose proof (preserves_fileStates_loadExistingFilesFrom p w0 b s0) as Hfs;
           destruct (loadExistingFilesFrom p w0 b s0) as [s2 t2 [[] | e |]];
           cbn in Hfs
       end; run; try discriminate.
  all: try (rewrite stopAll_run; run; rewrite markFailed_run; run; intros _;
            rewrite !lastStatus_cons, ?lastStatus_app; cbn; discriminate).
  all: intros _; rewrite !lastStatus_cons, ?lastStatus_app; cbn;
       destruct (List.existsb (fun r => negb (r_success r)) results) eqn:Hfail;
       cbn; try discriminate; intros _.
  all: match type of E with
       | uploadToCloudFlow _ _ ?l ?s0 = _ =>
           exists s0, results; rewrite E; split; [reflexivity |]
       end.
  all: assert (Hall : List.forallb r_success results = true)
         by (apply List.forallb_forall; intros r Hr;
             destruct (r_success r) eqn:Es; [reflexivity |];
             assert (List.existsb (fun r => negb (r_success r)) results = true)
               by (apply List.existsb_exists; exists r; split; [exact Hr | now rewrite Es]);
             congruence).
  all: split; [exact Hall |].
  all: intros Hne fs Hin Hmem.
  all: try (destruct results as [| r results]; [contradiction |];
            cbn in Hall, Hex; apply andb_prop in Hall; destruct Hall as [Hr _];
            rewrite Hr in Hex; discriminate).
  all: apply List.filter_In in Hin; destruct Hin as [_ Hb]; apply negb_true_iff in Hb.
  all: assert (Heq : List.filter r_success results = results)
         by (clear - Hall; induction results as [| r results IH]; [reflexivity |];
             cbn in *; apply andb_prop in Hall; destruct Hall as [Hr Hrest];
             rewrite Hr, (IH Hrest); reflexivity).
  all: rewrite Heq in Hb.
  all: assert (Ht : List.existsb (String.eqb (name (file fs))) (List.map r_fileName results)
                    = true)
         by (apply List.existsb_exists; exists (name (file fs)); split;
             [exact Hmem | apply String.eqb_refl]).
  all: congruence.
Qed.

(** With a record identity bound, a completed run in multiple-file mode, in
    JSON mode, or on a single file leaves none of the processed files in
    the list and does not touch the cumulative batch. *)
Lemma bound_record_purges_processed_files props w files s :
  recordUidIsEmpty props = false ->
  buttonAllowMultipleFiles props = true
  \/ isCloudFlowConfigured props = false
  \/ (exists f0, files = [f0]) ->
  succeeded (processFiles props w files s) ->
  cumulativeFilesJSON (out_state (processFiles props w files s)) = cumulativeFilesJSON s
  /\ forall f fs,
       In f files -> In fs (fileStates (out_state (processFiles props w files s))) ->
       ~ named (name f) fs.
Proof.
  intros Hb Hmode Hsucc. split; [now apply bound_record_batch_unchanged |].
  intros f fs Hin Hfs.
  destruct (isCloudFlowConfigured props) eqn:Hc.
  - destruct (processFiles_remote_succeeded props w files s Hc Hsucc)
      as (s0 & results & Hret & _ & Hgone).
    assert (Hall : Forall2 (resultOf w) files results).
    { destruct Hmode as [Hm | [Hn | (f0 & ->)]]; [| discriminate |].
      - exact (proj1 (uploadToCloudFlow_multi props w files s0 results Hc Hm Hret)).
      - destruct (buttonAllowMultipleFiles props) eqn:Hm.
        + exact (proj1 (uploadToCloudFlow_multi props w [f0] s0 results Hc Hm Hret)).
        + rewrite (uploadToCloudFlow_single props w f0 [] s0 Hc Hm) in Hret.
          destruct (uploadFirst_spec props w f0 (out_state (markUploading [f0] s0)))
            as (Hres & _).
          destruct (flightResult w f0) as [b |] eqn:Hfl.
          * destruct Hres as ((r & Hr & Hname & Hs) & _). rewrite Hr in Hret.
            injection Hret as <-. constructor; [| constructor].
            split; [exact Hname | now rewrite Hfl, Hs].
          * destruct Hres as (Hp & _). rewrite Hp in Hret. discriminate. }
    intros Hn. apply (Hgone) with (fs := fs); [| exact Hfs |].
    + intros ->. inversion Hall. subst. contradiction.
    + rewrite (Forall2_resultOf_names w files results Hall). unfold names.
      apply List.in_map_iff. exists f. split; [now rewrite Hn | exact Hin].
  - destruct (succeeded_local props w files s Hc Hsucc) as (Hne & Hread).
    destruct (processFiles_local_ok props w files s Hc Hne Hread) as (_ & _ & _ & Hst).
    rewrite Hb in Hst. rewrite Hst in Hfs.
    exact (withoutFiles_none files _ f fs Hin Hfs).
Qed.

(** C6, on the failing input. A record identity is bound, the remote mode
    is configured and multiple-file selection is off; two files are dropped
    and uploaded. The component reports the run as completed and the
    cumulative batch stays empty, but the second file is still in the list,
    with status [uploading]. *)
Theorem C6_single_mode_leaves_processed_file :
  let a := Sample.pdf "a.pdf" 1 in
  let b := Sample.pdf "b.pdf" 2 in
  let w := Sample.world [] Sample.emptyList in
  let s := out_state (step Sample.remoteProps (AddFiles [a; b])
                        (Sample.emptyState 100 "*")) in
  let o := step Sample.remoteProps (UploadAll w) s in
  recordUidIsEmpty Sample.remoteProps = false
  /\ out_completion o = Returned tt
  /\ lastStatus (out_trace o) = Some Completed
  /\ cumulativeFilesJSON (out_state o) = []
  /\ List.map (fun fs => (name (file fs), status fs)) (fileStates (out_state o)) =
       [("b.pdf", uploading)].
Proof. vm_compute. repeat split; reflexivity. Qed.

(** The same two files in multiple-file mode: the list is empty afterwards. *)
Example multi_mode_purges_both :
  let a := Sample.pdf "a.pdf" 1 in
  let b := Sample.pdf "b.pdf" 2 in
  let w := Sample.world [] Sample.emptyList in
  let o := step Sample.remoteMultiProps (UploadAll w) (Sample.offered [a; b]) in
  lastStatus (out_trace o) = Some Completed /\ fileStates (out_state o) = [].
Proof. vm_compute. split; reflexivity. Qed.

(** ** Time-outs *)

Lemma invokeCloudFlow_silent {B} config :
  @CloudFlows.invokeCloudFlow B config CloudFlows.Silent =
    Thrown (ErrorObj "Flow execution timed out").
Proof. reflexivity. Qed.

Lemma invokeCloudFlow_late {B} config ms (r : Response B) :
  CloudFlows.effectiveTimeout config <= ms ->
  CloudFlows.invokeCloudFlow config (CloudFlows.RespondsAfter ms r) =
    Thrown (ErrorObj "Flow execution timed out").
Proof.
  intros H. unfold CloudFlows.invokeCloudFlow.
  replace (ms <? CloudFlows.effectiveTimeout config) with false
    by (symmetry; apply Z.ltb_ge; exact H).
  reflexivity.
Qed.

Lemma effectiveTimeout_default :
  CloudFlows.effectiveTimeout (CloudFlows.mkCloudFlowConfig None) = 100000
  /\ CloudFlows.effectiveTimeout (CloudFlows.mkCloudFlowConfig (Some 0)) = 100000
  /\ CloudFlows.effectiveTimeout (CloudFlows.mkCloudFlowConfig (Some 5000)) = 5000.
Proof. repeat split; reflexivity. Qed.

(** The component awaits an endpoint that never answers for ever. *)
Lemma uploadToCloudFlow_never_times_out props w f rest s d :
  isCloudFlowConfigured props = true ->
  content f = ReadOk d -> d <> "" ->
  uploadOutcome (w_upload w f) = CloudFlows.direct CloudFlows.Silent ->
  out_completion (uploadToCloudFlow props w (f :: rest) s) = StillPending.
Proof.
  intros Hc Hd Hne Hout.
  assert (Hfl : flightResult w f = None).
  { unfold flightResult. rewrite Hd, Hout. cbn.
    destruct (String.eqb d "") eqn:E; [| reflexivity].
    apply String.eqb_eq in E. contradiction. }
  destruct (buttonAllowMultipleFiles props) eqn:Hm.
  - unfold uploadToCloudFlow. rewrite Hc, Hm. cbn [negb].
    rewrite bind_run, markUploading_run. cbn [out_completion out_state out_trace].
    rewrite bind_run. cbn [uploadEach]. rewrite bind_run.
    destruct (uploadOne_spec props w f
                (fold_left (fun s' f0 =>
                   updateFileState (name f0)
                     (mkUpdates (Some 0) (Some uploading) None None) s') (f :: rest) s))
      as (Hres & _).
    rewrite Hfl in Hres. destruct Hres as (Hp & _). rewrite Hp. reflexivity.
  - rewrite (uploadToCloudFlow_single props w f rest s Hc Hm).
    destruct (uploadFirst_spec props w f (out_state (markUploading (f :: rest) s)))
      as (Hres & _).
    rewrite Hfl in Hres. exact (proj1 Hres).
Qed.

(** C5, on the failing input. An endpoint that never answers, or answers
    after an hour: the request helper of PowerAutomateCloudFlows.ts gives up
    after its time-out (100 seconds by default) with the message
    "Flow execution timed out"; the component's own upload, list, delete
    and download calls stay pending for ever in the first case and accept
    the late answer in the second. *)
Theorem C5_component_calls_have_no_timeout :
  let a := Sample.pdf "a.pdf" 1 in
  let never : World :=
    mkWorld (fun _ => mkFlight [] (CloudFlows.direct CloudFlows.Silent))
      (CloudFlows.direct CloudFlows.Silent)
      (fun _ => CloudFlows.direct CloudFlows.Silent)
      (fun _ => CloudFlows.direct CloudFlows.Silent) in
  let late := CloudFlows.RespondsAfter 3600000 Sample.uploadOk in
  let slow : World :=
    mkWorld (fun _ => mkFlight [] (CloudFlows.direct late))
      (Responds Sample.emptyList) (fun _ => NoResponse) (fun _ => NoResponse) in
  let config := CloudFlows.mkCloudFlowConfig None in
  @CloudFlows.invokeCloudFlow UploadBody config CloudFlows.Silent =
    Thrown (ErrorObj "Flow execution timed out")
  /\ CloudFlows.invokeCloudFlow config late =
       Thrown (ErrorObj "Flow execution timed out")
  /\ out_completion (uploadToCloudFlow Sample.remoteProps never [a] (Sample.offered [a]))
     = StillPending
  /\ out_completion (loadExistingFiles Sample.remoteProps never (Sample.offered [a]))
     = StillPending
  /\ out_completion (handleDeleteExistingFile Sample.remoteProps never "a.pdf"
                       (Sample.offered [a])) = StillPending
  /\ out_completion (handleViewExistingFile Sample.remoteProps never "a.pdf"
                       (Sample.offered [a])) = StillPending
  /\ List.map r_success
       (match out_completion
                (uploadToCloudFlow Sample.remoteProps slow [a] (Sample.offered [a])) with
        | Returned rs => rs
        | _ => []
        end) = [true].
Proof. vm_compute. repeat split; reflexivity. Qed.

(** ** Allow-list matching *)

Module JsFacts.

Import Js.

Ltac all_chars c := destruct c as [[] [] [] [] [] [] [] []].

Lemma isWhiteSpace_lowerChar c : isWhiteSpace (lowerChar c) = isWhiteSpace c.
Proof. all_chars c; reflexivity. Qed.

Lemma isSeparator_lowerChar c : isSeparator (lowerChar c) = isSeparator c.
Proof. all_chars c; reflexivity. Qed.

Lemma lowerChar_star c : Ascii.eqb (lowerChar c) "*" = Ascii.eqb c "*".
Proof. all_chars c; reflexivity. Qed.

Lemma lowerChar_dot c : Ascii.eqb (lowerChar c) "." = Ascii.eqb c ".".
Proof. all_chars c; reflexivity. Qed.

Lemma lowerChar_slash c : Ascii.eqb (lowerChar c) "/" = Ascii.eqb c "/".
Proof. all_chars c; reflexivity. Qed.

Lemma lowerChar_idem c : lowerChar (lowerChar c) = lowerChar c.
Proof. all_chars c; reflexivity. Qed.

Lemma isSeparator_not_whiteSpace c : isSeparator c = true -> isWhiteSpace c = false.
Proof. all_chars c; cbn; intros H; try discriminate; reflexivity. Qed.

Lemma toLowerCase_app a b : toLowerCase (a +:+ b) = toLowerCase a +:+ toLowerCase b.
Proof. induction a as [| c a IH]; simpl; [reflexivity | now rewrite IH]. Qed.

Lemma toLowerCase_empty s : toLowerCase s = "" <-> s = "".
Proof. destruct s; cbn; split; intros H; try discriminate; reflexivity. Qed.

Lemma toLowerCase_idem s : toLowerCase (toLowerCase s) = toLowerCase s.
Proof. induction s as [| c s IH]; cbn; [reflexivity | now rewrite lowerChar_idem, IH]. Qed.

Lemma eqb_empty_lower s : String.eqb (toLowerCase s) "" = String.eqb s "".
Proof. destruct s; reflexivity. Qed.

Lemma eqb_star_lower s : String.eqb (toLowerCase s) "*" = String.eqb s "*".
Proof.
  destruct s as [| c [| d s]]; cbn; try reflexivity.
  - now rewrite lowerChar_star.
  - rewrite lowerChar_star. destruct (Ascii.eqb c "*"); reflexivity.
Qed.

Lemma trimStart_lower s : toLowerCase (trimStart s) = trimStart (toLowerCase s).
Proof.
  induction s as [| c s IH]; cbn; [reflexivity |].
  rewrite isWhiteSpace_lowerChar. destruct (isWhiteSpace c); [exact IH | reflexivity].
Qed.

Lemma trimEnd_lower s : toLowerCase (trimEnd s) = trimEnd (toLowerCase s).
Proof.
  induction s as [| c s IH]; cbn; [reflexivity |].
  rewrite <- IH, isWhiteSpace_lowerChar.
  destruct (trimEnd s); cbn; [destruct (isWhiteSpace c) |]; reflexivity.
Qed.

Lemma trim_lower s : toLowerCase (trim s) = trim (toLowerCase s).
Proof. unfold trim. now rewrite trimEnd_lower, trimStart_lower. Qed.

Lemma splitSeparators_nonempty s : splitSeparators s <> [].
Proof.
  destruct s as [| c s]; cbn; [discriminate |].
  destruct (isSeparator c); [discriminate |].
  destruct (splitSeparators s); discriminate.
Qed.

Lemma splitSeparators_lower s :
  splitSeparators (toLowerCase s) = List.map toLowerCase (splitSeparators s).
Proof.
  induction s as [| c s IH]; cbn; [reflexivity |].
  rewrite isSeparator_lowerChar, IH.
  destruct (isSeparator c); cbn; [reflexivity |].
  destruct (splitSeparators s); reflexivity.
Qed.

End JsFacts.

Module AllowList.

Import Js JsFacts.

Lemma parseAllowedTypes_lower a :
  parseAllowedTypes (toLowerCase a) = parseAllowedTypes a.
Proof.
  unfold parseAllowedTypes. rewrite splitSeparators_lower, List.map_map.
  f_equal. apply List.map_ext. intros t.
  now rewrite <- trim_lower, toLowerCase_idem.
Qed.

(** Letter case of the allow-list does not matter. *)
Lemma typeCheckPasses_lower a f :
  typeCheckPasses (toLowerCase a) f = typeCheckPasses a f.
Proof.
  unfold typeCheckPasses.
  rewrite parseAllowedTypes_lower, <- trim_lower, eqb_empty_lower, eqb_empty_lower,
    eqb_star_lower.
  reflexivity.
Qed.

Lemma unify_char_separator c :
  isSeparator (if Ascii.eqb c "," then ";"%char else c) = isSeparator c.
Proof. all_chars c; reflexivity. Qed.

Lemma unify_char_whiteSpace c :
  isWhiteSpace (if Ascii.eqb c "," then ";"%char else c) = isWhiteSpace c.
Proof. all_chars c; reflexivity. Qed.

Lemma unify_char_other c :
  isSeparator c = false -> (if Ascii.eqb c "," then ";"%char else c) = c.
Proof. all_chars c; cbn; intros H; try discriminate; reflexivity. Qed.

Lemma unify_char_star c :
  Ascii.eqb (if Ascii.eqb c "," then ";"%char else c) "*" = Ascii.eqb c "*".
Proof. all_chars c; reflexivity. Qed.

Lemma splitSeparators_unify s :
  splitSeparators (unifySeparators s) = splitSeparators s.
Proof.
  induction s as [| c s IH]; cbn; [reflexivity |].
  rewrite unify_char_separator, IH.
  destruct (isSeparator c) eqn:E; [reflexivity |].
  now rewrite (unify_char_other c E).
Qed.

Lemma trimStart_unify s : unifySeparators (trimStart s) = trimStart (unifySeparators s).
Proof.
  induction s as [| c s IH]; cbn; [reflexivity |].
  rewrite unify_char_whiteSpace. destruct (isWhiteSpace c); [exact IH | reflexivity].
Qed.

Lemma trimEnd_unify s : unifySeparators (trimEnd s) = trimEnd (unifySeparators s).
Proof.
  induction s as [| c s IH]; cbn; [reflexivity |].
  rewrite <- IH, unify_char_whiteSpace.
  destruct (trimEnd s); cbn; [destruct (isWhiteSpace c) |]; reflexivity.
Qed.

Lemma trim_unify s : unifySeparators (trim s) = trim (unifySeparators s).
Proof. unfold trim. now rewrite trimEnd_unify, trimStart_unify. Qed.

Lemma eqb_empty_unify s : String.eqb (unifySeparators s) "" = String.eqb s "".
Proof. destruct s; reflexivity. Qed.

Lemma eqb_star_unify s : String.eqb (unifySeparators s) "*" = String.eqb s "*".
Proof.
  destruct s as [| c [| d s]]; cbn -[Ascii.eqb]; try reflexivity.
  - now rewrite unify_char_star.
  - rewrite unify_char_star. destruct (Ascii.eqb c "*"); reflexivity.
Qed.

(** The choice between [';'] and [','] does not matter. *)
Lemma typeCheckPasses_unify a f :
  typeCheckPasses (unifySeparators a) f = typeCheckPasses a f.
Proof.
  unfold typeCheckPasses, parseAllowedTypes.
  rewrite splitSeparators_unify, <- trim_unify, !eqb_empty_unify, eqb_star_unify.
  reflexivity.
Qed.

End AllowList.

Module Trim.

Import Js JsFacts.

Lemma append_cons x a b : String x a +:+ b = String x (a +:+ b).
Proof. reflexivity. Qed.

Lemma append_nil_l a : "" +:+ a = a.
Proof. reflexivity. Qed.

Ltac app_simpl := rewrite ?append_cons, ?append_nil_l in *.

Lemma append_assoc_s a b c : (a +:+ b) +:+ c = a +:+ (b +:+ c).
Proof. induction a as [| x a IH]; app_simpl; [reflexivity | now rewrite IH]. Qed.

Lemma append_nil_r a : a +:+ "" = a.
Proof. induction a as [| x a IH]; app_simpl; [reflexivity | now rewrite IH]. Qed.

Lemma length_trimStart s : (String.length (trimStart s) <= String.length s)%nat.
Proof. induction s as [| c s IH]; cbn; [lia |]. destruct (isWhiteSpace c); cbn; lia. Qed.

Lemma length_trimEnd s : (String.length (trimEnd s) <= String.length s)%nat.
Proof.
  induction s as [| c s IH]; cbn; [lia |].
  destruct (trimEnd s); cbn in *; [destruct (isWhiteSpace c); cbn; lia | lia].
Qed.

(** A non-empty string that [trim] leaves alone starts with a character
    that is not white space, and [trimEnd] leaves it alone too. *)
Lemma trim_fixed q :
  q <> "" -> trim q = q ->
  exists c q', q = String c q' /\ isWhiteSpace c = false /\ trimEnd q = q.
Proof.
  intros Hne Ht. destruct q as [| c q']; [contradiction |].
  exists c, q'. split; [reflexivity |].
  unfold trim in Ht. cbn [trimStart] in Ht.
  destruct (isWhiteSpace c) eqn:E.
  - exfalso. pose proof (length_trimEnd (trimStart q')) as H1.
    pose proof (length_trimStart q') as H2. rewrite Ht in H1. cbn in H1. lia.
  - split; [reflexivity | exact Ht].
Qed.

Lemma nonWhiteSpace_app a b :
  nonWhiteSpace (a +:+ b) = nonWhiteSpace a +:+ nonWhiteSpace b.
Proof.
  induction a as [| c a IH]; simpl; [reflexivity |].
  destruct (isWhiteSpace c); simpl; now rewrite IH.
Qed.

Lemma nonWhiteSpace_all s : allWhiteSpace s = true -> nonWhiteSpace s = "".
Proof.
  induction s as [| c s IH]; cbn; [reflexivity |].
  destruct (isWhiteSpace c); cbn; [exact IH | discriminate].
Qed.

Lemma nonWhiteSpace_none s : nonWhiteSpace s = "" -> allWhiteSpace s = true.
Proof.
  induction s as [| c s IH]; cbn; [reflexivity |].
  destruct (isWhiteSpace c); cbn; [exact IH | discriminate].
Qed.

Lemma nonWhiteSpace_trimStart s : nonWhiteSpace (trimStart s) = nonWhiteSpace s.
Proof.
  induction s as [| c s IH]; cbn; [reflexivity |].
  destruct (isWhiteSpace c) eqn:E; [exact IH |]. cbn. now rewrite E.
Qed.

Lemma nonWhiteSpace_trimEnd s : nonWhiteSpace (trimEnd s) = nonWhiteSpace s.
Proof.
  induction s as [| c s IH]; cbn; [reflexivity |].
  destruct (trimEnd s) as [| d t] eqn:Et.
  - cbn in IH. rewrite <- IH. destruct (isWhiteSpace c) eqn:E; cbn; now rewrite ?E.
  - cbn [nonWhiteSpace]. rewrite <- IH. reflexivity.
Qed.

Lemma nonWhiteSpace_trim s : nonWhiteSpace (trim s) = nonWhiteSpace s.
Proof. unfold trim. now rewrite nonWhiteSpace_trimEnd, nonWhiteSpace_trimStart. Qed.

Lemma trimEnd_all s : allWhiteSpace s = true -> trimEnd s = "".
Proof.
  induction s as [| c s IH]; cbn; [reflexivity |].
  destruct (isWhiteSpace c); cbn; [| discriminate].
  intros H. now rewrite (IH H).
Qed.

Lemma trimStart_pad ws s : allWhiteSpace ws = true -> trimStart (ws +:+ s) = trimStart s.
Proof.
  induction ws as [| c ws IH]; simpl; [reflexivity |].
  destruct (isWhiteSpace c); simpl; [exact IH | discriminate].
Qed.

Lemma trimEnd_pad s ws : allWhiteSpace ws = true -> trimEnd (s +:+ ws) = trimEnd s.
Proof.
  intros H. induction s as [| c s IH]; simpl; [now apply trimEnd_all |].
  now rewrite IH.
Qed.

(** White space around a trimmed word is what [trim] removes. *)
Lemma trim_pad ws q ws' :
  allWhiteSpace ws = true -> allWhiteSpace ws' = true ->
  q <> "" -> trim q = q -> trim (ws +:+ q +:+ ws') = q.
Proof.
  intros Hw Hw' Hne Ht.
  destruct (trim_fixed q Hne Ht) as (c & q' & -> & Hc & He).
  unfold trim. rewrite (trimStart_pad ws _ Hw).
  change (String c q' +:+ ws') with (String c (q' +:+ ws')). cbn [trimStart]. rewrite Hc.
  change (String c (q' +:+ ws')) with (String c q' +:+ ws').
  now rewrite (trimEnd_pad _ ws' Hw').
Qed.

(** A trimmed word whose only character that is not white space is [c] is
    that character. *)
Lemma trimmed_single q c :
  trim q = q -> nonWhiteSpace q = String c "" -> q = String c "".
Proof.
  intros Ht Hn. assert (Hne : q <> "") by (intros ->; discriminate).
  destruct (trim_fixed q Hne Ht) as (c1 & q' & -> & Hc & He).
  cbn in Hn. rewrite Hc in Hn. injection Hn as -> Hq.
  cbn in He. rewrite (trimEnd_all q' (nonWhiteSpace_none q' Hq)), Hc in He.
  injection He as <-. reflexivity.
Qed.

Lemma append_eq_single a b c x :
  a +:+ b +:+ c = String x "" -> b <> "" -> a = "" /\ b = String x "" /\ c = "".
Proof.
  intros H Hb. destruct a as [| y a]; app_simpl.
  - destruct b as [| y b]; [contradiction |]. app_simpl. injection H as -> H.
    destruct b; [| discriminate]. app_simpl. now subst c.
  - injection H as _ H. destruct a; app_simpl; [| discriminate].
    destruct b; [contradiction | discriminate].
Qed.

(** An allow-list that holds a trimmed word other than the wildcard is not
    blank and is not the wildcard. *)
Lemma guards_with_word pre q post :
  q <> "" -> q <> "*" -> trim q = q ->
  String.eqb (pre +:+ q +:+ post) "" = false
  /\ String.eqb (trim (pre +:+ q +:+ post)) "" = false
  /\ String.eqb (trim (pre +:+ q +:+ post)) "*" = false.
Proof.
  intros Hne Hstar Ht.
  destruct (trim_fixed q Hne Ht) as (c & q' & Hq & Hc & _).
  assert (Hnw : nonWhiteSpace q <> "").
  { rewrite Hq. cbn. rewrite Hc. discriminate. }
  assert (Hall : nonWhiteSpace (trim (pre +:+ q +:+ post)) =
                 nonWhiteSpace pre +:+ nonWhiteSpace q +:+ nonWhiteSpace post).
  { now rewrite nonWhiteSpace_trim, !nonWhiteSpace_app. }
  split; [| split].
  - apply String.eqb_neq. intros H.
    assert (H' : nonWhiteSpace (pre +:+ q +:+ post) = "") by now rewrite H.
    rewrite !nonWhiteSpace_app in H'.
    destruct (nonWhiteSpace pre); [| discriminate]. app_simpl.
    destruct (nonWhiteSpace q); [contradiction | discriminate].
  - apply String.eqb_neq. intros H. rewrite H in Hall. cbn in Hall.
    destruct (nonWhiteSpace pre); [| discriminate]. app_simpl.
    destruct (nonWhiteSpace q); [contradiction | discriminate].
  - apply String.eqb_neq. intros H. rewrite H in Hall. cbn in Hall. symmetry in Hall.
    destruct (append_eq_single _ _ _ _ Hall Hnw) as (_ & Hs & _).
    apply Hstar. now apply trimmed_single.
Qed.

End Trim.

Module Patterns.

Import Js JsFacts AllowList Trim.

Lemma hasSeparator_app a b : hasSeparator (a +:+ b) = hasSeparator a || hasSeparator b.
Proof.
  induction a as [| c a IH]; app_simpl; [reflexivity |].
  cbn [hasSeparator]. now rewrite IH, orb_assoc.
Qed.

Lemma hasSeparator_whiteSpace ws : allWhiteSpace ws = true -> hasSeparator ws = false.
Proof.
  induction ws as [| c ws IH]; cbn; [reflexivity |].
  intros H. apply andb_true_iff in H as [Hc Hw].
  rewrite (IH Hw), orb_false_r.
  destruct (isSeparator c) eqn:E; [| reflexivity].
  apply isSeparator_not_whiteSpace in E. congruence.
Qed.

Lemma splitSeparators_single x : hasSeparator x = false -> splitSeparators x = [x].
Proof.
  induction x as [| c x IH]; cbn; [reflexivity |].
  intros H. apply orb_false_iff in H as [Hc Hx].
  now rewrite Hc, (IH Hx).
Qed.

(** A separator cuts the list in two. *)
Lemma splitSeparators_app a c b :
  isSeparator c = true ->
  splitSeparators (a +:+ String c b) = splitSeparators a ++ splitSeparators b.
Proof.
  intros Hc. induction a as [| x a IH]; app_simpl.
  - cbn. now rewrite Hc.
  - cbn [splitSeparators]. rewrite IH.
    destruct (isSeparator x); [reflexivity |].
    pose proof (splitSeparators_nonempty a) as Hne.
    destruct (splitSeparators a); [contradiction | reflexivity].
Qed.

Lemma splitSeparators_before pre0 :
  (pre0 = "" \/ exists pre1 c, pre0 = pre1 +:+ String c "" /\ isSeparator c = true) ->
  exists A, forall m, splitSeparators (pre0 +:+ m) = A ++ splitSeparators m.
Proof.
  intros [-> | (pre1 & c & -> & Hc)].
  - exists []. reflexivity.
  - exists (splitSeparators pre1). intros m.
    rewrite append_assoc_s. app_simpl. now apply splitSeparators_app.
Qed.

Lemma splitSeparators_after post0 :
  (post0 = "" \/ exists c post1, post0 = String c post1 /\ isSeparator c = true) ->
  exists B, forall m, hasSeparator m = false -> splitSeparators (m +:+ post0) = m :: B.
Proof.
  intros [-> | (c & post1 & -> & Hc)].
  - exists []. intros m Hm. rewrite append_nil_r. now apply splitSeparators_single.
  - exists (splitSeparators post1). intros m Hm.
    rewrite (splitSeparators_app _ _ _ Hc), (splitSeparators_single _ Hm). reflexivity.
Qed.

(** A word that stands as one entry of an allow-list is one entry of the
    parsed list, in lower case; the entries around it do not depend on it. *)
Lemma parseAllowedTypes_word pre post :
  beforePattern pre -> afterPattern post ->
  exists A B, forall q,
    q <> "" -> q <> "*" -> trim q = q -> hasSeparator q = false ->
    parseAllowedTypes (pre +:+ q +:+ post) = A ++ toLowerCase q :: B.
Proof.
  intros (pre0 & ws & -> & Hws & Hpre0) (ws' & post0 & -> & Hws' & Hpost0).
  destruct (splitSeparators_before pre0 Hpre0) as (A & HA).
  destruct (splitSeparators_after post0 Hpost0) as (B & HB).
  set (norm := fun t => toLowerCase (trim t)).
  set (keep := fun t => negb (String.eqb t "") && negb (String.eqb t "*")).
  exists (List.filter keep (List.map norm A)), (List.filter keep (List.map norm B)).
  intros q Hne Hstar Ht Hsep.
  assert (Happ : (pre0 +:+ ws) +:+ q +:+ ws' +:+ post0
                 = pre0 +:+ (ws +:+ q +:+ ws') +:+ post0)
    by now rewrite !append_assoc_s.
  assert (Hmid : hasSeparator (ws +:+ q +:+ ws') = false).
  { now rewrite !hasSeparator_app, Hsep, !hasSeparator_whiteSpace. }
  unfold parseAllowedTypes. fold norm. fold keep.
  rewrite Happ, HA, (HB _ Hmid), List.map_app, List.filter_app.
  f_equal. cbn [List.map List.filter].
  assert (Hn : norm (ws +:+ q +:+ ws') = toLowerCase q).
  { unfold norm. now rewrite trim_pad. }
  rewrite Hn. unfold keep at 1. rewrite eqb_empty_lower, eqb_star_lower.
  apply String.eqb_neq in Hne, Hstar. rewrite Hne, Hstar. reflexivity.
Qed.

Lemma typeCheckPasses_word pre post q f A B :
  q <> "" -> q <> "*" -> trim q = q ->
  parseAllowedTypes (pre +:+ q +:+ post) = A ++ toLowerCase q :: B ->
  typeCheckPasses (pre +:+ q +:+ post) f =
    List.existsb (matchesAllowedType (toLowerCase (type f)) (fileExtensionOf f))
      (A ++ toLowerCase q :: B).
Proof.
  intros Hne Hstar Ht Hp. unfold typeCheckPasses.
  destruct (guards_with_word pre q post Hne Hstar Ht) as (-> & -> & ->).
  cbn [orb]. rewrite Hp. destruct A; reflexivity.
Qed.

Lemma includesChar_lower_slash s : includesChar "/" (toLowerCase s) = includesChar "/" s.
Proof.
  induction s as [| c s IH]; cbn; [reflexivity |]. now rewrite lowerChar_slash, IH.
Qed.

Lemma startsWith_empty s : startsWith s "" = true.
Proof. destruct s; reflexivity. Qed.

Lemma startsWith_lower_dot s : startsWith (toLowerCase s) "." = startsWith s ".".
Proof.
  destruct s as [| c s]; cbn; [reflexivity |].
  replace (startsWith (toLowerCase s) "") with (startsWith s "") by (destruct s; reflexivity).
  all_chars c; reflexivity.
Qed.

(** An extension matches the same with its dot as without. *)
Lemma matchesAllowedType_dot fileType fileExtension p :
  includesChar "/" p = false -> startsWith p "." = false ->
  matchesAllowedType fileType fileExtension (toLowerCase (String "." p)) =
  matchesAllowedType fileType fileExtension (toLowerCase p).
Proof.
  intros Hs Hd. unfold matchesAllowedType.
  rewrite !startsWith_lower_dot, !includesChar_lower_slash, Hd.
  cbn. rewrite Hs, startsWith_empty. reflexivity.
Qed.

Lemma dotted_word p :
  extensionWord p ->
  String "." p <> "" /\ String "." p <> "*" /\ trim (String "." p) = String "." p
  /\ hasSeparator (String "." p) = false.
Proof.
  intros (Hne & Hstar & Ht & Hsep & _).
  destruct (trim_fixed p Hne Ht) as (c & p' & Hp & Hc & He).
  repeat split; try discriminate.
  - unfold trim. cbn [trimStart]. change (isWhiteSpace ".") with false. cbn iota.
    cbn [trimEnd]. rewrite He, Hp. reflexivity.
  - cbn. exact Hsep.
Qed.

(** The leading dot of an extension in an allow-list does not matter. *)
Lemma typeCheckPasses_dot pre p post f :
  extensionWord p -> beforePattern pre -> afterPattern post ->
  typeCheckPasses (pre +:+ "." +:+ p +:+ post) f = typeCheckPasses (pre +:+ p +:+ post) f.
Proof.
  intros Hw Hpre Hpost.
  destruct (dotted_word p Hw) as (Hne' & Hstar' & Ht' & Hsep').
  destruct Hw as (Hne & Hstar & Ht & Hsep & Hslash & Hdot).
  destruct (parseAllowedTypes_word pre post Hpre Hpost) as (A & B & HAB).
  change (pre +:+ "." +:+ p +:+ post) with (pre +:+ String "." p +:+ post).
  rewrite (typeCheckPasses_word pre post _ f A B Hne' Hstar' Ht'
             (HAB _ Hne' Hstar' Ht' Hsep')).
  rewrite (typeCheckPasses_word pre post _ f A B Hne Hstar Ht
             (HAB _ Hne Hstar Ht Hsep)).
  rewrite !List.existsb_app. cbn [List.existsb].
  now rewrite matchesAllowedType_dot.
Qed.

Lemma sameFiles_typeCheck a b :
  (forall f, typeCheckPasses a f = typeCheckPasses b f) -> sameFiles a b.
Proof.
  intros H maxMB fileStates0 batch f. unfold validateFileType.
  cbn [allowedFileTypes maxTotalFileSizeMB]. rewrite (H f).
  destruct (typeCheckPasses b f); cbn [negb]; [| reflexivity].
  destruct (negb (maxMB =? 0) && (0 <? maxMB)); [| reflexivity].
  destruct (_ <? _); reflexivity.
Qed.

End Patterns.

Module Extension.

Import Js JsFacts AllowList Trim Patterns.

Lemma lastIndexOf_absent c s : includesChar c s = false -> lastIndexOf c s = -1.
Proof.
  induction s as [| d s IH]; cbn; [reflexivity |].
  intros H. apply orb_false_iff in H as [Hd Hs].
  rewrite (IH Hs), Hd. reflexivity.
Qed.

Lemma lastIndexOf_last c base e :
  includesChar c e = false ->
  lastIndexOf c (base +:+ String c e) = Z.of_nat (String.length base).
Proof.
  intros He. induction base as [| x base IH]; app_simpl.
  - cbn. rewrite (lastIndexOf_absent c e He), Ascii.eqb_refl. reflexivity.
  - cbn [lastIndexOf String.length]. rewrite IH.
    destruct (0 <=? Z.of_nat (String.length base)) eqn:E; [lia |].
    apply Z.leb_gt in E. lia.
Qed.

Lemma dropChars_app base t : dropChars (String.length base) (base +:+ t) = t.
Proof. induction base as [| x base IH]; app_simpl; [reflexivity | exact IH]. Qed.

(** A string that holds [c] ends with [c] and a suffix that does not. *)
Lemma last_occurrence c s :
  includesChar c s = true ->
  exists base e, s = base +:+ String c e /\ includesChar c e = false.
Proof.
  induction s as [| d s IH]; cbn; [discriminate |].
  destruct (includesChar c s) eqn:Es.
  - intros _. destruct (IH eq_refl) as (base & e & -> & He).
    exists (String d base), e. split; [reflexivity | exact He].
  - rewrite orb_false_r. intros Hd. apply Ascii.eqb_eq in Hd as ->.
    exists "", s. split; [reflexivity | exact Es].
Qed.

Lemma substringFrom_last c base e :
  includesChar c e = false ->
  substringFrom (lastIndexOf c (base +:+ String c e)) (base +:+ String c e) = String c e.
Proof.
  intros He. unfold substringFrom. rewrite (lastIndexOf_last c base e He).
  rewrite Z.max_r by lia. rewrite Nat2Z.id. apply dropChars_app.
Qed.

Lemma append_inj_l base t t' : base +:+ t = base +:+ t' -> t = t'.
Proof.
  induction base as [| x base IH]; app_simpl; [easy |].
  intros H. injection H as H. now apply IH.
Qed.

(** [fileExtensionOf] is the dot and the dot-free suffix after the last dot
    of the lowercased name. *)
Lemma fileExtensionOf_spec f e :
  fileExtensionOf f = String "." e <->
  exists base, toLowerCase (name f) = base +:+ String "." e /\ includesChar "." e = false.
Proof.
  unfold fileExtensionOf. cbv zeta. set (s := toLowerCase (name f)). split.
  - intros H. destruct (includesChar "." s) eqn:Es.
    + destruct (last_occurrence "." s Es) as (base & e' & Hs & He').
      rewrite Hs, (substringFrom_last "." base e' He') in H.
      injection H as <-. now exists base.
    + rewrite (lastIndexOf_absent "." s Es) in H.
      change (substringFrom (-1) s) with s in H.
      rewrite H in Es. cbn in Es. discriminate.
  - intros (base & -> & He). now apply substringFrom_last.
Qed.

Lemma parseAllowedTypes_single p :
  p <> "" -> p <> "*" -> trim p = p -> hasSeparator p = false ->
  parseAllowedTypes p = [toLowerCase p].
Proof.
  intros Hne Hstar Ht Hsep. unfold parseAllowedTypes.
  rewrite (splitSeparators_single p Hsep). cbn [List.map List.filter].
  rewrite Ht, eqb_empty_lower, eqb_star_lower.
  apply String.eqb_neq in Hne, Hstar. now rewrite Hne, Hstar.
Qed.

(** An allow-list that is one extension passes the files whose extension
    is that extension, in lower case and with its dot. *)
Lemma typeCheckPasses_extension p f :
  extensionWord p ->
  typeCheckPasses p f = String.eqb (fileExtensionOf f) (String "." (toLowerCase p)).
Proof.
  intros (Hne & Hstar & Ht & Hsep & Hslash & Hdot).
  pose proof (guards_with_word "" p "" Hne Hstar Ht) as (G1 & G2 & G3).
  rewrite append_nil_l, append_nil_r in G1, G2, G3.
  unfold typeCheckPasses. rewrite G1, G2, G3. cbn [orb].
  rewrite (parseAllowedTypes_single p Hne Hstar Ht Hsep). cbn [List.existsb].
  unfold matchesAllowedType.
  rewrite includesChar_lower_slash, startsWith_lower_dot, Hslash, Hdot.
  apply orb_false_r.
Qed.

Lemma validateFileType_no_limit allowed fileStates0 f batch :
  v_isValid (validateFileType (mkAdminConfig 0 allowed) fileStates0 f batch) =
  typeCheckPasses allowed f.
Proof.
  unfold validateFileType. cbn [allowedFileTypes maxTotalFileSizeMB].
  destruct (typeCheckPasses allowed f); reflexivity.
Qed.

Lemma sameFiles_trans a b c : sameFiles a b -> sameFiles b c -> sameFiles a c.
Proof. intros H1 H2 m fs batch f. now rewrite H1, H2. Qed.

Lemma sameFiles_sym a b : sameFiles a b -> sameFiles b a.
Proof. intros H m fs batch f. now rewrite H. Qed.

Lemma sameFiles_separators a b : unifySeparators a = unifySeparators b -> sameFiles a b.
Proof.
  intros H. apply sameFiles_typeCheck. intros f.
  now rewrite <- (typeCheckPasses_unify a), <- (typeCheckPasses_unify b), H.
Qed.

Lemma sameFiles_case a b : toLowerCase a = toLowerCase b -> sameFiles a b.
Proof.
  intros H. apply sameFiles_typeCheck. intros f.
  now rewrite <- (typeCheckPasses_lower a), <- (typeCheckPasses_lower b), H.
Qed.

Lemma sameFiles_dot pre p post :
  extensionWord p -> beforePattern pre -> afterPattern post ->
  sameFiles (pre +:+ "." +:+ p +:+ post) (pre +:+ p +:+ post).
Proof.
  intros Hw Hpre Hpost. apply sameFiles_typeCheck. intros f.
  now apply typeCheckPasses_dot.
Qed.

Lemma beforePattern_start : beforePattern "".
Proof. exists "", "". repeat split. now left. Qed.

Lemma afterPattern_end : afterPattern "".
Proof. exists "", "". repeat split. now left. Qed.

Lemma extensionWord_PDF : extensionWord "PDF".
Proof. repeat split; try discriminate. Qed.

End Extension.

(** C2. Which files the allow-list accepts does not depend on the choice
    between [';'] and [','] as separator, on the letter case of the list,
    or on the leading dot of an extension in it: two lists that differ
    only in their separators accept the same files, so do two lists that
    differ only in letter case, and so do a list with the extension [p]
    written with its dot and the same list with [p] written without it.
    In particular [".PDF"], ["pdf"] and ["PDF"] accept exactly the same
    files. An extension is matched against the lowercased file name's
    suffix after the last ['.']: with no size limit, a file is valid under
    the allow-list [p] exactly when its lowercased name is some base, a
    dot, and the lowercased [p], which holds no further dot. *)
Theorem C2_allow_list_matching_invariant :
  (forall a b, unifySeparators a = unifySeparators b -> sameFiles a b)
  /\ (forall a b, Js.toLowerCase a = Js.toLowerCase b -> sameFiles a b)
  /\ (forall pre p post,
        extensionWord p -> beforePattern pre -> afterPattern post ->
        sameFiles (pre +:+ "." +:+ p +:+ post) (pre +:+ p +:+ post))
  /\ (sameFiles ".PDF" "pdf" /\ sameFiles "pdf" "PDF" /\ sameFiles ".PDF" "PDF")
  /\ (forall p fileStates0 f batch,
        extensionWord p ->
        v_isValid (validateFileType (mkAdminConfig 0 p) fileStates0 f batch) = true <->
        exists base,
          Js.toLowerCase (name f) = base +:+ "." +:+ Js.toLowerCase p
          /\ Js.includesChar "." (Js.toLowerCase p) = false).
Proof.
  assert (Hdot : sameFiles ".PDF" "PDF").
  { exact (Extension.sameFiles_dot "" "PDF" "" Extension.extensionWord_PDF
             Extension.beforePattern_start Extension.afterPattern_end). }
  assert (Hcase : sameFiles "pdf" "PDF") by (apply Extension.sameFiles_case; reflexivity).
  split; [exact Extension.sameFiles_separators |].
  split; [exact Extension.sameFiles_case |].
  split; [exact Extension.sameFiles_dot |].
  split.
  - split; [| split]; [| exact Hcase | exact Hdot].
    eapply Extension.sameFiles_trans; [exact Hdot |].
    now apply Extension.sameFiles_sym.
  - intros p fileStates0 f batch Hw.
    rewrite Extension.validateFileType_no_limit, (Extension.typeCheckPasses_extension p f Hw).
    rewrite String.eqb_eq. apply Extension.fileExtensionOf_spec.
Qed.

Lemma C2_allow_list_matching_invariant_witness :
  extensionWord "PDF" /\ beforePattern "image/*; " /\ afterPattern " ,docx"
  /\ v_isValid (validateFileType (mkAdminConfig 5 "image/*; .PDF ,docx") []
                  (mkFile "Report.pdf" 10 "application/pdf" ReadNull) []) =
     v_isValid (validateFileType (mkAdminConfig 5 "image/*; PDF ,docx") []
                  (mkFile "Report.pdf" 10 "application/pdf" ReadNull) []).
Proof.
  assert (Hw : extensionWord "PDF") by (repeat split; discriminate).
  assert (Hb : beforePattern "image/*; ").
  { exists "image/*;", " ". repeat split. right. exists "image/*", ";"%char. now split. }
  assert (Ha : afterPattern " ,docx").
  { exists " ", ",docx". repeat split. right. exists ","%char, "docx". now split. }
  split; [exact Hw |]. split; [exact Hb |]. split; [exact Ha |].
  exact (proj1 (proj2 (proj2 C2_allow_list_matching_invariant))
           "image/*; " "PDF" " ,docx" Hw Hb Ha 5 [] []
           (mkFile "Report.pdf" 10 "application/pdf" ReadNull)).
Defined.

Example allow_list_PDF_accepts_report :
  v_isValid (validateFileType (mkAdminConfig 5 "image/*; .PDF ,docx") []
               (mkFile "Report.pdf" 10 "application/pdf" ReadNull) []) = true.
Proof. reflexivity. Qed.

(** ** Rules for what handlers emit and how they end *)

Section Emits.

Variable P : Effect -> Prop.

Lemma emits_ret {A} (a : A) : emits P (ret a).
Proof. intros s. constructor. Qed.

Lemma emits_throw {A} e : emits P (@throw A e).
Proof. intros s. constructor. Qed.

Lemma emits_never {A} : emits P (@never A).
Proof. intros s. constructor. Qed.

Lemma emits_get : emits P get.
Proof. intros s. constructor. Qed.

Lemma emits_modify f : emits P (modify f).
Proof. intros s. constructor. Qed.

Lemma emits_effect e : P e -> emits P (effect e).
Proof. intros H s. cbn. now repeat constructor. Qed.

Lemma emits_bind {A B} (m : M A) (k : A -> M B) :
  emits P m -> (forall a, emits P (k a)) -> emits P (bind m k).
Proof.
  intros Hm Hk s. rewrite bind_run. specialize (Hm s).
  destruct (out_completion (m s)) as [a | e |]; cbn; try exact Hm.
  apply List.Forall_app. split; [exact Hm | apply Hk].
Qed.

Lemma emits_tryCatch {A} (m : M A) h :
  emits P m -> (forall e, emits P (h e)) -> emits P (tryCatch m h).
Proof.
  intros Hm Hh s. unfold tryCatch. specialize (Hm s).
  destruct (m s) as [s1 t1 [a | e |]]; cbn in *; try exact Hm.
  specialize (Hh e s1). destruct (h e s1) as [s2 t2 c]; cbn in *.
  apply List.Forall_app. now split.
Qed.

Lemma emits_tryFinally {A} (m : M A) f :
  emits P m -> emits P f -> emits P (tryFinally m f).
Proof.
  intros Hm Hf s. unfold tryFinally. specialize (Hm s).
  destruct (m s) as [s1 t1 [a | e |]]; cbn in *; try exact Hm;
    specialize (Hf s1); destruct (f s1) as [s2 t2 [[] | e2 |]]; cbn in *;
    apply List.Forall_app; now split.
Qed.

Lemma emits_forEach {A} (xs : list A) f :
  (forall x, emits P (f x)) -> emits P (forEach xs f).
Proof.
  intros H. induction xs as [| x xs IH]; cbn.
  - apply emits_ret.
  - apply emits_bind; [apply H | intros _; exact IH].
Qed.

Lemma emits_when b m : emits P m -> emits P (when b m).
Proof. intros H. destruct b; [exact H | apply emits_ret]. Qed.

Lemma emits_fetch {B} url request (o : FetchOutcome B) :
  P (Fetch url request) -> emits P (fetch url request o).
Proof.
  intros H. unfold fetch. apply emits_bind; [now apply emits_effect | intros _].
  destruct o; [apply emits_ret | apply emits_throw | apply emits_never].
Qed.

Lemma emits_parseJson {B} (r : Response B) : emits P (parseJson r).
Proof. unfold parseJson. destruct (json r); [apply emits_ret | apply emits_throw]. Qed.

Lemma emits_promiseAll {A} (tasks : list (M A)) :
  Forall (emits P) tasks -> emits P (promiseAll tasks).
Proof.
  induction 1 as [| m rest Hm _ IH]; intros s; cbn; [constructor |].
  specialize (Hm s). destruct (m s) as [s1 t1 c1]. cbn in Hm.
  specialize (IH s1). destruct (promiseAll rest s1) as [s2 t2 c2]. cbn in *.
  apply List.Forall_app. now split.
Qed.

End Emits.

Ltac emits_step :=
  lazymatch goal with
  | |- emits _ (ret _) => apply emits_ret
  | |- emits _ (throw _) => apply emits_throw
  | |- emits _ never => apply emits_never
  | |- emits _ get => apply emits_get
  | |- emits _ (modify _) => apply emits_modify
  | |- emits _ (effect _) => apply emits_effect
  | |- emits _ (fetch _ _ _) => apply emits_fetch
  | |- emits _ (parseJson _) => apply emits_parseJson
  | |- emits _ (bind _ _) => apply emits_bind; [| intros ?]
  | |- emits _ (tryCatch _ _) => apply emits_tryCatch; [| intros ?]
  | |- emits _ (tryFinally _ _) => apply emits_tryFinally
  | |- emits _ (forEach _ _) => apply emits_forEach; intros ?
  | |- emits _ (when _ _) => apply emits_when
  | |- emits _ (if ?b then _ else _) => destruct b
  | |- emits _ (match ?x with _ => _ end) => destruct x
  end.
Ltac emits_all := repeat emits_step.

Section Endings.

Lemma neverRejects_ret {A} (a : A) : neverRejects (ret a).
Proof. intros s e. discriminate. Qed.

Lemma neverRejects_never {A} : neverRejects (@never A).
Proof. intros s e. discriminate. Qed.

Lemma neverRejects_get : neverRejects get.
Proof. intros s e. discriminate. Qed.

Lemma neverRejects_modify f : neverRejects (modify f).
Proof. intros s e. discriminate. Qed.

Lemma neverRejects_effect x : neverRejects (effect x).
Proof. intros s e. discriminate. Qed.

Lemma neverRejects_bind {A B} (m : M A) (k : A -> M B) :
  neverRejects m -> (forall a, neverRejects (k a)) -> neverRejects (bind m k).
Proof.
  intros Hm Hk s e. rewrite bind_run. specialize (Hm s).
  destruct (out_completion (m s)) as [a | e' |]; cbn.
  - apply Hk.
  - now destruct (Hm e').
  - discriminate.
Qed.

(** A [catch] block that never rejects makes the whole [try] never
    reject, whatever the body does. *)
Lemma neverRejects_tryCatch {A} (m : M A) h :
  (forall e, neverRejects (h e)) -> neverRejects (tryCatch m h).
Proof.
  intros Hh s e. unfold tryCatch.
  destruct (m s) as [s1 t1 [a | e' |]]; cbn; try discriminate.
  specialize (Hh e' s1 e). destruct (h e' s1) as [s2 t2 c]. exact Hh.
Qed.

Lemma neverRejects_tryFinally {A} (m : M A) f :
  neverRejects m -> neverRejects f -> neverRejects (tryFinally m f).
Proof.
  intros Hm Hf s e. unfold tryFinally. specialize (Hm s).
  destruct (m s) as [s1 t1 [a | e' |]]; cbn in *.
  - specialize (Hf s1). destruct (f s1) as [s2 t2 [[] | e2 |]]; cbn in *;
      try discriminate. now destruct (Hf e2).
  - now destruct (Hm e').
  - discriminate.
Qed.

Lemma neverRejects_forEach {A} (xs : list A) f :
  (forall x, neverRejects (f x)) -> neverRejects (forEach xs f).
Proof.
  intros H. induction xs as [| x xs IH]; cbn.
  - apply neverRejects_ret.
  - apply neverRejects_bind; [apply H | intros _; exact IH].
Qed.

Lemma neverRejects_when b m : neverRejects m -> neverRejects (when b m).
Proof. intros H. destruct b; [exact H | apply neverRejects_ret]. Qed.

Lemma settles_ret {A} (a : A) : settles (ret a).
Proof. intros s. discriminate. Qed.

Lemma settles_throw {A} e : settles (@throw A e).
Proof. intros s. discriminate. Qed.

Lemma settles_get : settles get.
Proof. intros s. discriminate. Qed.

Lemma settles_modify f : settles (modify f).
Proof. intros s. discriminate. Qed.

Lemma settles_effect x : settles (effect x).
Proof. intros s. discriminate. Qed.

Lemma settles_bind {A B} (m : M A) (k : A -> M B) :
  settles m -> (forall a, settles (k a)) -> settles (bind m k).
Proof.
  intros Hm Hk s. rewrite bind_run. specialize (Hm s).
  destruct (out_completion (m s)) as [a | e' |]; cbn.
  - apply Hk.
  - discriminate.
  - contradiction.
Qed.

Lemma settles_tryCatch {A} (m : M A) h :
  settles m -> (forall e, settles (h e)) -> settles (tryCatch m h).
Proof.
  intros Hm Hh s. unfold tryCatch. specialize (Hm s).
  destruct (m s) as [s1 t1 [a | e' |]]; cbn in *; try discriminate; try contradiction.
  specialize (Hh e' s1). destruct (h e' s1) as [s2 t2 c]. exact Hh.
Qed.

Lemma settles_tryFinally {A} (m : M A) f :
  settles m -> settles f -> settles (tryFinally m f).
Proof.
  intros Hm Hf s. unfold tryFinally. specialize (Hm s).
  destruct (m s) as [s1 t1 [a | e' |]]; cbn in *; try contradiction;
    specialize (Hf s1); destruct (f s1) as [s2 t2 [[] | e2 |]]; cbn in *;
    try discriminate; contradiction.
Qed.

Lemma settles_forEach {A} (xs : list A) f :
  (forall x, settles (f x)) -> settles (forEach xs f).
Proof.
  intros H. induction xs as [| x xs IH]; cbn.
  - apply settles_ret.
  - apply settles_bind; [apply H | intros _; exact IH].
Qed.

Lemma settles_when b m : settles m -> settles (when b m).
Proof. intros H. destruct b; [exact H | apply settles_ret]. Qed.

Lemma settles_fetch {B} url request (o : FetchOutcome B) :
  answered o -> settles (fetch url request o).
Proof.
  intros H. unfold fetch. apply settles_bind; [apply settles_effect | intros _].
  destruct o; [apply settles_ret | apply settles_throw | now destruct H].
Qed.

Lemma settles_parseJson {B} (r : Response B) : settles (parseJson r).
Proof. unfold parseJson. destruct (json r); [apply settles_ret | apply settles_throw]. Qed.

Lemma settles_promiseAll {A} (tasks : list (M A)) :
  Forall settles tasks -> settles (promiseAll tasks).
Proof.
  induction 1 as [| m rest Hm _ IH]; intros s; cbn; [discriminate |].
  specialize (Hm s). destruct (m s) as [s1 t1 c1]. cbn in Hm.
  specialize (IH s1). destruct (promiseAll rest s1) as [s2 t2 c2]. cbn in *.
  destruct c1, c2; try discriminate; contradiction.
Qed.

(** What neither rejects nor waits returns. *)
Lemma returns_unit (m : M unit) s :
  neverRejects m -> settles m -> out_completion (m s) = Returned tt.
Proof.
  intros Hr Hs. specialize (Hr s). specialize (Hs s).
  destruct (out_completion (m s)) as [[] | e |]; [reflexivity | now destruct (Hr e) | contradiction].
Qed.

End Endings.

Ltac rejects_step :=
  lazymatch goal with
  | |- neverRejects (ret _) => apply neverRejects_ret
  | |- neverRejects never => apply neverRejects_never
  | |- neverRejects get => apply neverRejects_get
  | |- neverRejects (modify _) => apply neverRejects_modify
  | |- neverRejects (effect _) => apply neverRejects_effect
  | |- neverRejects (bind _ _) => apply neverRejects_bind; [| intros ?]
  | |- neverRejects (tryCatch _ _) => apply neverRejects_tryCatch; intros ?
  | |- neverRejects (tryFinally _ _) => apply neverRejects_tryFinally
  | |- neverRejects (forEach _ _) => apply neverRejects_forEach; intros ?
  | |- neverRejects (when _ _) => apply neverRejects_when
  | |- neverRejects (if ?b then _ else _) => destruct b
  | |- neverRejects (match ?x with _ => _ end) => destruct x
  end.
Ltac rejects_all := repeat rejects_step.

Ltac settles_step :=
  lazymatch goal with
  | |- settles (ret _) => apply settles_ret
  | |- settles (throw _) => apply settles_throw
  | |- settles get => apply settles_get
  | |- settles (modify _) => apply settles_modify
  | |- settles (effect _) => apply settles_effect
  | |- settles (parseJson _) => apply settles_parseJson
  | |- settles (bind _ _) => apply settles_bind; [| intros ?]
  | |- settles (tryCatch _ _) => apply settles_tryCatch; [| intros ?]
  | |- settles (tryFinally _ _) => apply settles_tryFinally
  | |- settles (forEach _ _) => apply settles_forEach; intros ?
  | |- settles (when _ _) => apply settles_when
  | |- settles (if ?b then _ else _) => destruct b
  | |- settles (match ?x with _ => _ end) => destruct x
  end.
Ltac settles_all := repeat settles_step.

(** ** No handler rejects *)

Lemma neverRejects_loadExistingFilesWith props w b meanwhile :
  neverRejects meanwhile -> neverRejects (loadExistingFilesWith props w b meanwhile).
Proof.
  intros H. unfold loadExistingFilesWith.
  destruct (negb (isCloudFlowConfigured props)).
  - rejects_all. exact H.
  - rejects_all.
Qed.

Lemma neverRejects_processFailed files e : neverRejects (processFailed files e).
Proof. unfold processFailed, stopAll, markFailed. rejects_all. Qed.

Lemma neverRejects_processFiles props w files : neverRejects (processFiles props w files).
Proof.
  unfold processFiles. destruct files; [apply neverRejects_ret |].
  apply neverRejects_bind; [apply neverRejects_get | intros s0].
  apply neverRejects_tryCatch. intros e. apply neverRejects_processFailed.
Qed.

Lemma neverRejects_step props a : neverRejects (step props a).
Proof.
  destruct a; cbn [step].
  - apply neverRejects_modify.
  - unfold removeFile. rejects_all.
  - unfold clearNewFiles. rejects_all.
  - unfold handleUploadAll. rejects_all. apply neverRejects_processFiles.
  - apply neverRejects_processFiles.
  - unfold loadExistingFiles, loadExistingFilesFrom. rejects_all.
    apply neverRejects_loadExistingFilesWith, neverRejects_ret.
  - unfold handleDeleteExistingFile. rejects_all.
  - unfold handleViewExistingFile. rejects_all.
  - unfold contextChangeEffect. rejects_all.
    apply neverRejects_loadExistingFilesWith. rejects_all.
  - apply neverRejects_modify.
  - apply neverRejects_modify.
  - apply neverRejects_modify.
  - apply neverRejects_modify.
Qed.

(** ** Every handler returns when its requests are answered *)

Lemma settles_loadExistingFilesWith props w b meanwhile :
  answered (w_list w) -> settles meanwhile ->
  settles (loadExistingFilesWith props w b meanwhile).
Proof.
  intros Hw H. unfold loadExistingFilesWith.
  destruct (negb (isCloudFlowConfigured props)).
  - settles_all. exact H.
  - destruct (w_list w) as [r | m |] eqn:E; [| | now destruct Hw]; settles_all; exact H.
Qed.

Lemma settles_postFile props w f :
  answered (uploadOutcome (w_upload w f)) -> settles (postFile props w f).
Proof.
  intros H. unfold postFile, readAsBase64. settles_all.
  all: now apply settles_fetch.
Qed.

Lemma settles_uploadOne props w f :
  answered (uploadOutcome (w_upload w f)) -> settles (uploadOne props w f).
Proof. intros H. unfold uploadOne. settles_all. now apply settles_postFile. Qed.

Lemma settles_uploadFirst props w f :
  answered (uploadOutcome (w_upload w f)) -> settles (uploadFirst props w f).
Proof. intros H. unfold uploadFirst. settles_all. now apply settles_postFile. Qed.

Lemma settles_uploadEach props w files :
  (forall f, answered (uploadOutcome (w_upload w f))) ->
  forall acc, settles (uploadEach props w files acc).
Proof.
  intros H. induction files as [| f files IH]; intros acc; cbn [uploadEach].
  - apply settles_ret.
  - apply settles_bind; [now apply settles_uploadOne | intros r; apply IH].
Qed.

Lemma settles_uploadToCloudFlow props w files :
  (forall f, answered (uploadOutcome (w_upload w f))) ->
  settles (uploadToCloudFlow props w files).
Proof.
  intros H. unfold uploadToCloudFlow, markUploading. settles_all.
  - now apply settles_uploadEach.
  - now apply settles_uploadFirst.
Qed.

Lemma settles_processFiles props w files :
  answers w -> settles (processFiles props w files).
Proof.
  intros (Hl & Hu & _). unfold processFiles, processRemote, processLocal, processFailed,
    processFilesAsJSON, stopAll, markFailed, markCompleted, loadExistingFilesFrom.
  settles_all.
  all: try (now apply settles_uploadToCloudFlow).
  all: try (apply settles_loadExistingFilesWith; [exact Hl | apply settles_ret]).
  all: apply settles_promiseAll; apply List.Forall_forall; intros m Hm;
    apply List.in_map_iff in Hm; destruct Hm as (f' & <- & _);
    unfold readTask, readFile; settles_all.
Qed.

Lemma settles_step props a :
  (forall w, worldOf a = Some w -> answers w) -> settles (step props a).
Proof.
  intros H. destruct a; cbn [step]; try apply settles_modify.
  - unfold removeFile. settles_all.
  - unfold clearNewFiles. settles_all.
  - unfold handleUploadAll. settles_all. now apply settles_processFiles, H.
  - now apply settles_processFiles, H.
  - destruct (H w eq_refl) as (Hl & _).
    unfold loadExistingFiles, loadExistingFilesFrom. settles_all.
    apply settles_loadExistingFilesWith; [exact Hl | apply settles_ret].
  - destruct (H w eq_refl) as (Hl & _ & Hd & _).
    unfold handleDeleteExistingFile, loadExistingFilesFrom. settles_all.
    all: try (apply settles_fetch, Hd).
    all: apply settles_loadExistingFilesWith; [exact Hl | apply settles_ret].
  - destruct (H w eq_refl) as (_ & _ & _ & Hd).
    unfold handleViewExistingFile. settles_all.
    all: apply settles_fetch, Hd.
  - destruct (H w eq_refl) as (Hl & _).
    unfold contextChangeEffect. settles_all.
    apply settles_loadExistingFilesWith; [exact Hl | settles_all].
Qed.

(** X1. No operation of the component ever rejects: whatever the state, the
    props and the network do, a handler returns or is still waiting for an
    answer; every failure ends in the state, an event, a log line or an
    alert. And once every request it sends is answered (by a response or by
    a network error), the handler returns. *)
Theorem handlers_never_reject :
  forall (props : Props) (a : Action) (s : St),
    (forall e, out_completion (step props a s) <> Thrown e)
    /\ ((forall w, worldOf a = Some w -> answers w) ->
        out_completion (step props a s) = Returned tt).
Proof.
  intros props a s. split.
  - intros e. apply neverRejects_step.
  - intros H. apply returns_unit; [apply neverRejects_step | now apply settles_step].
Qed.

Lemma handlers_never_reject_witness :
  answers Demo.answering
  /\ out_completion
       (step Sample.remoteMultiProps
          (ProcessFiles Demo.answering [Sample.pdf "a.pdf" 1])
          (Sample.offered [Sample.pdf "a.pdf" 1])) = Returned tt.
Proof.
  assert (H : answers Demo.answering) by (repeat split; intros; discriminate).
  split; [exact H |].
  apply (proj2 (handlers_never_reject Sample.remoteMultiProps
                  (ProcessFiles Demo.answering [Sample.pdf "a.pdf" 1])
                  (Sample.offered [Sample.pdf "a.pdf" 1]))).
  intros w Hw. injection Hw as <-. exact H.
Defined.

(** ** Selecting files *)

Lemma validateFileType_error config fileStates0 f batchFiles :
  v_isValid (validateFileType config fileStates0 f batchFiles) = true <->
  v_error (validateFileType config fileStates0 f batchFiles) = None.
Proof.
  unfold validateFileType.
  destruct (negb (typeCheckPasses _ _)); cbn; [split; discriminate |].
  destruct (negb (_ =? 0) && _); cbn; [| tauto].
  destruct (_ <? _); cbn; [split; discriminate | tauto].
Qed.

Lemma fold_addFileToBatch_fresh s files acc :
  exists new, fold_left (addFileToBatch s) files acc = acc ++ new
              /\ List.map file new = files
              /\ Forall freshEntry new.
Proof.
  revert acc. induction files as [| f files IH]; intros acc; cbn [fold_left].
  - exists []. split; [now rewrite app_nil_r | split; constructor].
  - destruct (IH (addFileToBatch s acc f)) as (new & Hnew & Hmap & Hall).
    rewrite Hnew. unfold addFileToBatch. cbv zeta. rewrite <- app_assoc.
    eexists. split; [reflexivity |].
    split; [cbn; now rewrite Hmap |].
    constructor; [| exact Hall].
    repeat split; cbn; try apply validateFileType_error.
Qed.

(** X2. [addFilesToState] appends exactly one entry per offered file, in the
    order offered, after the entries already there, and appends the files
    to the selected files; it shows the list and touches neither the
    existing files, the batch nor the configuration. Every new entry starts
    with progress 0 and no url; it is [pending] when valid and [invalid]
    otherwise, and it carries an error message exactly when it is
    invalid. *)
Theorem addFilesToState_appends_one_entry_per_file :
  forall (files : list File) (s : St),
    let s' := addFilesToState files s in
    (exists new,
        fileStates s' = fileStates s ++ new
        /\ List.map file new = files
        /\ Forall freshEntry new)
    /\ selectedFiles s' = selectedFiles s ++ files
    /\ showFileList s' = true
    /\ existingFiles s' = existingFiles s
    /\ cumulativeFilesJSON s' = cumulativeFilesJSON s
    /\ adminConfig s' = adminConfig s.
Proof.
  intros files s s'. split; [| repeat split].
  destruct (fold_addFileToBatch_fresh s files []) as (new & Hnew & Hmap & Hall).
  exists new. subst s'. rewrite addFilesToState_fileStates, Hnew. now repeat split.
Qed.

Lemma batchTotal_none new :
  List.existsb isValid new = false -> batchTotal new = 0.
Proof.
  intros H. unfold batchTotal.
  replace (List.filter isValid new) with (@nil IFileState); [reflexivity |].
  symmetry. induction new as [| e new IH]; [reflexivity |].
  cbn in *. apply orb_false_iff in H as [He Hn]. rewrite He. now apply IH.
Qed.

Lemma addFilesToState_within_limit files s :
  0 < maxTotalFileSizeMB (adminConfig s) ->
  pendingTotal s <= limitBytes s ->
  pendingTotal (addFilesToState files s) <= limitBytes (addFilesToState files s).
Proof.
  intros Hpos Hle. rewrite pendingTotal_addFilesToState.
  change (limitBytes (addFilesToState files s)) with (limitBytes s).
  destruct (List.existsb isValid (fold_left (addFileToBatch s) files [])) eqn:E.
  - now apply batch_within_limit.
  - rewrite (batchTotal_none _ E). lia.
Qed.

(** X3. With a positive size limit, selecting files never takes the counted
    total beyond the limit: if the total of the valid, non-failed entries is
    within the limit, it still is after any number of calls of
    [addFilesToState], whatever files are offered and in whatever order;
    the files that would exceed it are the ones marked invalid. *)
Theorem selections_stay_within_limit :
  forall (selections : list (list File)) (s : St),
    0 < maxTotalFileSizeMB (adminConfig s) ->
    getCurrentTotalFileSize s <= limitBytes s ->
    let s' := fold_left (fun st files => addFilesToState files st) selections s in
    getCurrentTotalFileSize s' <= limitBytes s
    /\ adminConfig s' = adminConfig s.
Proof.
  intros selections. induction selections as [| files rest IH]; intros s Hpos Hle.
  - cbn. now split.
  - cbn [fold_left]. cbv zeta.
    rewrite getCurrentTotalFileSize_pendingTotal in Hle.
    pose proof (addFilesToState_within_limit files s Hpos Hle) as H1.
    destruct (IH (addFilesToState files s)) as (H2 & H3).
    + exact Hpos.
    + now rewrite getCurrentTotalFileSize_pendingTotal.
    + split; [exact H2 | exact H3].
Qed.

Lemma selections_stay_within_limit_witness :
  0 < maxTotalFileSizeMB (adminConfig (Sample.emptyState 10 "*"))
  /\ getCurrentTotalFileSize (Sample.emptyState 10 "*")
       <= limitBytes (Sample.emptyState 10 "*")
  /\ getCurrentTotalFileSize
       (fold_left (fun st files => addFilesToState files st)
          [[Sample.pdf "a.pdf" 6; Sample.pdf "b.pdf" 6]; [Sample.pdf "c.pdf" 4]]
          (Sample.emptyState 10 "*"))
       <= limitBytes (Sample.emptyState 10 "*").
Proof.
  assert (H1 : 0 < maxTotalFileSizeMB (adminConfig (Sample.emptyState 10 "*")))
    by reflexivity.
  assert (H2 : getCurrentTotalFileSize (Sample.emptyState 10 "*")
               <= limitBytes (Sample.emptyState 10 "*")) by (vm_compute; discriminate).
  split; [exact H1 |]. split; [exact H2 |].
  exact (proj1 (selections_stay_within_limit
                  [[Sample.pdf "a.pdf" 6; Sample.pdf "b.pdf" 6]; [Sample.pdf "c.pdf" 4]]
                  (Sample.emptyState 10 "*") H1 H2)).
Defined.

Example selection_over_the_limit :
  List.map (fun e => (name (file e), status e))
    (fileStates
       (fold_left (fun st files => addFilesToState files st)
          [[Sample.pdf "a.pdf" 6; Sample.pdf "b.pdf" 6]; [Sample.pdf "c.pdf" 4]]
          (Sample.emptyState 10 "*")))
  = [("a.pdf", pending); ("b.pdf", invalid); ("c.pdf", pending)].
Proof. vm_compute. reflexivity. Qed.

(** ** An invariant of the two lists of new files *)

Lemma keeps_refl I s : keeps I s s.
Proof. intros H. exact H. Qed.

Lemma keeps_trans I s1 s2 s3 : keeps I s1 s2 -> keeps I s2 s3 -> keeps I s1 s3.
Proof. unfold keeps. tauto. Qed.

(** Two updates in a row count as one. *)
Lemma respects_modify_twice {X} (proj : St -> X) (R : X -> X -> Prop) f g :
  (forall s, R (proj s) (proj (g (f s)))) ->
  respects proj R (modify f >> modify g).
Proof. intros H s. apply H. Qed.

Lemma respects_modify_twice_then {X A} (proj : St -> X) (R : X -> X -> Prop) f g
    (k : M A) :
  (forall x y z, R x y -> R y z -> R x z) ->
  (forall s, R (proj s) (proj (g (f s)))) ->
  respects proj R k ->
  respects proj R (modify f >> modify g >> k).
Proof.
  intros Ht H Hk s. unfold bind at 1 2. cbn.
  specialize (Hk (g (f s))). destruct (k (g (f s))) as [s2 t2 c]. cbn in *.
  exact (Ht _ _ _ (H s) Hk).
Qed.

Ltac keeps_rel := first [ exact (keeps_refl _) | exact (keeps_trans _) ].

Ltac keeps_step :=
  lazymatch goal with
  | |- respects _ _ (ret _) => apply respects_ret; keeps_rel
  | |- respects _ _ (throw _) => apply respects_throw; keeps_rel
  | |- respects _ _ never => apply respects_never; keeps_rel
  | |- respects _ _ (effect _) => apply respects_effect; keeps_rel
  | |- respects _ _ get => apply respects_get; keeps_rel
  | |- respects _ _ (fetch _ _ _) => apply respects_fetch; keeps_rel
  | |- respects _ _ (parseJson _) => apply respects_parseJson; keeps_rel
  | |- respects _ _ (bind (modify _) (fun _ => modify _)) =>
      apply respects_modify_twice; intros ?
  | |- respects _ _ (bind (modify _) (fun _ => bind (modify _) _)) =>
      apply respects_modify_twice_then; [keeps_rel | intros ? |]
  | |- respects _ _ (bind _ _) => apply respects_bind; [keeps_rel | | intros ?]
  | |- respects _ _ (tryCatch _ _) => apply respects_tryCatch; [keeps_rel | | intros ?]
  | |- respects _ _ (tryFinally _ _) => apply respects_tryFinally; [keeps_rel | |]
  | |- respects _ _ (forEach _ _) => apply respects_forEach; [keeps_rel | keeps_rel | intros ?]
  | |- respects _ _ (when _ _) => apply respects_when; [keeps_rel |]
  | |- respects _ _ (modify _) => apply respects_modify; intros ?
  | |- respects _ _ (if ?b then _ else _) => destruct b
  | |- respects _ _ (match ?x with _ => _ end) => destruct x
  end.
Ltac keeps_all := repeat keeps_step.

Lemma mirrors_updateFileState n u s : keeps mirrors s (updateFileState n u s).
Proof.
  unfold keeps, mirrors. intros H. cbn. now rewrite map_file_update.
Qed.

Lemma mirrors_tick n r s : keeps mirrors s (tick n r s).
Proof.
  destruct (tick_cases n r s) as [[_ ->] | (sim & _ & ->)]; [apply keeps_refl |].
  unfold keeps, mirrors. intros H. cbn. now rewrite map_file_update.
Qed.

Lemma mirrors_runTicks n rs s : keeps mirrors s (runTicks n rs s).
Proof.
  unfold runTicks. revert s. induction rs as [| r rs IH]; intros s; cbn.
  - apply keeps_refl.
  - eapply keeps_trans; [apply mirrors_tick | apply IH].
Qed.

Lemma map_file_filter (p : string -> bool) l :
  List.map file (List.filter (fun fs => p (name (file fs))) l)
  = List.filter (fun f => p (name f)) (List.map file l).
Proof.
  induction l as [| fs l IH]; cbn; [reflexivity |].
  destruct (p (name (file fs))); cbn; now rewrite IH.
Qed.

Lemma mirrors_filter (p : string -> bool) s :
  keeps mirrors s
    (setSelectedFiles (List.filter (fun f => p (name f)))
       (setFileStates (List.filter (fun fs => p (name (file fs)))) s)).
Proof.
  unfold keeps, mirrors. intros H. cbn. now rewrite map_file_filter, H.
Qed.

Ltac mirrors_easy :=
  first [ apply mirrors_updateFileState
        | apply mirrors_runTicks
        | apply mirrors_tick
        | (unfold keeps, mirrors; intros ?; cbn; assumption)
        | (unfold keeps, mirrors; intros ?; reflexivity) ].


Lemma mirrors_loadExistingFilesWith props w b meanwhile :
  keepsMirror meanwhile -> keepsMirror (loadExistingFilesWith props w b meanwhile).
Proof.
  intros H. unfold loadExistingFilesWith.
  destruct (negb (isCloudFlowConfigured props)); keeps_all; try exact H; mirrors_easy.
Qed.

Lemma mirrors_postFile props w f : keepsMirror (postFile props w f).
Proof. unfold postFile, readAsBase64. keeps_all. Qed.

Lemma mirrors_uploadOne props w f : keepsMirror (uploadOne props w f).
Proof.
  unfold uploadOne. keeps_all; try apply mirrors_postFile; try mirrors_easy.
  eapply keeps_trans; [| apply mirrors_runTicks]. mirrors_easy.
Qed.

Lemma mirrors_uploadFirst props w f : keepsMirror (uploadFirst props w f).
Proof.
  unfold uploadFirst. keeps_all; try apply mirrors_postFile; try mirrors_easy.
  all: try (eapply keeps_trans; [| apply mirrors_runTicks]; mirrors_easy).
  all: eapply keeps_trans; [| apply mirrors_updateFileState]; mirrors_easy.
Qed.

Lemma mirrors_uploadEach props w files :
  forall acc, keepsMirror (uploadEach props w files acc).
Proof.
  induction files as [| f files IH]; intros acc; cbn [uploadEach].
  - apply respects_ret; keeps_rel.
  - apply respects_bind; [keeps_rel | apply mirrors_uploadOne | intros r; apply IH].
Qed.

Lemma mirrors_uploadToCloudFlow props w files :
  keepsMirror (uploadToCloudFlow props w files).
Proof.
  unfold uploadToCloudFlow, markUploading. keeps_all; try mirrors_easy.
  - apply mirrors_uploadEach.
  - apply mirrors_uploadFirst.
Qed.

Lemma mirrors_processRemote props w b files : keepsMirror (processRemote props w b files).
Proof.
  unfold processRemote, loadExistingFilesFrom. keeps_all.
  - apply mirrors_uploadToCloudFlow.
  - apply mirrors_loadExistingFilesWith. apply respects_ret; keeps_rel.
  - eapply (mirrors_filter (fun n => negb (List.existsb (String.eqb n) _))).
Qed.

Lemma mirrors_processLocal props c files : keepsMirror (processLocal props c files).
Proof.
  unfold processLocal, processFilesAsJSON, markCompleted. keeps_all; try mirrors_easy.
  - apply respects_promiseAll; [keeps_rel | keeps_rel |].
    apply List.Forall_forall. intros m Hm.
    apply List.in_map_iff in Hm. destruct Hm as (f' & <- & _).
    unfold readTask, readFile. keeps_all.
  - apply (mirrors_filter
             (fun n => negb (List.existsb (fun f => String.eqb (name f) n) files))).
Qed.

Lemma mirrors_processFailed files e : keepsMirror (processFailed files e).
Proof. unfold processFailed, stopAll, markFailed. keeps_all; mirrors_easy. Qed.

Lemma mirrors_processFiles props w files : keepsMirror (processFiles props w files).
Proof.
  unfold processFiles. keeps_all; try mirrors_easy.
  all: first [ apply mirrors_processRemote | apply mirrors_processLocal
             | apply mirrors_processFailed ].
Qed.

Lemma mirrors_removeFile props fileName : keepsMirror (removeFile props fileName).
Proof.
  intros s H. unfold removeFile. run.
  destruct (lockedEntry fileName s); run; [exact H |].
  destruct (_ && _); run; destruct (recordUidIsEmpty props); run;
    unfold mirrors; cbn;
    rewrite (map_file_filter (fun n => negb (String.eqb n fileName))), H; reflexivity.
Qed.

Lemma mirrors_clearNewFiles props : keepsMirror (clearNewFiles props).
Proof.
  intros s H. unfold clearNewFiles. run.
  destruct (recordUidIsEmpty props); run; destruct (_ =? _)%nat; run; reflexivity.
Qed.

Lemma mirrors_step props a : keepsMirror (step props a).
Proof.
  destruct a; cbn [step].
  - intros s H. unfold mirrors in *. cbn.
    destruct (fold_addFileToBatch_fresh s files []) as (new & -> & Hmap & _).
    cbn. now rewrite List.map_app, Hmap, H.
  - apply mirrors_removeFile.
  - apply mirrors_clearNewFiles.
  - unfold handleUploadAll. keeps_all. apply mirrors_processFiles.
  - apply mirrors_processFiles.
  - unfold loadExistingFiles, loadExistingFilesFrom. keeps_all.
    apply mirrors_loadExistingFilesWith. apply respects_ret; keeps_rel.
  - unfold handleDeleteExistingFile, loadExistingFilesFrom. keeps_all; try mirrors_easy.
    all: apply mirrors_loadExistingFilesWith; apply respects_ret; keeps_rel.
  - unfold handleViewExistingFile. keeps_all.
  - unfold contextChangeEffect. keeps_all; try mirrors_easy.
    apply mirrors_loadExistingFilesWith. keeps_all; mirrors_easy.
  - apply respects_modify. intros s. apply mirrors_tick.
  - apply respects_modify. intros s H. exact H.
  - apply respects_modify. intros s H. exact H.
  - apply respects_modify. intros s H. exact H.
Qed.

(** X4. The selected files always mirror the entries: if [selectedFiles] is
    the list of the files of [fileStates], in order, it still is after any
    sequence of operations of the component (selecting, removing, clearing,
    uploading, listing, deleting, viewing, a context change, timer ticks,
    admin edits), whatever the network answers, also at a point where an
    operation is still waiting for an answer. It holds of the empty
    component. *)
Theorem selected_files_mirror_entries :
  forall (props : Props) (actions : list Action) (s : St),
    mirrors s -> mirrors (after props actions s).
Proof.
  intros props actions. unfold after.
  induction actions as [| a actions IH]; intros s H; cbn [fold_left]; [exact H |].
  apply IH. exact (mirrors_step props a s H).
Qed.

Lemma selected_files_mirror_entries_witness :
  mirrors (Sample.emptyState 10 "*")
  /\ mirrors
       (after Sample.localProps
          [AddFiles [Sample.pdf "a.pdf" 1; Sample.pdf "b.pdf" 2];
           RemoveFile "a.pdf"; UploadAll Demo.answering]
          (Sample.emptyState 10 "*")).
Proof.
  assert (H : mirrors (Sample.emptyState 10 "*")) by reflexivity.
  split; [exact H |].
  exact (selected_files_mirror_entries Sample.localProps
           [AddFiles [Sample.pdf "a.pdf" 1; Sample.pdf "b.pdf" 2];
            RemoveFile "a.pdf"; UploadAll Demo.answering]
           (Sample.emptyState 10 "*") H).
Defined.

(** ** Updating entries by name *)

Lemma map_update_absent n u l :
  ~ In n (List.map (fun fs => name (file fs)) l) ->
  List.map (fun fs => if String.eqb (name (file fs)) n then applyUpdates u fs else fs) l = l.
Proof.
  induction l as [| fs l IH]; intros H; cbn; [reflexivity |].
  destruct (String.eqb (name (file fs)) n) eqn:E.
  - apply String.eqb_eq in E. exfalso. apply H. now left.
  - rewrite IH; [reflexivity |]. intros C. apply H. now right.
Qed.

Lemma map_update_twice n u l :
  List.map (fun fs => if String.eqb (name (file fs)) n then applyUpdates u fs else fs)
    (List.map (fun fs => if String.eqb (name (file fs)) n then applyUpdates u fs else fs) l)
  = List.map (fun fs => if String.eqb (name (file fs)) n then applyUpdates u fs else fs) l.
Proof.
  rewrite List.map_map. apply List.map_ext. intros fs.
  destruct (String.eqb (name (file fs)) n) eqn:E; cbn; rewrite E; [| reflexivity].
  apply applyUpdates_twice.
Qed.

(** X5. [updateFileState] works by name and on the listed fields only: it
    never adds, removes or reorders entries and never changes an entry's
    file or validity; afterwards every entry under the name (all of them,
    when the name occurs more than once) holds each field the update gives,
    entries under other names are as before, a name that is not in the list
    makes the call a no-op, and applying the same update again changes
    nothing. *)
Theorem updateFileState_footprint :
  forall (fileName : string) (updates : Updates) (s : St),
    let s' := updateFileState fileName updates s in
    List.map file (fileStates s') = List.map file (fileStates s)
    /\ List.map isValid (fileStates s') = List.map isValid (fileStates s)
    /\ (forall fs, In fs (fileStates s') -> named fileName fs ->
          (forall p, u_progress updates = Some p -> progress fs = p)
          /\ (forall st, u_status updates = Some st -> status fs = st)
          /\ (forall v, u_url updates = Some v -> url fs = v)
          /\ (forall v, u_error updates = Some v -> error fs = v))
    /\ (forall fs, In fs (fileStates s) -> ~ named fileName fs -> In fs (fileStates s'))
    /\ (~ In fileName (List.map (fun fs => name (file fs)) (fileStates s)) -> s' = s)
    /\ updateFileState fileName updates s' = s'.
Proof.
  intros fileName updates s s'. subst s'.
  split; [apply map_file_update |].
  split.
  { cbn. rewrite List.map_map. apply List.map_ext. intros fs.
    destruct (String.eqb _ _); reflexivity. }
  split.
  { intros fs Hin Hn.
    destruct (updateFileState_same fileName updates s fs Hin Hn) as (fs0 & _ & _ & ->).
    repeat split; intros v Hv; cbn; rewrite Hv; reflexivity. }
  split.
  { intros fs Hin Hn. rewrite fileStates_updateFileState.
    apply List.in_map_iff. exists fs. split; [| exact Hin].
    destruct (String.eqb (name (file fs)) fileName) eqn:E; [| reflexivity].
    apply String.eqb_eq in E. contradiction. }
  split.
  { intros H. destruct s. unfold updateFileState, setFileStates. cbn in *.
    now rewrite map_update_absent. }
  destruct s. unfold updateFileState, setFileStates. cbn.
  now rewrite map_update_twice.
Qed.

Lemma updateFileState_footprint_witness :
  named "a.pdf" (mkFileState (Sample.pdf "a.pdf" 1) 100 completed None None true)
  /\ status (mkFileState (Sample.pdf "a.pdf" 1) 100 completed None None true) = completed.
Proof.
  split; [reflexivity |].
  refine (proj1 (proj2 (proj1 (proj2 (proj2
            (updateFileState_footprint "a.pdf"
               (mkUpdates (Some 100) (Some completed) None None)
               (Sample.offered [Sample.pdf "a.pdf" 1; Sample.pdf "b.pdf" 1])))) _ _ _))
          completed eq_refl).
  - left. reflexivity.
  - reflexivity.
Defined.

(** ** The simulated progress over time *)






(** ** Clearing and removing new files *)

(** X7. [clearNewFiles] has no status lock: whatever the entries are (also
    while one is uploading), it returns with no entry and no selected file
    left. It sends no request and never touches the existing files or the
    configuration. With no record identity bound it also empties the batch
    and reports the empty batch with [cumulativeFilesCleared]; with a
    record identity bound the batch stays and nothing is reported. The list
    is hidden exactly when there is no existing file. *)
Theorem clearNewFiles_clears_every_entry :
  forall (props : Props) (s : St),
    let o := clearNewFiles props s in
    out_completion o = Returned tt
    /\ fileStates (out_state o) = []
    /\ selectedFiles (out_state o) = []
    /\ existingFiles (out_state o) = existingFiles s
    /\ adminConfig (out_state o) = adminConfig s
    /\ showFileList (out_state o) =
         (if (length (existingFiles s) =? 0)%nat then false else showFileList s)
    /\ cumulativeFilesJSON (out_state o) =
         (if recordUidIsEmpty props then [] else cumulativeFilesJSON s)
    /\ out_trace o =
         (if recordUidIsEmpty props
          then [OnEvent (mkEvent (Some (JsonBatch [])) None None None
                           (Some cumulativeFilesCleared))]
          else []).
Proof.
  intros props s o. subst o. unfold clearNewFiles. run.
  destruct (recordUidIsEmpty props); run; destruct (_ =? _)%nat; run;
    repeat split; reflexivity.
Qed.

(** X8. When [removeFile] is not refused (the entry found under the name is
    pending or invalid, or there is none), it also takes the files of that
    name off the selected files, leaves the existing files alone, and hides
    the list exactly when no entry and no existing file is left. With no
    record identity bound it takes the entries of that name off the batch
    and reports the batch that is left with [fileRemovedFromCumulative],
    also when the batch held no such entry; with a record identity bound
    the batch stays and nothing is reported. *)
Theorem removeFile_updates_selection_and_batch :
  forall (props : Props) (fileName : string) (s : St),
    lockedEntry fileName s = None ->
    let o := removeFile props fileName s in
    selectedFiles (out_state o) =
      List.filter (fun f => negb (String.eqb (name f) fileName)) (selectedFiles s)
    /\ existingFiles (out_state o) = existingFiles s
    /\ showFileList (out_state o) =
         (if (length (fileStates (out_state o)) =? 0)%nat
             && (length (existingFiles s) =? 0)%nat
          then false else showFileList s)
    /\ cumulativeFilesJSON (out_state o) =
         (if recordUidIsEmpty props
          then List.filter (fun b => negb (String.eqb (b_name b) fileName))
                 (cumulativeFilesJSON s)
          else cumulativeFilesJSON s)
    /\ out_trace o =
         (if recordUidIsEmpty props
          then [OnEvent (mkEvent (Some (JsonBatch (cumulativeFilesJSON (out_state o))))
                           None None None (Some (fileRemovedFromCumulative fileName)))]
          else []).
Proof.
  intros props fileName s Hl o. subst o. unfold removeFile. run. rewrite Hl. run.
  destruct (_ && _) eqn:E; run; destruct (recordUidIsEmpty props); run;
    cbn in E; rewrite ?E; repeat split; reflexivity.
Qed.

Lemma removeFile_updates_selection_and_batch_witness :
  lockedEntry "a.pdf" (Sample.offered [Sample.pdf "a.pdf" 1; Sample.pdf "b.pdf" 1]) = None
  /\ selectedFiles
       (out_state (removeFile Sample.localProps "a.pdf"
                     (Sample.offered [Sample.pdf "a.pdf" 1; Sample.pdf "b.pdf" 1])))
     = List.filter (fun f => negb (String.eqb (name f) "a.pdf"))
         (selectedFiles (Sample.offered [Sample.pdf "a.pdf" 1; Sample.pdf "b.pdf" 1])).
Proof.
  assert (H : lockedEntry "a.pdf"
                (Sample.offered [Sample.pdf "a.pdf" 1; Sample.pdf "b.pdf" 1]) = None)
    by reflexivity.
  split; [exact H |].
  exact (proj1 (removeFile_updates_selection_and_batch Sample.localProps "a.pdf"
                  (Sample.offered [Sample.pdf "a.pdf" 1; Sample.pdf "b.pdf" 1]) H)).
Defined.

(** ** What an upload run sends *)

Ltac not_upload := intros ? C; discriminate C.

Lemma uploadsOnly_loadExistingFilesWith files props w b meanwhile :
  emits (uploadsOnly files) meanwhile ->
  emits (uploadsOnly files) (loadExistingFilesWith props w b meanwhile).
Proof.
  intros H. unfold loadExistingFilesWith.
  destruct (negb (isCloudFlowConfigured props)); emits_all; try exact H; not_upload.
Qed.

Lemma uploadsOnly_postFile files props w f :
  In f files -> emits (uploadsOnly files) (postFile props w f).
Proof.
  intros Hin. unfold postFile, readAsBase64. emits_all.
  all: intros n C; injection C as <-; now apply List.in_map.
Qed.

Lemma uploadsOnly_uploadOne files props w f :
  In f files -> emits (uploadsOnly files) (uploadOne props w f).
Proof. intros H. unfold uploadOne. emits_all. now apply uploadsOnly_postFile. Qed.

Lemma uploadsOnly_uploadFirst files props w f :
  In f files -> emits (uploadsOnly files) (uploadFirst props w f).
Proof. intros H. unfold uploadFirst. emits_all. now apply uploadsOnly_postFile. Qed.

Lemma uploadsOnly_uploadEach files props w some :
  incl some files -> forall acc, emits (uploadsOnly files) (uploadEach props w some acc).
Proof.
  induction some as [| f some IH]; intros Hincl acc; cbn [uploadEach].
  - apply emits_ret.
  - apply emits_bind.
    + apply uploadsOnly_uploadOne, Hincl. now left.
    + intros r. apply IH. intros x Hx. apply Hincl. now right.
Qed.

Lemma uploadsOnly_uploadToCloudFlow props w files :
  emits (uploadsOnly files) (uploadToCloudFlow props w files).
Proof.
  unfold uploadToCloudFlow, markUploading.
  destruct (negb (isCloudFlowConfigured props)); [apply emits_throw |].
  apply emits_bind; [emits_all | intros _].
  destruct (buttonAllowMultipleFiles props).
  - emits_all. apply uploadsOnly_uploadEach. apply incl_refl.
  - destruct files as [| f0 rest]; [apply emits_throw |].
    apply uploadsOnly_uploadFirst. now left.
Qed.

Lemma uploadsOnly_processFiles props w files :
  emits (uploadsOnly files) (processFiles props w files).
Proof.
  unfold processFiles. destruct files as [| f0 rest] eqn:E; [apply emits_ret |].
  rewrite <- E. clear E.
  unfold processRemote, processLocal, processFailed, processFilesAsJSON, stopAll,
    markFailed, markCompleted, loadExistingFilesFrom.
  emits_all; try not_upload.
  - apply uploadsOnly_uploadToCloudFlow.
  - apply uploadsOnly_loadExistingFilesWith, emits_ret.
  - apply emits_promiseAll. apply List.Forall_forall. intros m Hm.
    apply List.in_map_iff in Hm. destruct Hm as (f' & <- & _).
    unfold readTask, readFile. emits_all. not_upload.
Qed.

Lemma pendingValidFiles_spec s f :
  In f (pendingValidFiles s) ->
  exists fs, In fs (fileStates s) /\ file fs = f /\ status fs = pending /\ isValid fs = true.
Proof.
  unfold pendingValidFiles. intros H. apply List.in_map_iff in H.
  destruct H as (fs & <- & Hin). apply List.filter_In in Hin. destruct Hin as (Hin & Hp).
  apply andb_true_iff in Hp. destruct Hp as (Hst & Hv).
  exists fs. repeat split; try assumption. destruct (status fs); now try discriminate.
Qed.

(** X9. [handleUploadAll] processes exactly the entries that are pending and
    valid, in list order: it is [processFiles] on their files, and with no
    such entry it does nothing at all (no state change, no event, no
    request). So every upload request it sends carries the name of an entry
    that was pending and valid: an invalid, failed, uploading or completed
    file is never sent under a name of its own. *)
Theorem handleUploadAll_sends_only_pending_valid :
  forall (props : Props) (w : World) (s : St),
    let o := handleUploadAll props w s in
    o = processFiles props w (pendingValidFiles s) s
    /\ (pendingValidFiles s = [] -> o = mkOutcome s [] (Returned tt))
    /\ (forall e n,
          In e (out_trace o) -> uploadedName e = Some n ->
          exists fs, In fs (fileStates s) /\ name (file fs) = n
                     /\ status fs = pending /\ isValid fs = true).
Proof.
  intros props w s o.
  assert (Ho : o = processFiles props w (pendingValidFiles s) s).
  { subst o. unfold handleUploadAll. run. fold (pendingValidFiles s).
    destruct (pendingValidFiles s) as [| f0 rest] eqn:E.
    - reflexivity.
    - destruct (processFiles props w (f0 :: rest) s); reflexivity. }
  split; [exact Ho |]. split.
  - intros E. rewrite Ho, E. reflexivity.
  - intros e n Hin Hn. rewrite Ho in Hin.
    pose proof (uploadsOnly_processFiles props w (pendingValidFiles s) s) as Hall.
    rewrite List.Forall_forall in Hall. specialize (Hall e Hin n Hn).
    apply List.in_map_iff in Hall. destruct Hall as (f & <- & Hf).
    destruct (pendingValidFiles_spec s f Hf) as (fs & H1 & <- & H2 & H3).
    now exists fs.
Qed.

(** A pending valid file and an invalid one: the run sends the request of
    the first and none for the second. *)
Lemma handleUploadAll_sends_only_pending_valid_witness :
  let a := Sample.pdf "a.pdf" 1 in
  let t := mkFile "notes.txt" 10 "text/plain" (ReadOk "data:text/plain;base64,aGk=") in
  let s := addFilesToState [a; t] (Sample.emptyState 100 ".pdf") in
  let o := handleUploadAll Sample.remoteMultiProps Demo.answering s in
  List.map status (fileStates s) = [pending; invalid]
  /\ List.flat_map (fun e => match uploadedName e with Some n => [n] | None => [] end)
       (out_trace o) = ["a.pdf"]
  /\ Forall (fun e =>
               forall n, uploadedName e = Some n ->
                 exists fs, In fs (fileStates s) /\ name (file fs) = n
                            /\ status fs = pending /\ isValid fs = true)
       (out_trace o).
Proof.
  intros a t s o.
  split; [vm_compute; reflexivity |]. split; [vm_compute; reflexivity |].
  apply List.Forall_forall. intros e He n Hn.
  exact (proj2 (proj2 (handleUploadAll_sends_only_pending_valid Sample.remoteMultiProps
                         Demo.answering s)) e n He Hn).
Defined.

(** ** The status a run ends with, and the control's output *)

Lemma processFailed_run files e s :
  out_completion (processFailed files e s) = Returned tt
  /\ lastStatus (out_trace (processFailed files e s)) = Some Failed.
Proof.
  unfold processFailed. run. rewrite stopAll_run. run. rewrite markFailed_run. run.
  split; reflexivity.
Qed.

Lemma processRemote_last_status props w b files s :
  out_completion (processRemote props w b files s) = Returned tt ->
  lastStatus (out_trace (processRemote props w b files s)) = Some Completed
  \/ lastStatus (out_trace (processRemote props w b files s)) = Some Failed.
Proof.
  unfold processRemote. run.
  destruct (uploadToCloudFlow props w files s) as [s1 t1 [results | e |]]; run;
    try discriminate.
  destruct (List.existsb r_success results); run.
  - match goal with
    | |- context [loadExistingFilesFrom ?p ?w0 ?b0 ?s0] =>
        destruct (loadExistingFilesFrom p w0 b0 s0) as [s2 t2 [[] | e |]]
    end; run; try discriminate.
    intros _. rewrite lastStatus_cons, !lastStatus_app. cbn.
    destruct (List.existsb _ results); [right | left]; reflexivity.
  - intros _. rewrite lastStatus_cons, !lastStatus_app. cbn.
    destruct (List.existsb _ results); [right | left]; reflexivity.
Qed.

Lemma processLocal_last_status props c files s :
  out_completion (processLocal props c files s) = Returned tt ->
  lastStatus (out_trace (processLocal props c files s)) = Some Completed.
Proof.
  unfold processLocal. rewrite bind_run.
  destruct (processFilesAsJSON_run files s) as (Hs & _ & Hok & Hfail).
  destruct (List.forallb readsForJSON files).
  - rewrite (Hok eq_refl). run. rewrite markCompleted_run. run.
    destruct (recordUidIsEmpty props); run; reflexivity.
  - rewrite (Hfail eq_refl). discriminate.
Qed.

Lemma processFiles_last_status props w files s :
  files <> [] ->
  out_completion (processFiles props w files s) = Returned tt ->
  lastStatus (out_trace (processFiles props w files s)) = Some Completed
  \/ lastStatus (out_trace (processFiles props w files s)) = Some Failed.
Proof.
  intros Hne. unfold processFiles. destruct files as [| f0 rest] eqn:E; [contradiction |].
  rewrite <- E. clear E Hne. run.
  set (body := if isCloudFlowConfigured props
               then processRemote props w (isInitialLoad s) files
               else processLocal props (cumulativeFilesJSON s) files).
  assert (Hbody : forall s0, out_completion (body s0) = Returned tt ->
            lastStatus (out_trace (body s0)) = Some Completed
            \/ lastStatus (out_trace (body s0)) = Some Failed).
  { intros s0. subst body. destruct (isCloudFlowConfigured props).
    - apply processRemote_last_status.
    - intros H. left. now apply processLocal_last_status. }
  destruct (buttonShowActionSpinner props); run.
  all: match goal with
       | Hb : forall s0, out_completion (?bd s0) = _ -> _ |- context [?bd ?s0] =>
           specialize (Hb s0); destruct (bd s0) as [s1 t1 [[] | e |]]
       end; run; try discriminate.
  all: cbn in Hbody.
  all: try (intros _; rewrite ?app_nil_r; now apply Hbody).
  all: match goal with
       | |- context [processFailed ?fl ?e0 ?s0] =>
           destruct (processFailed_run fl e0 s0) as (Hr & Hl);
           destruct (processFailed fl e0 s0) as [s2 t2 c2]
       end; cbn [out_completion out_trace out_state] in *; intros _; right;
       rewrite lastStatus_app, Hl; reflexivity.
Qed.

Lemma deliver_app l1 l2 c :
  Control.deliver (l1 ++ l2) c = Control.deliver l2 (Control.deliver l1 c).
Proof. unfold Control.deliver. apply fold_left_app. Qed.

Lemma onEvents_app sf se sr t1 t2 :
  Control.onEvents sf se sr (t1 ++ t2)
  = Control.onEvents sf se sr t1 ++ Control.onEvents sf se sr t2.
Proof. unfold Control.onEvents. apply List.flat_map_app. Qed.

(** The control keeps the number of the last status the component
    reported. *)
Lemma deliver_last_status sf se sr t c :
  Control.lastUploadStatus (Control.deliver (Control.onEvents sf se sr t) c) =
    match lastStatus t with
    | Some u => statusCodeOf u
    | None => Control.lastUploadStatus c
    end.
Proof.
  induction t as [| e t IH] using List.rev_ind; [reflexivity |].
  rewrite onEvents_app, deliver_app, lastStatus_app.
  destruct e as [| ev | | | | | |]; cbn; try exact IH.
  destruct (ev_uploadStatus ev) as [[] |]; cbn; try reflexivity. exact IH.
Qed.

(** X10. When [processFiles] returns on a non-empty list of files, the last
    status it reported to the host is [Completed] or [Failed], never
    [InProgress]; and once the control has received the events of the run,
    its [LastUploadStatus] output is the number of that status, "2" or
    "3", whatever it held before and however the payloads are
    serialized. *)
Theorem processFiles_ends_with_final_status :
  forall (props : Props) (w : World) (files : list File) (s : St),
    files <> [] ->
    let o := processFiles props w files s in
    out_completion o = Returned tt ->
    exists u,
      lastStatus (out_trace o) = Some u
      /\ (u = Completed \/ u = Failed)
      /\ forall stringifyFiles stringifyExisting stringifyResults control,
           Control.LastUploadStatus
             (Control.getOutputs
                (Control.deliver
                   (Control.onEvents stringifyFiles stringifyExisting stringifyResults
                      (out_trace o))
                   control))
           = (if Z.eqb (statusCodeOf u) 2 then "2" else "3").
Proof.
  intros props w files s Hne o Hret.
  destruct (processFiles_last_status props w files s Hne Hret) as [H | H];
    [exists Completed | exists Failed]; (split; [exact H |]);
    (split; [tauto |]); intros sf se sr c; unfold Control.getOutputs; cbn;
    fold o in H; rewrite deliver_last_status, H; reflexivity.
Qed.

Lemma processFiles_ends_with_final_status_witness :
  [Sample.pdf "a.pdf" 1] <> []
  /\ out_completion
       (processFiles Sample.remoteMultiProps Demo.answering [Sample.pdf "a.pdf" 1]
          (Sample.offered [Sample.pdf "a.pdf" 1])) = Returned tt
  /\ exists u,
       lastStatus
         (out_trace
            (processFiles Sample.remoteMultiProps Demo.answering [Sample.pdf "a.pdf" 1]
               (Sample.offered [Sample.pdf "a.pdf" 1]))) = Some u
       /\ (u = Completed \/ u = Failed).
Proof.
  assert (H1 : [Sample.pdf "a.pdf" 1] <> []) by discriminate.
  assert (H2 : out_completion
                 (processFiles Sample.remoteMultiProps Demo.answering
                    [Sample.pdf "a.pdf" 1] (Sample.offered [Sample.pdf "a.pdf" 1]))
               = Returned tt) by (vm_compute; reflexivity).
  split; [exact H1 |]. split; [exact H2 |].
  destruct (processFiles_ends_with_final_status Sample.remoteMultiProps Demo.answering
              [Sample.pdf "a.pdf" 1] (Sample.offered [Sample.pdf "a.pdf" 1]) H1 H2)
    as (u & Hu & Hcase & _).
  exists u. split; [exact Hu | exact Hcase].
Defined.

Example control_after_an_upload :
  Control.getOutputs
    (Control.deliver
       (Control.onEvents (fun _ => "[files]") (fun _ => "[existing]") (fun _ => "[results]")
          (out_trace
             (processFiles Sample.remoteMultiProps Demo.answering [Sample.pdf "a.pdf" 1]
                (Sample.offered [Sample.pdf "a.pdf" 1]))))
       Control.initial)
  = Control.mkOutputs "[files]" "[existing]" "[results]" "2".
Proof. vm_compute. reflexivity. Qed.

(** ** A file that cannot be read, in JSON mode *)

Lemma button_fold_update u files s :
  buttonLoadingState (fold_left (fun s' f => updateFileState (name f) u s') files s) =
    buttonLoadingState s.
Proof.
  revert s. induction files as [| f files IH]; intros s; cbn; [reflexivity |].
  now rewrite IH.
Qed.

Lemma button_fold_stop files s :
  buttonLoadingState (fold_left (fun s' f => stopProgressSimulation (name f) s') files s) =
    buttonLoadingState s.
Proof.
  revert s. induction files as [| f files IH]; intros s; cbn; [reflexivity |].
  now rewrite IH.
Qed.

Lemma processFiles_local_fail_button props w files s :
  isCloudFlowConfigured props = false ->
  List.forallb readsForJSON files = false ->
  buttonLoadingState (out_state (processFiles props w files s)) = Initial.
Proof.
  intros Hc Hread. destruct files as [| f files]; [discriminate |].
  unfold processFiles. rewrite Hc. unfold processLocal, processFailed.
  destruct (buttonShowActionSpinner props); run.
  all: match goal with
       | |- context [processFilesAsJSON ?l ?s0] =>
           destruct (processFilesAsJSON_run l s0) as (Hs & Ht & _ & Hfail);
           specialize (Hfail Hread);
           destruct (processFilesAsJSON l s0) as [s2 t2 c2];
           cbn in Hs, Ht, Hfail; subst s2 c2
       end; run.
  all: rewrite stopAll_run; run; rewrite markFailed_run; run.
  all: rewrite button_fold_update, button_fold_stop; reflexivity.
Qed.

(** X11. In JSON mode one file that cannot be read fails the whole run:
    [processFiles] still returns, but nothing is added to the batch and no
    batch is reported; every entry named like a file of the run, the
    readable ones included, ends [failed] with progress 0 and the error
    text "null" (the value [readFile] rejects with); the entries are
    otherwise the same files in the same order; the button goes back to its
    initial state, the last status reported is [Failed], and no request is
    sent. *)
Theorem unreadable_file_fails_the_whole_run :
  forall (props : Props) (w : World) (files : list File) (s : St),
    isCloudFlowConfigured props = false ->
    List.forallb readsForJSON files = false ->
    let o := processFiles props w files s in
    out_completion o = Returned tt
    /\ lastStatus (out_trace o) = Some Failed
    /\ reportedFiles (out_trace o) = []
    /\ List.existsb isFetch (out_trace o) = false
    /\ cumulativeFilesJSON (out_state o) = cumulativeFilesJSON s
    /\ buttonLoadingState (out_state o) = Initial
    /\ List.map file (fileStates (out_state o)) = List.map file (fileStates s)
    /\ (forall f fs,
          In f files -> In fs (fileStates (out_state o)) -> named (name f) fs ->
          status fs = failed /\ progress fs = 0 /\ error fs = Some "null").
Proof.
  intros props w files s Hc Hread o.
  destruct (processFiles_local_fail props w files s Hc Hread) as (H1 & H2 & H3 & H4 & H5).
  fold o in H1, H2, H3, H4, H5.
  repeat split; try assumption.
  - subst o. clear H1 H2 H3 H4 H5.
    destruct files as [| f files]; [discriminate |].
    unfold processFiles. rewrite Hc. unfold processLocal, processFailed.
    destruct (buttonShowActionSpinner props); run.
    all: match goal with
         | |- context [processFilesAsJSON ?l ?s0] =>
             pose proof (processFilesAsJSON_run l s0) as (Hs & _ & _ & Hfail);
             specialize (Hfail Hread);
             assert (Ht : reportedFiles (out_trace (processFilesAsJSON l s0)) = [])
         end.
    1, 3: unfold processFilesAsJSON;
      match goal with
      | |- context [promiseAll ?l ?s0] =>
          assert (He : emits (fun e => isOnEvent e = false) (promiseAll l))
            by (apply emits_promiseAll; apply List.Forall_forall; intros m Hm;
                apply List.in_map_iff in Hm; destruct Hm as (f' & <- & _);
                unfold readTask, readFile; emits_all; reflexivity);
          specialize (He s0); induction He as [| e t He _ IH]; [reflexivity |];
          destruct e; try discriminate; exact IH
      end.
    all: match goal with
         | |- context [processFilesAsJSON ?l ?s0] =>
             destruct (processFilesAsJSON l s0) as [s2 t2 c2];
             cbn in Hs, Ht, Hfail; subst s2 c2
         end; run.
    all: rewrite stopAll_run; run; rewrite markFailed_run; run.
    all: unfold reportedFiles in *; rewrite List.flat_map_app, Ht; reflexivity.
  - subst o. now apply processFiles_local_fail_button.
  - rewrite H5. apply updatedEntries_files.
  - rewrite H5 in H0. destruct (updatedEntries_named _ files _ f H fs H0 H6) as (fs0 & ->).
    reflexivity.
  - rewrite H5 in H0. destruct (updatedEntries_named _ files _ f H fs H0 H6) as (fs0 & ->).
    reflexivity.
  - rewrite H5 in H0. destruct (updatedEntries_named _ files _ f H fs H0 H6) as (fs0 & ->).
    reflexivity.
Qed.

Lemma unreadable_file_fails_the_whole_run_witness :
  isCloudFlowConfigured Sample.localProps = false
  /\ List.forallb readsForJSON [Sample.pdf "a.pdf" 1; Sample.unreadable "b.pdf"] = false
  /\ lastStatus
       (out_trace
          (processFiles Sample.localProps Demo.answering
             [Sample.pdf "a.pdf" 1; Sample.unreadable "b.pdf"]
             (Sample.offered [Sample.pdf "a.pdf" 1; Sample.unreadable "b.pdf"])))
     = Some Failed.
Proof.
  split; [reflexivity |]. split; [reflexivity |].
  exact (proj1 (proj2 (unreadable_file_fails_the_whole_run Sample.localProps Demo.answering
                         [Sample.pdf "a.pdf" 1; Sample.unreadable "b.pdf"]
                         (Sample.offered [Sample.pdf "a.pdf" 1; Sample.unreadable "b.pdf"])
                         eq_refl eq_refl))).
Defined.

(** ** The multiple-file branch of the upload *)

Lemma uploadEach_trace props w files :
  forall acc s results,
    out_completion (uploadEach props w files acc s) = Returned results ->
    out_trace (uploadEach props w files acc s) = List.flat_map (uploadFetches props) files.
Proof.
  induction files as [| f files IH]; intros acc s results H; [reflexivity |].
  cbn [uploadEach List.flat_map] in *. rewrite bind_run in *.
  destruct (uploadOne_spec props w f s) as (_ & Ht & _).
  destruct (out_completion (uploadOne props w f s)) as [r | e |]; try discriminate.
  cbn in *. rewrite Ht. f_equal. eapply IH. exact H.
Qed.

Lemma uploadEach_returns props w files :
  (forall f, In f files -> flightResult w f <> None) ->
  forall acc s, exists results, out_completion (uploadEach props w files acc s) = Returned results.
Proof.
  induction files as [| f files IH]; intros Hall acc s.
  - exists acc. reflexivity.
  - cbn [uploadEach]. rewrite bind_run.
    destruct (uploadOne_spec props w f s) as (Hc & _).
    destruct (flightResult w f) as [b |] eqn:E.
    + destruct Hc as (r & -> & _). cbn. apply IH. intros f' Hf'. apply Hall. now right.
    + exfalso. apply (Hall f); [now left | exact E].
Qed.

(** X12. With multiple-file selection enabled and the remote mode
    configured, [uploadToCloudFlow] takes the files one after the other: a
    run that returns has sent exactly the requests of the files in list
    order (one POST per file that could be read, none for the others) and
    returns one result per file, in the same order and under the file's
    name. A file that fails does not stop the files after it: the call
    returns whenever every flight ends, in success or in failure. *)
Theorem multiple_mode_uploads_every_file_in_order :
  forall (props : Props) (w : World) (files : list File) (s : St),
    isCloudFlowConfigured props = true ->
    buttonAllowMultipleFiles props = true ->
    let o := uploadToCloudFlow props w files s in
    (forall results,
        out_completion o = Returned results ->
        out_trace o = List.flat_map (uploadFetches props) files
        /\ List.map r_fileName results = names files
        /\ List.map (fun r => Some (r_success r)) results = List.map (flightResult w) files)
    /\ ((forall f, In f files -> flightResult w f <> None) ->
        exists results, out_completion o = Returned results).
Proof.
  intros props w files s Hc Hm o. split.
  - intros results Hret.
    destruct (uploadToCloudFlow_multi props w files s results Hc Hm Hret) as (Hall & _).
    split; [| split].
    + subst o. revert Hret. unfold uploadToCloudFlow. rewrite Hc, Hm. cbn [negb].
      rewrite bind_run, markUploading_run. cbn [out_completion out_state out_trace].
      rewrite bind_run.
      destruct (out_completion (uploadEach props w files [] _)) as [rs | e |] eqn:E;
        cbn [out_completion out_state out_trace]; try discriminate.
      rewrite bind_run, forEach_modify_state. cbn. intros _.
      rewrite app_nil_r. eapply uploadEach_trace. exact E.
    + now apply (Forall2_resultOf_names w).
    + clear Hret. induction Hall as [| f r fl rl [_ Hr] _ IH]; cbn; [reflexivity |].
      now rewrite Hr, IH.
  - intros Hall. subst o. unfold uploadToCloudFlow. rewrite Hc, Hm. cbn [negb].
    rewrite bind_run, markUploading_run. cbn [out_completion out_state out_trace].
    rewrite bind_run.
    destruct (uploadEach_returns props w files Hall []
                (fold_left (fun s' f =>
                   updateFileState (name f) (mkUpdates (Some 0) (Some uploading) None None) s')
                   files s)) as (rs & ->).
    cbn [out_completion out_state out_trace].
    rewrite bind_run, forEach_modify_state. cbn. now exists rs.
Qed.

Lemma multiple_mode_uploads_every_file_in_order_witness :
  isCloudFlowConfigured Sample.remoteMultiProps = true
  /\ buttonAllowMultipleFiles Sample.remoteMultiProps = true
  /\ exists results,
       out_completion
         (uploadToCloudFlow Sample.remoteMultiProps Demo.answering
            [Sample.unreadable "a.pdf"; Sample.pdf "b.pdf" 1]
            (Sample.offered [Sample.unreadable "a.pdf"; Sample.pdf "b.pdf" 1]))
       = Returned results.
Proof.
  split; [reflexivity |]. split; [reflexivity |].
  apply (proj2 (multiple_mode_uploads_every_file_in_order Sample.remoteMultiProps
                  Demo.answering [Sample.unreadable "a.pdf"; Sample.pdf "b.pdf" 1]
                  (Sample.offered [Sample.unreadable "a.pdf"; Sample.pdf "b.pdf" 1])
                  eq_refl eq_refl)).
  intros f [<- | [<- | []]]; discriminate.
Defined.

Example multiple_mode_continues_after_a_failure :
  List.map (fun r => (r_fileName r, r_success r))
    (match out_completion
             (uploadToCloudFlow Sample.remoteMultiProps Demo.answering
                [Sample.unreadable "a.pdf"; Sample.pdf "b.pdf" 1]
                (Sample.offered [Sample.unreadable "a.pdf"; Sample.pdf "b.pdf" 1])) with
     | Returned results => results
     | _ => []
     end)
  = [("a.pdf", false); ("b.pdf", true)].
Proof. vm_compute. reflexivity. Qed.

(** ** Listing the existing files: the edges *)

(** X13. The edges of [loadExistingFiles]. Without the remote configuration
    it sends no request: it empties the existing files, hides the list and
    reports the empty list. With the configuration, the request goes to the
    list endpoint with the container and the combined folder; when it is
    answered, by a response or by a network error, the call returns with
    the loading flag and the initial-load flag both off; a network error
    leaves the existing files as they were, is logged, and shows the list
    only if this was the initial load; and while no answer comes the call
    stays pending with the loading flag on. *)
Theorem loadExistingFiles_edges :
  forall (props : Props) (w : World) (s : St),
    let o := loadExistingFiles props w s in
    (isCloudFlowConfigured props = false ->
       out_completion o = Returned tt
       /\ out_trace o = [OnEvent (mkEvent None (Some []) None None None)]
       /\ existingFiles (out_state o) = []
       /\ showFileList (out_state o) = false
       /\ isInitialLoad (out_state o) = false)
    /\ (isCloudFlowConfigured props = true ->
        (exists rest,
           out_trace o =
             Fetch (orElse (cloudFlowListFilesUrl props) "")
               (ListRequest (orElse (containerPath props) "") (getCombinedFolderPath props))
             :: rest)
        /\ (answered (w_list w) ->
            out_completion o = Returned tt
            /\ loadingExistingFiles (out_state o) = false
            /\ isInitialLoad (out_state o) = false)
        /\ (forall m, w_list w = NetworkError m ->
              existingFiles (out_state o) = existingFiles s
              /\ showFileList (out_state o) = (isInitialLoad s || showFileList s)
              /\ List.existsb isOnEvent (out_trace o) = false
              /\ In (ConsoleError ("Error loading existing files: " +:+ m)) (out_trace o))
        /\ (w_list w = NoResponse ->
            out_completion o = StillPending
            /\ loadingExistingFiles (out_state o) = true
            /\ existingFiles (out_state o) = existingFiles s)).
Proof.
  intros props w s o. subst o.
  unfold loadExistingFiles, loadExistingFilesFrom, loadExistingFilesWith. split.
  - intros ->. run. repeat split; reflexivity.
  - intros ->. cbn [negb].
    destruct (w_list w) as [[code text [[succ files err] | m]] | m |] eqn:Hw.
    + run. destruct (ok _), succ, files as [| l |]; run; cbn; run.
      all: try (rewrite ?(mapFiles_noNull l);
                destruct (mapFiles l) as [mapped |] eqn:Hmap; run).
      all: try (destruct (isInitialLoad s); run).
      all: try (destruct (0 <? Z.of_nat (length mapped)); run).
      all: (split; [eexists; reflexivity |]);
           (split; [intros _; repeat split; reflexivity |]);
           split; intros; discriminate.
    + run. destruct (ok _); run; destruct (isInitialLoad s); run.
      all: (split; [eexists; reflexivity |]);
           (split; [intros _; repeat split; reflexivity |]);
           split; intros; discriminate.
    + run. destruct (isInitialLoad s); run.
      all: (split; [eexists; reflexivity |]);
           (split; [intros _; repeat split; reflexivity |]);
           (split; [| intros; discriminate]).
      all: intros m' Hm'; injection Hm' as <-; repeat split; try reflexivity;
           cbn; tauto.
    + run. split; [eexists; reflexivity |]. split; [intros C; now destruct C |].
      split; [intros; discriminate |]. intros _. repeat split; reflexivity.
Qed.

Lemma loadExistingFiles_edges_witness :
  isCloudFlowConfigured Sample.remoteProps = true
  /\ answered (w_list Demo.answering)
  /\ out_completion (loadExistingFiles Sample.remoteProps Demo.answering
                       (Sample.emptyState 10 "*")) = Returned tt.
Proof.
  assert (H : answered (w_list Demo.answering)) by discriminate.
  split; [reflexivity |]. split; [exact H |].
  exact (proj1 (proj1 (proj2 (proj2 (loadExistingFiles_edges Sample.remoteProps
                  Demo.answering (Sample.emptyState 10 "*")) eq_refl)) H)).
Defined.

(** ** Deleting an existing file *)

Lemma loadExistingFilesFrom_existing props w b s :
  isCloudFlowConfigured props = true ->
  existingFiles (out_state (loadExistingFilesFrom props w b s)) =
    reloaded w (existingFiles s).
Proof.
  intros Hc. unfold reloaded, listSuccess, listedFiles, loadExistingFilesFrom,
    loadExistingFilesWith. rewrite Hc. cbn [negb].
  destruct (w_list w) as [[code text [[succ files err] | m]] | m |].
  - run. destruct (ok _), succ, files as [| l |]; run; cbn; run.
    all: try (rewrite ?(mapFiles_noNull l);
              destruct (mapFiles l) as [mapped |] eqn:Hmap; run).
    all: try (destruct b; run).
    all: try (destruct (0 <? Z.of_nat (length mapped)); run).
    all: reflexivity.
  - run. destruct (ok _); run; destruct b; run; reflexivity.
  - run. destruct b; run; reflexivity.
  - run. reflexivity.
Qed.

Lemma loadExistingFilesFrom_fileStates props w b s :
  fileStates (out_state (loadExistingFilesFrom props w b s)) = fileStates s.
Proof. symmetry. apply preserves_fileStates_loadExistingFilesFrom. Qed.

Lemma loadExistingFilesFrom_returns props w b s :
  answered (w_list w) ->
  out_completion (loadExistingFilesFrom props w b s) = Returned tt.
Proof.
  intros H. apply returns_unit.
  - apply neverRejects_loadExistingFilesWith, neverRejects_ret.
  - apply settles_loadExistingFilesWith; [exact H | apply settles_ret].
Qed.

(** X14. A delete that fails changes nothing and is only reported to the
    user. When the remote configuration is missing no request is sent at
    all; when the request fails on the network, is answered outside 2xx,
    with a body that does not parse or with a false [success], the one
    delete request is all that was sent. In each case
    [handleDeleteExistingFile] returns, the existing files and the entries
    are as before, no event goes to the host, and the call ends by logging
    the message and showing it in an alert. *)
Theorem failed_delete_changes_nothing :
  forall (props : Props) (w : World) (fileName : string) (s : St) (message : string),
    deleteFailure props w fileName = Some message ->
    let o := handleDeleteExistingFile props w fileName s in
    out_completion o = Returned tt
    /\ existingFiles (out_state o) = existingFiles s
    /\ fileStates (out_state o) = fileStates s
    /\ List.existsb isOnEvent (out_trace o) = false
    /\ List.filter (fun e => negb (isFetch e)) (out_trace o) =
         [ConsoleError ("Error deleting file: " +:+ message);
          Alert ("Failed to delete file: " +:+ message)]
    /\ List.filter isFetch (out_trace o) =
         (if isCloudFlowConfigured props
          then [Fetch (orElse (cloudFlowDeleteUrl props) "")
                  (DeleteRequest fileName (orElse (containerPath props) "")
                     (if String.eqb (getCombinedFolderPath props) "" then None
                      else Some (getCombinedFolderPath props)))]
          else []).
Proof.
  intros props w fileName s message. unfold deleteFailure, handleDeleteExistingFile.
  destruct (isCloudFlowConfigured props); cbn [negb].
  - destruct (w_delete w fileName) as [[code text [[succ err] | m]] | m |]; run.
    + destruct (ok _); run; [destruct succ; run |]; intros H; try discriminate;
        injection H as <-; repeat split; reflexivity.
    + destruct (ok _); run; intros H; injection H as <-; repeat split; reflexivity.
    + intros H; injection H as <-; repeat split; reflexivity.
    + discriminate.
  - run. intros H; injection H as <-; repeat split; reflexivity.
Qed.

Lemma failed_delete_changes_nothing_witness :
  deleteFailure Sample.remoteProps Demo.answering "a.pdf" = Some "Failed to fetch"
  /\ existingFiles
       (out_state (handleDeleteExistingFile Sample.remoteProps Demo.answering "a.pdf"
                     (Sample.emptyState 10 "*")))
     = existingFiles (Sample.emptyState 10 "*").
Proof.
  split; [reflexivity |].
  exact (proj1 (proj2 (failed_delete_changes_nothing Sample.remoteProps Demo.answering
                         "a.pdf" (Sample.emptyState 10 "*") "Failed to fetch" eq_refl))).
Defined.

Lemma reportedExisting_app t1 t2 :
  reportedExisting (t1 ++ t2) = reportedExisting t1 ++ reportedExisting t2.
Proof. unfold reportedExisting. apply List.flat_map_app. Qed.

(** X15. A delete that the endpoint accepts (2xx, [success] true), with the
    remote mode configured and the list endpoint answering. The file is
    taken off the existing files, the list is reloaded, and the call
    returns without an alert: the existing files end as the reload gives
    them, or, when the reload fails, as the list held before without the
    file. The event that announces the deletion comes after the reload and
    carries the list the handler saw when it started, without the file: it
    is the last list reported to the host, whatever the reload listed. *)
Theorem accepted_delete_reloads_and_reports :
  forall (props : Props) (w : World) (fileName : string) (s : St)
         (r : Response DeleteBody),
    isCloudFlowConfigured props = true ->
    w_delete w fileName = Responds r ->
    deleteAccepted r = true ->
    answered (w_list w) ->
    let o := handleDeleteExistingFile props w fileName s in
    out_completion o = Returned tt
    /\ existingFiles (out_state o) = reloaded w (withoutExisting fileName (existingFiles s))
    /\ fileStates (out_state o) = fileStates s
    /\ List.last (reportedExisting (out_trace o)) []
         = withoutExisting fileName (existingFiles s)
    /\ In (OnEvent (mkEvent None (Some (withoutExisting fileName (existingFiles s)))
                      None None (Some (fileDeleted fileName))))
          (out_trace o)
    /\ (forall m, ~ In (Alert m) (out_trace o)).
Proof.
  intros props w fileName s r Hc Hw Hacc Hl. unfold deleteAccepted in Hacc.
  apply andb_true_iff in Hacc. destruct Hacc as (Hok & Hsucc).
  destruct r as [code text [[succ err] | m]]; [| discriminate]. cbn in Hsucc. subst succ.
  unfold handleDeleteExistingFile. rewrite Hc, Hw. cbn [negb]. run. rewrite Hok. run.
  cbn [db_success db_error]. run.
  match goal with
  | |- context [loadExistingFilesFrom ?p ?w0 ?b0 ?s0] =>
      pose proof (loadExistingFilesFrom_existing p w0 b0 s0 Hc) as He;
      pose proof (loadExistingFilesFrom_fileStates p w0 b0 s0) as Hf;
      pose proof (loadExistingFilesFrom_returns p w0 b0 s0 Hl) as Hr;
      assert (Ha : forall m, ~ In (Alert m) (out_trace (loadExistingFilesFrom p w0 b0 s0)));
      [| destruct (loadExistingFilesFrom p w0 b0 s0) as [s2 t2 c2]]
  end.
  { intros m Hin.
    assert (Hall : emits (fun e => forall m, e <> Alert m)
                     (loadExistingFilesFrom props w (isInitialLoad s)))
      by (unfold loadExistingFilesFrom, loadExistingFilesWith;
          destruct (negb (isCloudFlowConfigured props)); emits_all; discriminate).
    match type of Hin with
    | In _ (out_trace (_ ?s0)) => specialize (Hall s0)
    end.
    rewrite List.Forall_forall in Hall. exact (Hall _ Hin m eq_refl). }
  cbn in He, Hf, Hr, Ha. subst c2. run.
  unfold withoutExisting in *. repeat split; try assumption.
  - change (?a :: t2 ++ ?l) with ((a :: t2) ++ l).
    rewrite reportedExisting_app. cbn.
    apply List.last_last.
  - right. apply List.in_or_app. right. now left.
  - intros m [C | C]; [discriminate |].
    apply List.in_app_or in C. destruct C as [C | [C | [C | []]]]; try discriminate.
    exact (Ha m C).
Qed.

Lemma accepted_delete_reloads_and_reports_witness :
  isCloudFlowConfigured Sample.remoteProps = true
  /\ out_completion
       (handleDeleteExistingFile Sample.remoteProps
          (mkWorld (fun _ => mkFlight [] NoResponse) (Responds Sample.emptyList)
             (fun _ => Responds (mkResponse 200 "OK" (Parsed (mkDeleteBody true None))))
             (fun _ => NoResponse))
          "a.pdf" (Sample.emptyState 10 "*")) = Returned tt.
Proof.
  split; [reflexivity |].
  refine (proj1 (accepted_delete_reloads_and_reports Sample.remoteProps
                   (mkWorld (fun _ => mkFlight [] NoResponse) (Responds Sample.emptyList)
                      (fun _ => Responds (mkResponse 200 "OK" (Parsed (mkDeleteBody true None))))
                      (fun _ => NoResponse))
                   "a.pdf" (Sample.emptyState 10 "*")
                   (mkResponse 200 "OK" (Parsed (mkDeleteBody true None)))
                   eq_refl eq_refl eq_refl _)).
  discriminate.
Defined.

(** ** Viewing an existing file *)

Ltac trace_cases :=
  repeat (match goal with
          | |- _ /\ _ => split
          | |- forall _, _ => intro
          | H : In _ (_ :: _) |- _ => destruct H as [H | H]; [subst |]
          | H : In _ [] |- _ => destruct H
          | H : Responds _ = Responds _ |- _ => injection H as H; subst
          | H : Parsed _ = Parsed _ |- _ => injection H as H; subst
          | H : Some _ = Some _ |- _ => injection H as H; subst
          end; try discriminate; try reflexivity; try congruence).

Ltac view_cases props w fileName s :=
  unfold handleViewExistingFile, isDownloadCloudFlowConfigured, chosenPayload, linkOf;
  run; destruct (truthy (cloudFlowDownloadUrl props)) eqn:Hd; cbn [negb andb];
  [ rewrite andb_true_r; destruct (isCloudFlowConfigured props) eqn:Hc; cbn [negb];
    [ destruct (w_download w fileName) as [[code text [[top body] | m]] | m |] eqn:Hw; run;
      [ match goal with |- context [negb (ok ?x)] => destruct (ok x) eqn:Hok end;
        run; cbn [dl_top dl_body]; run;
        [ destruct (payloadComplete top) eqn:Ht;
          [| destruct body as [bd |]; [destruct (payloadComplete bd) eqn:Hb |]]; run
        | ]
      | match goal with |- context [negb (ok ?x)] => destruct (ok x) eqn:Hok end; run
      | | ]
    | run ]
  | destruct (List.find (fun f => String.eqb (ex_name f) fileName) (existingFiles s))
      as [f |] eqn:Hf; run;
    [ destruct (String.eqb (ex_url f) "") eqn:Hu; run | ] ].

Lemma view_frame props w fileName s :
  existingFiles (out_state (handleViewExistingFile props w fileName s)) = existingFiles s
  /\ fileStates (out_state (handleViewExistingFile props w fileName s)) = fileStates s.
Proof. view_cases props w fileName s; split; reflexivity. Qed.

Lemma view_link_only_if props w fileName s e :
  In e (out_trace (handleViewExistingFile props w fileName s)) ->
  isDownloadLink e = true ->
  truthy (cloudFlowDownloadUrl props) = true
  /\ isCloudFlowConfigured props = true
  /\ exists r b p,
       w_download w fileName = Responds r /\ ok r = true
       /\ json r = Parsed b /\ chosenPayload b = Some p /\ e = linkOf p.
Proof.
  view_cases props w fileName s; intros Hin He; trace_cases.
  all: eexists _, _, _; split; [reflexivity |]; split; [eassumption |];
       split; [reflexivity |]; split; [cbn; rewrite ?Ht, ?Hb; reflexivity | reflexivity].
Qed.

Lemma view_link_if props w fileName s r b p :
  truthy (cloudFlowDownloadUrl props) = true ->
  isCloudFlowConfigured props = true ->
  w_download w fileName = Responds r -> ok r = true ->
  json r = Parsed b -> chosenPayload b = Some p ->
  In (linkOf p) (out_trace (handleViewExistingFile props w fileName s))
  /\ out_completion (handleViewExistingFile props w fileName s) = Returned tt.
Proof.
  view_cases props w fileName s; intros H1 H2 H3 H4 H5 H6; try discriminate.
  all: injection H3 as <-; cbn in H5; try discriminate; try congruence.
  all: injection H5 as <-; cbn [dl_top dl_body] in H6; rewrite ?Ht in H6;
       cbv iota beta in H6; rewrite ?Hb in H6; cbv iota beta in H6; try discriminate.
  all: injection H6 as <-; split; [right; left; reflexivity | reflexivity].
Qed.

Lemma view_fallback props w fileName s :
  truthy (cloudFlowDownloadUrl props) = false ->
  List.existsb isFetch (out_trace (handleViewExistingFile props w fileName s)) = false
  /\ forall e, In e (out_trace (handleViewExistingFile props w fileName s)) ->
       isWindowOpen e = true ->
       exists f, List.find (fun f => String.eqb (ex_name f) fileName) (existingFiles s) = Some f
                 /\ ex_url f <> "" /\ e = WindowOpen (ex_url f).
Proof.
  view_cases props w fileName s; intros Hd'; try discriminate; trace_cases.
  eexists. split; [reflexivity |]. apply String.eqb_neq in Hu. now split.
Qed.

Lemma view_no_window props w fileName s :
  truthy (cloudFlowDownloadUrl props) = true ->
  List.existsb isWindowOpen (out_trace (handleViewExistingFile props w fileName s)) = false.
Proof. view_cases props w fileName s; intros Hd'; try discriminate; reflexivity. Qed.

(** X16. [handleViewExistingFile] offers a download only from a complete
    payload. A download link is created exactly when the download URL is
    set, the remote mode is configured, the download endpoint answers 2xx
    with a body that parses, and the body carries [fileContent],
    [contentType] and [fileName] at its top level or, failing that, under
    [body]; the link is the data URL of that payload, the top level taking
    precedence. Without a download URL no request is sent, and a window is
    opened only on the stored URL of the first existing file of that name,
    when it has one; with a download URL no window is opened. The handler
    never changes the existing files or the entries. *)
Theorem download_needs_a_complete_payload :
  forall (props : Props) (w : World) (fileName : string) (s : St),
    let o := handleViewExistingFile props w fileName s in
    existingFiles (out_state o) = existingFiles s
    /\ fileStates (out_state o) = fileStates s
    /\ (forall e, In e (out_trace o) -> isDownloadLink e = true ->
          truthy (cloudFlowDownloadUrl props) = true
          /\ isCloudFlowConfigured props = true
          /\ exists r b p,
               w_download w fileName = Responds r /\ ok r = true
               /\ json r = Parsed b /\ chosenPayload b = Some p /\ e = linkOf p)
    /\ (forall r b p,
          truthy (cloudFlowDownloadUrl props) = true ->
          isCloudFlowConfigured props = true ->
          w_download w fileName = Responds r -> ok r = true ->
          json r = Parsed b -> chosenPayload b = Some p ->
          In (linkOf p) (out_trace o) /\ out_completion o = Returned tt)
    /\ (truthy (cloudFlowDownloadUrl props) = false ->
        List.existsb isFetch (out_trace o) = false
        /\ forall e, In e (out_trace o) -> isWindowOpen e = true ->
             exists f, List.find (fun f => String.eqb (ex_name f) fileName) (existingFiles s)
                         = Some f
                       /\ ex_url f <> "" /\ e = WindowOpen (ex_url f))
    /\ (truthy (cloudFlowDownloadUrl props) = true ->
        List.existsb isWindowOpen (out_trace o) = false).
Proof.
  intros props w fileName s o. subst o.
  split; [apply view_frame |]. split; [apply view_frame |].
  split; [intros e; apply view_link_only_if |].
  split; [intros r b p; apply view_link_if |].
  split; [apply view_fallback | apply view_no_window].
Qed.

Lemma download_needs_a_complete_payload_witness :
  truthy (cloudFlowDownloadUrl Sample.remoteProps) = true
  /\ List.existsb isWindowOpen
       (out_trace (handleViewExistingFile Sample.remoteProps Demo.answering "a.pdf"
                     (Sample.emptyState 10 "*"))) = false.
Proof.
  split; [reflexivity |].
  exact (proj2 (proj2 (proj2 (proj2 (proj2
           (download_needs_a_complete_payload Sample.remoteProps Demo.answering "a.pdf"
              (Sample.emptyState 10 "*")))))) eq_refl).
Defined.

(** ** A change of context *)

Ltac in_list := repeat (first [left; reflexivity | right]).

(** X17. A change of context (list endpoint, container, folder or record
    identity, and the mount) always resets the new files: whatever the
    state was and whatever the list endpoint does (answer, fail, or never
    answer), the entries, the selected files and the batch end empty, and
    the host is told once, with an empty [filesJSON] marked
    [contextChanged]. The existing files are emptied when the remote mode
    is not configured and otherwise end as the reload gives them. *)
Theorem context_change_resets_new_files :
  forall (props : Props) (w : World) (s : St),
    let o := contextChangeEffect props w s in
    fileStates (out_state o) = []
    /\ selectedFiles (out_state o) = []
    /\ cumulativeFilesJSON (out_state o) = []
    /\ reportedFiles (out_trace o) = [JsonBatch []]
    /\ In (OnEvent (mkEvent (Some (JsonBatch [])) None None None (Some contextChanged)))
          (out_trace o)
    /\ existingFiles (out_state o) =
         (if isCloudFlowConfigured props then reloaded w (existingFiles s) else []).
Proof.
  intros props w s o. subst o.
  unfold contextChangeEffect, loadExistingFilesWith, reloaded, listSuccess, listedFiles.
  run. destruct (isCloudFlowConfigured props); cbn [negb].
  - destruct (w_list w) as [[code text [[succ files err] | m]] | m |].
    + destruct (truthy (recordUid props) && _); run.
      all: destruct (ok _), succ, files as [| l |]; run; cbn; run.
      all: try (rewrite ?(mapFiles_noNull l);
                destruct (mapFiles l) as [mapped |] eqn:Hmap; run).
      all: try (destruct (isInitialLoad s); run).
      all: try (destruct (0 <? Z.of_nat (length mapped)); run).
      all: repeat split; try reflexivity; in_list.
    + destruct (truthy (recordUid props) && _); run.
      all: destruct (ok _); run; destruct (isInitialLoad s); run.
      all: repeat split; try reflexivity; in_list.
    + destruct (truthy (recordUid props) && _); run.
      all: destruct (isInitialLoad s); run.
      all: repeat split; try reflexivity; in_list.
    + destruct (truthy (recordUid props) && _); run.
      all: repeat split; try reflexivity; in_list.
  - destruct (truthy (recordUid props) && _); run.
    all: repeat split; try reflexivity; in_list.
Qed.

(** ** The progress timers of a run *)

Lemma delete_tick n r s :
  delete n (progressSimulationIntervals (tick n r s)) =
  delete n (progressSimulationIntervals s).
Proof.
  destruct (tick_cases n r s) as [[_ ->] | (sim & _ & ->)]; [reflexivity |].
  cbn. apply delete_insert_eq.
Qed.

Lemma delete_runTicks n rs s :
  delete n (progressSimulationIntervals (runTicks n rs s)) =
  delete n (progressSimulationIntervals s).
Proof.
  unfold runTicks. revert s. induction rs as [| r rs IH]; intros s; cbn; [reflexivity |].
  now rewrite IH, delete_tick.
Qed.

Lemma delete_flight n rs s :
  delete n (progressSimulationIntervals (runTicks n rs (startProgressSimulation n s))) =
  delete n (progressSimulationIntervals s).
Proof. rewrite delete_runTicks. cbn. apply delete_insert_eq. Qed.

Lemma uploadOne_timers props w f s r :
  name f <> "__proto__" ->
  out_completion (uploadOne props w f s) = Returned r ->
  progressSimulationIntervals (out_state (uploadOne props w f s)) =
    delete (name f) (progressSimulationIntervals s).
Proof.
  intros Hn. apply String.eqb_neq in Hn.
  unfold uploadOne, postFile, readAsBase64.
  destruct (content f) as [d | | m]; [destruct (String.eqb d "") |..];
    [| destruct (uploadOutcome (w_upload w f)) as [[code text js] | m |] |..]; run.
  2: destruct (ok _) eqn:Hok; run;
       [destruct js as [[succ u e r'] | m]; run; [destruct succ; run |] |].
  all: intros H; try discriminate; unfold stopProgressSimulation;
    cbn [progressSimulationIntervals setIntervals]; rewrite Hn; apply delete_flight.
Qed.

Lemma uploadFirst_timers props w f s rs :
  name f <> "__proto__" ->
  out_completion (uploadFirst props w f s) = Returned rs ->
  progressSimulationIntervals (out_state (uploadFirst props w f s)) =
    delete (name f) (progressSimulationIntervals s).
Proof.
  intros Hn. apply String.eqb_neq in Hn.
  unfold uploadFirst, postFile, readAsBase64.
  destruct (content f) as [d | | m]; [destruct (String.eqb d "") |..];
    [| destruct (uploadOutcome (w_upload w f)) as [[code text js] | m |] |..]; run.
  2: destruct (ok _) eqn:Hok; run;
       [destruct js as [[succ u e r'] | m]; run; [destruct succ; run |] |].
  all: intros H; try discriminate; unfold stopProgressSimulation;
    cbn [progressSimulationIntervals setIntervals]; rewrite Hn; apply delete_flight.
Qed.

Lemma intervals_fold_update {A} (g : A -> string) (u : A -> Updates) xs s :
  progressSimulationIntervals
    (fold_left (fun s' x => updateFileState (g x) (u x) s') xs s) =
  progressSimulationIntervals s.
Proof.
  revert s. induction xs as [| x xs IH]; intros s; cbn; [reflexivity |].
  now rewrite IH.
Qed.

Lemma uploadEach_timers props w files :
  ordinaryNames files ->
  forall acc s results,
    noTimerFor files s ->
    out_completion (uploadEach props w files acc s) = Returned results ->
    progressSimulationIntervals (out_state (uploadEach props w files acc s)) =
      progressSimulationIntervals s.
Proof.
  induction files as [| f files IH]; intros Hord acc s results Hno H; [reflexivity |].
  inversion Hord as [| ? ? Hf Hrest]; subst.
  cbn [uploadEach] in *. rewrite bind_run in *.
  destruct (out_completion (uploadOne props w f s)) as [r | e |] eqn:E; try discriminate.
  pose proof (uploadOne_timers props w f s r Hf E) as Ht.
  rewrite delete_id in Ht by (apply Hno; now left).
  cbn in *. rewrite (IH Hrest _ _ results); [exact Ht | | exact H].
  intros f' Hf'. rewrite Ht. apply Hno. now right.
Qed.

Lemma preserves_timers_loadExistingFilesWith props w b meanwhile :
  preserves progressSimulationIntervals meanwhile ->
  preserves progressSimulationIntervals (loadExistingFilesWith props w b meanwhile).
Proof. intros H. unfold loadExistingFilesWith. frame; exact H. Qed.

Lemma uploadToCloudFlow_timers props w files s results :
  ordinaryNames files ->
  noTimerFor files s ->
  out_completion (uploadToCloudFlow props w files s) = Returned results ->
  progressSimulationIntervals (out_state (uploadToCloudFlow props w files s)) =
    progressSimulationIntervals s.
Proof.
  intros Hord Hno. unfold uploadToCloudFlow.
  destruct (negb (isCloudFlowConfigured props)); [discriminate |].
  rewrite bind_run, markUploading_run. cbn [out_completion out_state out_trace].
  set (s1 := fold_left _ files s).
  assert (H1 : progressSimulationIntervals s1 = progressSimulationIntervals s)
    by apply (intervals_fold_update name
                (fun _ => mkUpdates (Some 0) (Some uploading) None None)).
  assert (Hno1 : noTimerFor files s1) by (intros f Hf; rewrite H1; now apply Hno).
  destruct (buttonAllowMultipleFiles props).
  - rewrite bind_run.
    destruct (out_completion (uploadEach props w files [] s1)) as [rs | e |] eqn:E;
      cbn [out_completion out_state out_trace]; try discriminate.
    rewrite bind_run, forEach_modify_state. cbn. intros _.
    rewrite (intervals_fold_update r_fileName resultUpdates).
    rewrite (uploadEach_timers props w files Hord [] s1 rs Hno1 E). exact H1.
  - destruct files as [| f0 rest]; [discriminate |].
    destruct (uploadFirst props w f0 s1) as [s2 t2 c2] eqn:E. cbn. intros ->.
    pose proof (uploadFirst_timers props w f0 s1 results) as Ht. rewrite E in Ht.
    cbn in Ht. rewrite Ht; [| now inversion Hord | reflexivity].
    rewrite delete_id; [exact H1 | apply Hno1; now left].
Qed.

Lemma neverRejects_uploadEach props w files :
  forall acc, neverRejects (uploadEach props w files acc).
Proof.
  induction files as [| f files IH]; intros acc; cbn [uploadEach].
  - apply neverRejects_ret.
  - apply neverRejects_bind; [unfold uploadOne; rejects_all | intros r; apply IH].
Qed.

Lemma neverRejects_processRemote props w b files :
  isCloudFlowConfigured props = true -> files <> [] ->
  neverRejects (processRemote props w b files).
Proof.
  intros Hc Hne. unfold processRemote, uploadToCloudFlow, markUploading,
    loadExistingFilesFrom. rewrite Hc. cbn [negb].
  destruct files as [| f0 rest]; [contradiction |].
  rejects_all.
  - apply neverRejects_uploadEach.
  - unfold uploadFirst. rejects_all.
  - apply neverRejects_loadExistingFilesWith, neverRejects_ret.
Qed.

Lemma processRemote_timers props w b files s :
  ordinaryNames files ->
  noTimerFor files s ->
  out_completion (processRemote props w b files s) = Returned tt ->
  progressSimulationIntervals (out_state (processRemote props w b files s)) =
    progressSimulationIntervals s.
Proof.
  intros Hord Hno. unfold processRemote. run.
  pose proof (uploadToCloudFlow_timers props w files s) as Hu.
  destruct (uploadToCloudFlow props w files s) as [s1 t1 [results | e |]]; run;
    try discriminate.
  specialize (Hu results Hord Hno eq_refl). cbn in Hu.
  destruct (List.existsb r_success results); run.
  - match goal with
    | |- context [loadExistingFilesFrom ?p ?w0 ?b0 ?s0] =>
        pose proof (preserves_timers_loadExistingFilesWith p w0 b0 (ret tt)
                      (fun s => eq_refl) s0) as Hl;
        unfold loadExistingFilesFrom;
        destruct (loadExistingFilesWith p w0 b0 (ret tt) s0) as [s2 t2 [[] | e |]]
    end; run; try discriminate.
    intros _. cbn in Hl. congruence.
  - intros _. exact Hu.
Qed.

Lemma preserves_timers_processLocal props c files :
  preserves progressSimulationIntervals (processLocal props c files).
Proof.
  unfold processLocal, processFilesAsJSON, markCompleted. frame.
  apply respects_promiseAll; [frame_rel | frame_rel |].
  apply List.Forall_forall. intros m Hm.
  apply List.in_map_iff in Hm. destruct Hm as (f' & <- & _).
  unfold readTask, readFile. frame.
Qed.

Lemma intervals_fold_stop files s :
  noTimerFor files s ->
  progressSimulationIntervals
    (fold_left (fun s' f => stopProgressSimulation (name f) s') files s) =
  progressSimulationIntervals s.
Proof.
  revert s. induction files as [| f files IH]; intros s Hno; cbn [fold_left]; [reflexivity |].
  assert (H : progressSimulationIntervals (stopProgressSimulation (name f) s)
              = progressSimulationIntervals s)
    by (cbn; destruct (String.eqb (name f) "__proto__");
        [reflexivity | apply delete_id, Hno; now left]).
  rewrite IH; [exact H |]. intros f' Hf'. rewrite H. apply Hno. now right.
Qed.

Lemma processFailed_timers files e s :
  noTimerFor files s ->
  progressSimulationIntervals (out_state (processFailed files e s)) =
    progressSimulationIntervals s.
Proof.
  intros Hno. unfold processFailed. run. rewrite stopAll_run. run.
  rewrite markFailed_run. run.
  rewrite (intervals_fold_update name
             (fun _ => mkUpdates (Some 0) (Some failed) None (Some (Some (errorText e))))).
  now apply (intervals_fold_stop files (setButtonLoadingState Initial s)).
Qed.

(** X18. A run of files with ordinary names leaves no progress timer
    behind. If no file is named [__proto__] and none of the files has a live
    timer when [processFiles] starts, then whenever the call returns (after
    successes, failures, or an unreadable file) the set of live timers is
    exactly what it was: every timer the run started has been stopped. *)
Theorem returned_run_leaves_no_timer :
  forall (props : Props) (w : World) (files : list File) (s : St),
    ordinaryNames files ->
    noTimerFor files s ->
    let o := processFiles props w files s in
    out_completion o = Returned tt ->
    progressSimulationIntervals (out_state o) = progressSimulationIntervals s
    /\ noTimerFor files (out_state o).
Proof.
  intros props w files s Hord Hno o Hret.
  assert (H : progressSimulationIntervals (out_state o) = progressSimulationIntervals s).
  2: { split; [exact H |]. intros f Hf. rewrite H. now apply Hno. }
  subst o. revert Hret. unfold processFiles.
  destruct files as [| f0 rest] eqn:E; [reflexivity |]. rewrite <- E in *.
  assert (Hne : files <> []) by (rewrite E; discriminate). clear E. run.
  destruct (isCloudFlowConfigured props) eqn:Hc.
  - destruct (buttonShowActionSpinner props); run.
    all: match goal with
         | |- context [processRemote ?p ?w0 ?b0 ?l ?s0] =>
             pose proof (processRemote_timers p w0 b0 l s0 Hord) as Ht;
             pose proof (neverRejects_processRemote p w0 b0 l Hc Hne s0) as Hr;
             destruct (processRemote p w0 b0 l s0) as [s1 t1 [[] | e |]]
         end; run; try discriminate.
    all: try (now destruct (Hr e)).
    all: intros _; cbn in Ht; apply Ht; [| reflexivity];
         intros f Hf; cbn; now apply Hno.
  - destruct (buttonShowActionSpinner props); run.
    all: match goal with
         | |- context [processLocal ?p ?c ?l ?s0] =>
             pose proof (preserves_timers_processLocal p c l s0) as Ht;
             destruct (processLocal p c l s0) as [s1 t1 [[] | e |]]
         end; run; try discriminate.
    all: cbn in Ht.
    all: try (intros _; now rewrite <- Ht).
    all: match goal with
         | |- context [processFailed ?l ?e0 ?s0] =>
             pose proof (processFailed_timers l e0 s0) as Hf;
             destruct (processFailed l e0 s0) as [s2 t2 c2]
         end; cbn in *; intros _; rewrite Hf, <- Ht; [reflexivity |];
         intros f Hin; rewrite <- Ht; now apply Hno.
Qed.

Lemma returned_run_leaves_no_timer_witness :
  ordinaryNames [Sample.pdf "a.pdf" 1]
  /\ noTimerFor [Sample.pdf "a.pdf" 1] (Sample.offered [Sample.pdf "a.pdf" 1])
  /\ out_completion
       (processFiles Sample.remoteMultiProps Demo.answering [Sample.pdf "a.pdf" 1]
          (Sample.offered [Sample.pdf "a.pdf" 1])) = Returned tt
  /\ progressSimulationIntervals
       (out_state
          (processFiles Sample.remoteMultiProps Demo.answering [Sample.pdf "a.pdf" 1]
             (Sample.offered [Sample.pdf "a.pdf" 1])))
     = progressSimulationIntervals (Sample.offered [Sample.pdf "a.pdf" 1]).
Proof.
  assert (H0 : ordinaryNames [Sample.pdf "a.pdf" 1])
    by (repeat constructor; discriminate).
  assert (H1 : noTimerFor [Sample.pdf "a.pdf" 1] (Sample.offered [Sample.pdf "a.pdf" 1]))
    by (intros f _; reflexivity).
  assert (H2 : out_completion
                 (processFiles Sample.remoteMultiProps Demo.answering
                    [Sample.pdf "a.pdf" 1] (Sample.offered [Sample.pdf "a.pdf" 1]))
               = Returned tt) by (vm_compute; reflexivity).
  split; [exact H0 |]. split; [exact H1 |]. split; [exact H2 |].
  exact (proj1 (returned_run_leaves_no_timer Sample.remoteMultiProps Demo.answering
                  [Sample.pdf "a.pdf" 1] (Sample.offered [Sample.pdf "a.pdf" 1])
                  H0 H1 H2)).
Defined.

(** A file named [__proto__]: the run returns, the file is uploaded, and
    its timer is still live afterwards, so a later tick moves the progress
    of an entry of that name again. *)
Example proto_named_file_keeps_its_timer :
  let p := Sample.pdf "__proto__" 1 in
  let o := processFiles Sample.remoteMultiProps
             (Sample.world [(1#2)%Q] Sample.emptyList) [p] (Sample.offered [p]) in
  out_completion o = Returned tt
  /\ noTimerFor [p] (Sample.offered [p])
  /\ progressSimulationIntervals (out_state o) !! "__proto__" = Some (15#2)%Q.
Proof.
  split; [vm_compute; reflexivity |]. split; [intros f _; reflexivity |].
  vm_compute. reflexivity.
Qed.

(** ** The hint under the button *)

Lemma removeFirst_star_nonempty t :
  t <> "" -> t <> "*" -> Js.removeFirst "*" t <> "".
Proof.
  destruct t as [| c t]; [contradiction |]. intros _ H. cbn.
  destruct (Ascii.eqb c "*") eqn:E; [| discriminate].
  apply Ascii.eqb_eq in E. subst c. intros ->. now apply H.
Qed.

Lemma startsWith_empty_string p : p <> "" -> Js.startsWith "" p = false.
Proof. destruct p; [contradiction | reflexivity]. Qed.

Lemma nameless_never_matches t :
  t <> "" -> t <> "*" ->
  matchesAllowedType (Js.toLowerCase (type namelessFile)) (fileExtensionOf namelessFile) t
  = false.
Proof.
  intros H1 H2. change (Js.toLowerCase (type namelessFile)) with "".
  change (fileExtensionOf namelessFile) with "". unfold matchesAllowedType.
  destruct (Js.includesChar "/" t).
  - rewrite (startsWith_empty_string _ (removeFirst_star_nonempty t H1 H2)).
    destruct t; [contradiction | reflexivity].
  - destruct (Js.startsWith t "."); [destruct t; [contradiction | reflexivity] |].
    reflexivity.
Qed.

Lemma parseAllowedTypes_entries allowed t :
  In t (parseAllowedTypes allowed) -> t <> "" /\ t <> "*".
Proof.
  unfold parseAllowedTypes. intros H. apply List.filter_In in H. destruct H as (_ & H).
  apply andb_true_iff in H. destruct H as (H1 & H2).
  apply negb_true_iff in H1, H2. now apply String.eqb_neq in H1, H2.
Qed.

Lemma nameless_rejected allowed :
  List.existsb
    (matchesAllowedType (Js.toLowerCase (type namelessFile)) (fileExtensionOf namelessFile))
    (parseAllowedTypes allowed) = false.
Proof.
  apply not_true_is_false. intros H. apply List.existsb_exists in H.
  destruct H as (t & Hin & Hm).
  destruct (parseAllowedTypes_entries allowed t Hin) as (H1 & H2).
  rewrite (nameless_never_matches t H1 H2) in Hm. discriminate.
Qed.

(** The type check accepts every file exactly when there is no effective
    entry in the allow-list. *)
Lemma typeCheck_unrestricted allowed :
  (forall f, typeCheckPasses allowed f = true) <->
  (String.eqb allowed "" || String.eqb (Js.trim allowed) ""
   || String.eqb (Js.trim allowed) "*" = true
   \/ parseAllowedTypes allowed = []).
Proof.
  unfold typeCheckPasses. split.
  - intros H. specialize (H namelessFile).
    destruct (_ || _ || _); [now left | right].
    destruct (parseAllowedTypes allowed) as [| t l] eqn:E; [reflexivity |].
    rewrite <- E in H. rewrite nameless_rejected in H. discriminate.
  - intros [-> | ->] f; [reflexivity |]. now destruct (_ || _ || _).
Qed.

Lemma hint_nonempty a b : a +:+ " " +:+ b <> "".
Proof. destruct a; discriminate. Qed.

Lemma displayedTypes_empty allowed :
  displayedTypes allowed = [] <-> parseAllowedTypes allowed = [].
Proof.
  unfold displayedTypes. destruct (parseAllowedTypes allowed); cbn; split;
    intros H; try discriminate; reflexivity.
Qed.

Lemma displayedTypes_dot pre p post :
  extensionWord p -> beforePattern pre -> afterPattern post ->
  displayedTypes (pre +:+ "." +:+ p +:+ post) = displayedTypes (pre +:+ p +:+ post).
Proof.
  intros Hw Hpre Hpost.
  destruct (Patterns.dotted_word p Hw) as (Hne' & Hstar' & Ht' & Hsep').
  destruct Hw as (Hne & Hstar & Ht & Hsep & Hslash & Hdot).
  destruct (Patterns.parseAllowedTypes_word pre post Hpre Hpost) as (A & B & HAB).
  change (pre +:+ "." +:+ p +:+ post) with (pre +:+ String "." p +:+ post).
  unfold displayedTypes.
  rewrite (HAB _ Hne' Hstar' Ht' Hsep'), (HAB _ Hne Hstar Ht Hsep).
  rewrite !List.map_app. f_equal. cbn [List.map]. f_equal.
  rewrite !Patterns.startsWith_lower_dot, Hdot.
  cbn. rewrite Patterns.startsWith_empty. reflexivity.
Qed.

Lemma getSecondaryContentText_run resources s :
  out_state (getSecondaryContentText resources s) = s
  /\ out_completion (getSecondaryContentText resources s)
     = Returned (hintFor resources (allowedFileTypes (adminConfig s))).
Proof.
  unfold getSecondaryContentText, getLocalizedString, hintFor, localized. run.
  destruct (_ || _ || _); run; [split; reflexivity |].
  destruct (displayedTypes _); run; [split; reflexivity |].
  destruct (resources "AllowedPrefix"); run; split; reflexivity.
Qed.

(** X19. The hint under the button agrees with the type check.
    [getSecondaryContentText] always returns and leaves the state alone.
    Its text is empty exactly when the allow-list of the configuration
    rejects no file for its type (it is empty, blank, the wildcard, or
    holds no entry but separators and wildcards); otherwise it is the
    localized prefix, a space and the entries in lower case, without their
    leading dot, joined by commas. Writing an extension of the list with or
    without its dot gives the same hint, as it gives the same verdicts. *)
Theorem hint_agrees_with_type_check :
  forall (resources : Resources) (s : St),
    let allowed := allowedFileTypes (adminConfig s) in
    let o := getSecondaryContentText resources s in
    out_state o = s
    /\ (exists text,
          out_completion o = Returned text
          /\ (text = "" <-> forall f, typeCheckPasses allowed f = true)
          /\ (text <> "" ->
              text = localized resources "AllowedPrefix" "Allowed" +:+ " "
                     +:+ String.concat "," (displayedTypes allowed)))
    /\ (forall pre p post,
          extensionWord p -> beforePattern pre -> afterPattern post ->
          out_completion
            (getSecondaryContentText resources
               (withAllowedTypes (pre +:+ "." +:+ p +:+ post) s))
          = out_completion
              (getSecondaryContentText resources
                 (withAllowedTypes (pre +:+ p +:+ post) s))).
Proof.
  intros resources s allowed o. subst o.
  destruct (getSecondaryContentText_run resources s) as (Hs & Hc). fold allowed in Hc.
  split; [exact Hs |]. split.
  - eexists. split; [exact Hc |].
    pose proof (typeCheck_unrestricted allowed) as Hiff.
    unfold hintFor. destruct (_ || _ || _) eqn:G.
    + split; [| intros C; now destruct C].
      split; [intros _; apply Hiff; now left | reflexivity].
    + destruct (displayedTypes allowed) as [| t l] eqn:E.
      * split; [| intros C; now destruct C].
        split; [intros _; apply Hiff; right; now apply displayedTypes_empty | reflexivity].
      * split; [| reflexivity].
        split; [intros C; now destruct (hint_nonempty _ _ C) |].
        intros Hall. apply Hiff in Hall. destruct Hall as [C | C]; [discriminate |].
        apply displayedTypes_empty in C. congruence.
  - intros pre p post Hw Hpre Hpost.
    rewrite (proj2 (getSecondaryContentText_run resources _)).
    rewrite (proj2 (getSecondaryContentText_run resources _)).
    cbn [withAllowedTypes adminConfig setAdminConfig allowedFileTypes]. f_equal.
    unfold hintFor.
    destruct (Patterns.dotted_word p Hw) as (Hne' & Hstar' & Ht' & _).
    pose proof Hw as (Hne & Hstar & Ht & Hrest).
    change (pre +:+ "." +:+ p +:+ post) with (pre +:+ String "." p +:+ post).
    destruct (Trim.guards_with_word pre (String "." p) post Hne' Hstar' Ht') as (-> & -> & ->).
    destruct (Trim.guards_with_word pre p post Hne Hstar Ht) as (-> & -> & ->).
    cbn [orb].
    change (pre +:+ String "." p +:+ post) with (pre +:+ "." +:+ p +:+ post).
    now rewrite (displayedTypes_dot pre p post Hw Hpre Hpost).
Qed.
Lemma hint_agrees_with_type_check_witness :
  extensionWord "PDF" /\ beforePattern "" /\ afterPattern ";docx"
  /\ out_completion
       (getSecondaryContentText (fun _ => None)
          (withAllowedTypes (".PDF;docx") (Sample.emptyState 10 "*")))
     = out_completion
         (getSecondaryContentText (fun _ => None)
            (withAllowedTypes ("PDF;docx") (Sample.emptyState 10 "*"))).
Proof.
  assert (Hw : extensionWord "PDF") by (repeat split; discriminate).
  assert (Hb : beforePattern "") by (exists "", ""; repeat split; now left).
  assert (Ha : afterPattern ";docx").
  { exists "", ";docx". repeat split. right. exists ";"%char, "docx". now split. }
  split; [exact Hw |]. split; [exact Hb |]. split; [exact Ha |].
  exact (proj2 (proj2 (hint_agrees_with_type_check (fun _ => None)
                         (Sample.emptyState 10 "*")))
           "" "PDF" ";docx" Hw Hb Ha).
Defined.

Example hint_of_a_mixed_list :
  out_completion
    (getSecondaryContentText (fun _ => None)
       (Sample.emptyState 10 " .PDF; docx ,image/*;*"))
  = Returned "Allowed pdf,docx,image/*".
Proof. vm_compute. reflexivity. Qed.

(** ** What an operation may write *)

Lemma tick_shape n r s :
  exists f g, tick n r s = setFileStates g (setIntervals f s).
Proof.
  destruct (tick_cases n r s) as [[_ ->] | (sim & _ & ->)].
  - exists (fun m => m), (fun l => l). now destruct s.
  - eexists _, _. reflexivity.
Qed.

Lemma runTicks_shape n rs s :
  exists f g, runTicks n rs s = setFileStates g (setIntervals f s).
Proof.
  unfold runTicks. revert s. induction rs as [| r rs IH]; intros s; cbn [fold_left].
  - exists (fun m => m), (fun l => l). now destruct s.
  - destruct (tick_shape n r s) as (f1 & g1 & ->).
    destruct (IH (setFileStates g1 (setIntervals f1 s))) as (f2 & g2 & ->).
    exists (fun m => f2 (f1 m)), (fun l => g2 (g1 l)). reflexivity.
Qed.

Lemma adminConfig_runTicks n rs s : adminConfig (runTicks n rs s) = adminConfig s.
Proof. destruct (runTicks_shape n rs s) as (f & g & ->). reflexivity. Qed.

Lemma existingFiles_runTicks n rs s : existingFiles (runTicks n rs s) = existingFiles s.
Proof. destruct (runTicks_shape n rs s) as (f & g & ->). reflexivity. Qed.

(** Decomposes a handler; the updates that are not plain setters are left
    to the given tactic. *)
Ltac frame_with tac :=
  repeat first
    [ frame_step
    | lazymatch goal with
      | |- respects _ _ (modify _) =>
          apply respects_modify_eq; [frame_rel | intros ?; tac]
      end ].

Ltac config_leaf := first [ apply adminConfig_runTicks | reflexivity ].
Ltac existing_leaf := first [ apply existingFiles_runTicks | reflexivity ].

Lemma preserves_config_loadExistingFilesWith props w b meanwhile :
  preserves adminConfig meanwhile ->
  preserves adminConfig (loadExistingFilesWith props w b meanwhile).
Proof. intros H. unfold loadExistingFilesWith. frame; exact H. Qed.

Lemma preserves_config_postFile props w f : preserves adminConfig (postFile props w f).
Proof. unfold postFile, readAsBase64. frame. Qed.

Lemma preserves_config_uploadEach props w files :
  forall acc, preserves adminConfig (uploadEach props w files acc).
Proof.
  induction files as [| f files IH]; intros acc; cbn [uploadEach].
  - apply respects_ret; frame_rel.
  - apply respects_bind; [frame_rel | | intros r; apply IH].
    unfold uploadOne. frame_with config_leaf. apply preserves_config_postFile.
Qed.

Lemma preserves_config_processFiles props w files :
  preserves adminConfig (processFiles props w files).
Proof.
  unfold processFiles, processRemote, processLocal, processFailed, uploadToCloudFlow,
    uploadFirst, processFilesAsJSON, markUploading, markCompleted, markFailed, stopAll,
    loadExistingFilesFrom.
  frame_with config_leaf.
  all: try apply preserves_config_uploadEach.
  all: try apply preserves_config_postFile.
  all: try (apply preserves_config_loadExistingFilesWith; apply respects_ret; frame_rel).
  all: apply respects_promiseAll; [frame_rel | frame_rel |];
    apply List.Forall_forall; intros m Hm;
    apply List.in_map_iff in Hm; destruct Hm as (f' & <- & _);
    unfold readTask, readFile; frame.
Qed.

Lemma preserves_config_step props a :
  writesConfig a = false -> preserves adminConfig (step props a).
Proof.
  destruct a; cbn [step writesConfig]; intros Hw; try discriminate.
  - apply respects_modify_eq; [frame_rel | reflexivity].
  - unfold removeFile. frame.
  - unfold clearNewFiles. frame.
  - unfold handleUploadAll. frame. apply preserves_config_processFiles.
  - apply preserves_config_processFiles.
  - unfold loadExistingFiles, loadExistingFilesFrom. frame.
    apply preserves_config_loadExistingFilesWith; apply respects_ret; frame_rel.
  - unfold handleDeleteExistingFile, loadExistingFilesFrom. frame.
    all: apply preserves_config_loadExistingFilesWith; apply respects_ret; frame_rel.
  - unfold handleViewExistingFile. frame.
  - unfold contextChangeEffect. frame.
    apply preserves_config_loadExistingFilesWith. frame.
  - apply respects_modify_eq; [frame_rel | intros s].
    destruct (tick_shape fileName random s) as (f & g & ->). reflexivity.
Qed.

Lemma preserves_existing_step props a :
  writesExisting a = false -> preserves existingFiles (step props a).
Proof.
  destruct a; cbn [step writesExisting]; intros Hw; try discriminate.
  - apply respects_modify_eq; [frame_rel | reflexivity].
  - unfold removeFile. frame.
  - unfold clearNewFiles. frame.
  - unfold handleViewExistingFile. frame.
  - apply respects_modify_eq; [frame_rel | intros s].
    destruct (tick_shape fileName random s) as (f & g & ->). reflexivity.
  - apply respects_modify_eq; [frame_rel | reflexivity].
  - apply respects_modify_eq; [frame_rel | reflexivity].
  - apply respects_modify_eq; [frame_rel | reflexivity].
Qed.

Lemma preserves_entries_loadExistingFilesWith {X} (proj : St -> X) props w b :
  (forall f s, proj (setExistingFiles f s) = proj s) ->
  (forall v s, proj (setShowFileList v s) = proj s) ->
  (forall v s, proj (setIsInitialLoad v s) = proj s) ->
  (forall v s, proj (setLoadingExistingFiles v s) = proj s) ->
  preserves proj (loadExistingFilesWith props w b (ret tt)).
Proof.
  intros H1 H2 H3 H4. unfold loadExistingFilesWith.
  frame_with ltac:(first [apply H1 | apply H2 | apply H3 | apply H4]).
Qed.

Lemma preserves_entries_step {X} (proj : St -> X) props a :
  (forall f s, proj (setExistingFiles f s) = proj s) ->
  (forall v s, proj (setShowFileList v s) = proj s) ->
  (forall v s, proj (setIsInitialLoad v s) = proj s) ->
  (forall v s, proj (setLoadingExistingFiles v s) = proj s) ->
  (forall f s, proj (setAdminConfig f s) = proj s) ->
  writesEntries a = false -> preserves proj (step props a).
Proof.
  intros H1 H2 H3 H4 H5.
  destruct a; cbn [step writesEntries]; intros Hw; try discriminate.
  - unfold loadExistingFiles, loadExistingFilesFrom.
    apply respects_bind; [frame_rel | apply respects_get; frame_rel | intros s0].
    now apply preserves_entries_loadExistingFilesWith.
  - unfold handleDeleteExistingFile, loadExistingFilesFrom.
    frame_with ltac:(first [apply H1 | apply H2 | apply H3 | apply H4]).
    all: now apply preserves_entries_loadExistingFilesWith.
  - unfold handleViewExistingFile. frame.
  - apply respects_modify_eq; [frame_rel | intros s; apply H5].
  - apply respects_modify_eq; [frame_rel | intros s; apply H5].
  - apply respects_modify_eq; [frame_rel | intros s; apply H5].
Qed.

(** X20. What the operations never write. Only the three admin edits change
    the configuration (limit and allow-list): selecting, removing,
    clearing, uploading, listing, deleting, viewing, a context change and
    timer ticks all leave it as it is. The existing files change only in
    operations that list them or delete one (an upload run, a reload, a
    delete, a context change): selecting, removing or clearing new files,
    viewing, ticks and admin edits never do. And listing, deleting, viewing
    and admin edits never change the entries or the selected files. Each
    holds whatever the network does, also while the operation is still
    waiting. *)
Theorem operations_write_only_their_own_state :
  forall (props : Props) (a : Action) (s : St),
    let s' := out_state (step props a s) in
    (writesConfig a = false -> adminConfig s' = adminConfig s)
    /\ (writesExisting a = false -> existingFiles s' = existingFiles s)
    /\ (writesEntries a = false ->
        fileStates s' = fileStates s /\ selectedFiles s' = selectedFiles s).
Proof.
  intros props a s s'. subst s'. split; [| split].
  - intros H. symmetry. now apply preserves_config_step.
  - intros H. symmetry. now apply preserves_existing_step.
  - intros H. split; symmetry.
    + apply (preserves_entries_step fileStates); try reflexivity. exact H.
    + apply (preserves_entries_step selectedFiles); try reflexivity. exact H.
Qed.

Lemma operations_write_only_their_own_state_witness :
  writesConfig (UploadAll Demo.answering) = false
  /\ adminConfig
       (out_state (step Sample.remoteMultiProps (UploadAll Demo.answering)
                     (Sample.offered [Sample.pdf "a.pdf" 1])))
     = adminConfig (Sample.offered [Sample.pdf "a.pdf" 1]).
Proof.
  split; [reflexivity |].
  exact (proj1 (operations_write_only_their_own_state Sample.remoteMultiProps
                  (UploadAll Demo.answering) (Sample.offered [Sample.pdf "a.pdf" 1]))
           eq_refl).
Defined.

(** ** The control class *)

Lemma deliver_cons e events c :
  Control.deliver (e :: events) c = Control.deliver events (Control.handleFileUpload e c).
Proof. reflexivity. Qed.

Section Field.

Context {V : Type} (P : Control.FluentFilesImportControl -> V)
  (F : Control.FileUploadEvent -> option string) (G : option string -> V).
Hypothesis step_field :
  forall e c, P (Control.handleFileUpload e c) = if truthy (F e) then G (F e) else P c.

Lemma deliver_silent events c :
  silentOn F events -> P (Control.deliver events c) = P c.
Proof.
  intros H. revert c. induction H as [| e events He _ IH]; intros c; [reflexivity |].
  rewrite deliver_cons, IH, step_field, He. reflexivity.
Qed.

Lemma deliver_latest pre e post c :
  truthy (F e) = true -> silentOn F post ->
  P (Control.deliver (pre ++ e :: post) c) = G (F e).
Proof.
  intros He Hpost. rewrite deliver_app, deliver_cons.
  rewrite (deliver_silent post _ Hpost), step_field, He. reflexivity.
Qed.

End Field.

Lemma statusNumber_range st : 0 <= Control.statusNumber st <= 3.
Proof.
  unfold Control.statusNumber.
  repeat (destruct (String.eqb st _); [lia |]). lia.
Qed.

(** X21. The control keeps, for each output, the latest non-empty value it
    was sent. After any sequence of events, [FilesAsJSON], [ExistingFiles]
    and [UploadResults] are the values of the last event that carried a
    non-empty one in the corresponding field, and are what they were before
    when no event did (the empty string when nothing was ever received): an
    event without a field, or with an empty string in it, never erases an
    output. [LastUploadStatus] is the number of the last non-empty status
    name, 0 for a name that is none of the four known; it stays between 0
    and 3. The host is notified once per event, whether or not an output
    changed. *)
Theorem outputs_keep_latest_non_empty_values :
  forall (events : list Control.FileUploadEvent) (c : Control.FluentFilesImportControl),
    let c' := Control.deliver events c in
    let out := Control.getOutputs c' in
    (silentOn Control.e_filesJSON events ->
       Control.FilesAsJSON out = Control.FilesAsJSON (Control.getOutputs c))
    /\ (silentOn Control.e_existingFiles events ->
          Control.ExistingFiles out = Control.ExistingFiles (Control.getOutputs c))
    /\ (silentOn Control.e_uploadResults events ->
          Control.UploadResults out = Control.UploadResults (Control.getOutputs c))
    /\ (silentOn Control.e_uploadStatus events ->
          Control.LastUploadStatus out = Control.LastUploadStatus (Control.getOutputs c))
    /\ (forall pre e post, events = pre ++ e :: post ->
          (truthy (Control.e_filesJSON e) = true -> silentOn Control.e_filesJSON post ->
             Control.FilesAsJSON out = orElse (Control.e_filesJSON e) "")
          /\ (truthy (Control.e_existingFiles e) = true ->
              silentOn Control.e_existingFiles post ->
              Control.ExistingFiles out = orElse (Control.e_existingFiles e) "")
          /\ (truthy (Control.e_uploadResults e) = true ->
              silentOn Control.e_uploadResults post ->
              Control.UploadResults out = orElse (Control.e_uploadResults e) "")
          /\ (truthy (Control.e_uploadStatus e) = true ->
              silentOn Control.e_uploadStatus post ->
              Control.LastUploadStatus out =
                pretty (Control.statusNumber (orElse (Control.e_uploadStatus e) ""))))
    /\ Control.notified c' = (Control.notified c + length events)%nat
    /\ (0 <= Control.lastUploadStatus c <= 3 -> 0 <= Control.lastUploadStatus c' <= 3).
Proof.
  intros events c c' out. subst out c'. unfold Control.getOutputs. cbn.
  split; [| split; [| split; [| split; [| split; [| split]]]]].
  - intros H. f_equal.
    apply (deliver_silent Control.filesAsJSON Control.e_filesJSON (fun v => v));
      [reflexivity | exact H].
  - intros H. f_equal.
    apply (deliver_silent Control.existingFilesJSON Control.e_existingFiles (fun v => v));
      [reflexivity | exact H].
  - intros H. f_equal.
    apply (deliver_silent Control.uploadResults Control.e_uploadResults (fun v => v));
      [reflexivity | exact H].
  - intros H. f_equal.
    apply (deliver_silent Control.lastUploadStatus Control.e_uploadStatus
             (fun v => Control.statusNumber (orElse v "")));
      [reflexivity | exact H].
  - intros pre e post ->. repeat split; intros He Hpost.
    + rewrite (deliver_latest Control.filesAsJSON Control.e_filesJSON (fun v => v));
        try assumption; [| reflexivity].
      destruct (Control.e_filesJSON e) as [v |]; [| discriminate].
      cbn in *. destruct (String.eqb v ""); [discriminate | reflexivity].
    + rewrite (deliver_latest Control.existingFilesJSON Control.e_existingFiles (fun v => v));
        try assumption; [| reflexivity].
      destruct (Control.e_existingFiles e) as [v |]; [| discriminate].
      cbn in *. destruct (String.eqb v ""); [discriminate | reflexivity].
    + rewrite (deliver_latest Control.uploadResults Control.e_uploadResults (fun v => v));
        try assumption; [| reflexivity].
      destruct (Control.e_uploadResults e) as [v |]; [| discriminate].
      cbn in *. destruct (String.eqb v ""); [discriminate | reflexivity].
    + rewrite (deliver_latest Control.lastUploadStatus Control.e_uploadStatus
                 (fun v => Control.statusNumber (orElse v "")));
        try assumption; reflexivity.
  - revert c. induction events as [| e events IH]; intros c; [cbn; lia |].
    rewrite deliver_cons, IH. cbn. lia.
  - revert c. induction events as [| e events IH]; intros c; [trivial |].
    rewrite deliver_cons. intros H. apply IH. cbn.
    destruct (truthy (Control.e_uploadStatus e)); [apply statusNumber_range | exact H].
Qed.

Lemma outputs_keep_latest_non_empty_values_witness :
  silentOn Control.e_filesJSON
    [Control.mkFileUploadEvent (Some "") None None (Some "InProgress")]
  /\ Control.FilesAsJSON
       (Control.getOutputs
          (Control.deliver
             [Control.mkFileUploadEvent (Some "") None None (Some "InProgress")]
             (Control.mkControl (Some "[1]") None None 2 0)))
     = "[1]".
Proof.
  assert (H : silentOn Control.e_filesJSON
                [Control.mkFileUploadEvent (Some "") None None (Some "InProgress")])
    by (repeat constructor).
  split; [exact H |].
  exact (proj1 (outputs_keep_latest_non_empty_values
                  [Control.mkFileUploadEvent (Some "") None None (Some "InProgress")]
                  (Control.mkControl (Some "[1]") None None 2 0)) H).
Defined.

(** X22. [updateView] normalises the parameters it passes on. An endpoint
    URL, the container path, the folder name and the record identity reach
    the component as [null] or as a non-empty string, never as an empty
    one; the size limit is never 0 (a missing or zero parameter becomes
    20) and the allow-list is never empty (a missing or empty one becomes
    the wildcard, which accepts every file). So with these props the remote
    mode is configured exactly when the four endpoint URLs, the container
    path and the record identity are non-empty in the parameters and the
    record identity is not blank. *)
Theorem updateView_normalises_parameters :
  forall (parameters : Control.IInputs),
    let props := Control.updateView parameters in
    Forall (fun o => o <> Some "")
      [cloudFlowUploadUrl props; cloudFlowListFilesUrl props; cloudFlowDeleteUrl props;
       cloudFlowDownloadUrl props; containerPath props; listFilesFolderName props;
       recordUid props]
    /\ propMaxTotalFileSizeMB props <> 0
    /\ buttonAllowedFileTypes props <> ""
    /\ (truthy (Control.AllowedFileTypes parameters) = false ->
        forall f, typeCheckPasses (buttonAllowedFileTypes props) f = true)
    /\ isCloudFlowConfigured props =
         truthy (Control.RecordUid parameters)
         && negb (String.eqb (Js.trim (orElse (Control.RecordUid parameters) "")) "")
         && truthy (Control.CloudFlowDownloadUrl parameters)
         && truthy (Control.CloudFlowUploadUrl parameters)
         && truthy (Control.CloudFlowListFilesUrl parameters)
         && truthy (Control.CloudFlowDeleteUrl parameters)
         && truthy (Control.ContainerPath parameters).
Proof.
  intros parameters props. subst props.
  assert (Hn : forall raw, Control.orNull raw <> Some "").
  { intros [v |]; unfold Control.orNull; cbn; [| discriminate].
    destruct (String.eqb v "") eqn:E; cbn; [discriminate |].
    apply String.eqb_neq in E. congruence. }
  assert (Ht : forall raw, truthy (Control.orNull raw) = truthy raw).
  { intros [v |]; unfold Control.orNull; cbn; [| reflexivity].
    destruct (String.eqb v "") eqn:E; cbn; [reflexivity | now rewrite E]. }
  assert (Ho : forall raw d, orElse (Control.orNull raw) d = orElse raw d).
  { intros [v |] d; unfold Control.orNull; cbn; [| reflexivity].
    destruct (String.eqb v "") eqn:E; cbn; [reflexivity | now rewrite E]. }
  split; [repeat constructor; apply Hn |].
  split.
  { cbn. destruct (Control.MaxTotalFileSizeMB parameters) as [n |]; [| discriminate].
    destruct (n =? 0) eqn:E; [discriminate | now apply Z.eqb_neq]. }
  split.
  { cbn. destruct (Control.AllowedFileTypes parameters) as [v |]; cbn; [| discriminate].
    destruct (String.eqb v "") eqn:E; [discriminate | now apply String.eqb_neq]. }
  split.
  { intros H f. cbn.
    destruct (Control.AllowedFileTypes parameters) as [v |]; cbn in *; [| reflexivity].
    destruct (String.eqb v ""); [reflexivity | discriminate]. }
  unfold isCloudFlowConfigured. cbn [Control.updateView recordUid cloudFlowDownloadUrl
    cloudFlowUploadUrl cloudFlowListFilesUrl cloudFlowDeleteUrl containerPath].
  now rewrite !Ht, Ho.
Qed.

Lemma updateView_normalises_parameters_witness :
  truthy (Control.AllowedFileTypes
            (Control.mkInputs None None (Some "") (Some 0) None None None None None None None))
    = false
  /\ typeCheckPasses
       (buttonAllowedFileTypes
          (Control.updateView
             (Control.mkInputs None None (Some "") (Some 0) None None None None None None None)))
       (Sample.pdf "a.pdf" 1) = true.
Proof.
  split; [reflexivity |].
  exact (proj1 (proj2 (proj2 (proj2 (updateView_normalises_parameters
           (Control.mkInputs None None (Some "") (Some 0) None None None None None None None)))))
           eq_refl (Sample.pdf "a.pdf" 1)).
Defined.

(** ** Button utilities *)

Lemma parseInt_word v : startsWithWord v = true -> Utils.parseInt v = None.
Proof.
  destruct v as [| c v]; [discriminate |].
  destruct c as [[] [] [] [] [] [] [] []]; vm_compute; try discriminate; reflexivity.
Qed.

Lemma convertEnum_word names what v :
  startsWithWord v = true ->
  Utils.convertEnum names what v
  = Thrown (ErrorObj ("Invalid button " +:+ what +:+ ": " +:+ v)).
Proof. intros H. unfold Utils.convertEnum. now rewrite (parseInt_word v H). Qed.

Lemma convertEnum_member names what v r :
  Utils.convertEnum names what v = Returned r ->
  In r names /\ exists k, Utils.parseInt v = Some k /\ 0 <= k < Z.of_nat (length names).
Proof.
  unfold Utils.convertEnum. destruct (Utils.parseInt v) as [k |]; [| discriminate].
  destruct (Utils.inEnum names k) eqn:E; [| discriminate]. cbn. intros [= <-].
  unfold Utils.inEnum in E. apply andb_prop in E as [E1 E2].
  apply Z.leb_le in E1. apply Z.ltb_lt in E2. split; [| exists k; split; [reflexivity | lia]].
  unfold Utils.enumName. apply nth_In. lia.
Qed.

Lemma convertEnum_code names what v k :
  Utils.parseInt v = Some k -> 0 <= k < Z.of_nat (length names) ->
  Utils.convertEnum names what v = Returned (nth (Z.to_nat k) names "").
Proof.
  intros Hp Hk. unfold Utils.convertEnum, Utils.inEnum. rewrite Hp.
  replace (0 <=? k) with true by (symmetry; apply Z.leb_le; lia).
  replace (k <? Z.of_nat (length names)) with true by (symmetry; apply Z.ltb_lt; lia).
  reflexivity.
Qed.

Lemma convertEnum_converts names what v :
  converts (Z.of_nat (length names)) names (Utils.convertEnum names what) v.
Proof.
  split; [split |].
  - intros [r H]. apply convertEnum_member in H as [_ H]. exact H.
  - intros (k & Hp & Hk). eexists. apply (convertEnum_code _ _ _ k); assumption.
  - split.
    + intros r H. apply convertEnum_member in H as [H _]. exact H.
    + unfold Utils.convertEnum. destruct (Utils.parseInt v); [| discriminate].
      destruct (negb _); discriminate.
Qed.

Lemma getButtonAlign_spec v :
  Utils.getButtonAlign v
  = match Utils.convertEnum Utils.ButtonAlign "align" v with
    | Returned member =>
        Returned (if String.eqb member "left" then "flex-start"
                  else if String.eqb member "center" then "center"
                  else if String.eqb member "right" then "flex-end"
                  else if String.eqb member "justify" then "stretch"
                  else "center")
    | Thrown e => Thrown e
    | StillPending => StillPending
    end.
Proof.
  unfold Utils.getButtonAlign, Utils.convertEnum.
  destruct (Utils.parseInt v); [| reflexivity]. now destruct (negb _).
Qed.

Lemma getButtonFontWeight_spec v :
  Utils.getButtonFontWeight v
  = match Utils.convertEnum Utils.ButtonFontWeight "font weight" v with
    | Returned member =>
        Returned (if String.eqb member "bold" then "bold"
                  else if String.eqb member "semibold" then "semibold"
                  else if String.eqb member "normal" then "normal"
                  else if String.eqb member "lighter" then "lighter"
                  else "normal")
    | Thrown e => Thrown e
    | StillPending => StillPending
    end.
Proof.
  unfold Utils.getButtonFontWeight, Utils.convertEnum.
  destruct (Utils.parseInt v); [| reflexivity]. now destruct (negb _).
Qed.

Ltac in_small_list :=
  repeat match goal with
         | H : In _ (_ :: _) |- _ => destruct H as [<- | H]
         | H : In _ [] |- _ => destruct H
         end.

Lemma getButtonAlign_converts v :
  converts 4 ["flex-start"; "center"; "flex-end"; "stretch"] Utils.getButtonAlign v.
Proof.
  destruct (convertEnum_converts Utils.ButtonAlign "align" v) as ((H1 & H2) & H3 & H4).
  unfold converts. rewrite getButtonAlign_spec.
  destruct (Utils.convertEnum Utils.ButtonAlign "align" v) as [m | e |] eqn:E.
  - split; [split; [intros _; apply H1; now exists m | intros _; eauto] |].
    split; [| discriminate]. intros r [= <-].
    specialize (H3 m eq_refl).
    unfold Utils.ButtonAlign, Utils.ButtonFontWeight in H3.
    in_small_list; cbn; in_list.
  - split; [split; [intros [r Hr]; discriminate | intros Hc; destruct (H2 Hc); discriminate] |].
    split; [intros r; discriminate | discriminate].
  - now contradiction H4.
Qed.

Lemma getButtonFontWeight_converts v :
  converts 4 ["bold"; "lighter"; "normal"; "semibold"] Utils.getButtonFontWeight v.
Proof.
  destruct (convertEnum_converts Utils.ButtonFontWeight "font weight" v)
    as ((H1 & H2) & H3 & H4).
  unfold converts. rewrite getButtonFontWeight_spec.
  destruct (Utils.convertEnum Utils.ButtonFontWeight "font weight" v) as [m | e |] eqn:E.
  - split; [split; [intros _; apply H1; now exists m | intros _; eauto] |].
    split; [| discriminate]. intros r [= <-].
    specialize (H3 m eq_refl).
    unfold Utils.ButtonAlign, Utils.ButtonFontWeight in H3.
    in_small_list; cbn; in_list.
  - split; [split; [intros [r Hr]; discriminate | intros Hc; destruct (H2 Hc); discriminate] |].
    split; [intros r; discriminate | discriminate].
  - now contradiction H4.
Qed.

(** X23. The button converters accept codes, not names. Each of
    [getButtonAppearance], [getButtonIconPosition], [getButtonShape],
    [getButtonSize], [getButtonAlign] and [getButtonFontWeight] returns
    exactly when its argument parses, as [Number.parseInt] parses it, to a
    member code of its enumeration, and then returns one of the fixed
    values of that enumeration; in every other case it throws.
    [getButtonStyle] returns exactly when both the alignment and the weight
    are accepted, and an alignment that is rejected is the one reported,
    whatever the weight. *)
Theorem converters_accept_exactly_member_codes :
  forall (value : string),
    converts 5 Utils.ButtonAppearanceEnum Utils.getButtonAppearance value
    /\ converts 2 Utils.ButtonIconPositionEnum Utils.getButtonIconPosition value
    /\ converts 3 Utils.ButtonShapeEnum Utils.getButtonShape value
    /\ converts 3 Utils.ButtonSizeEnum Utils.getButtonSize value
    /\ converts 4 ["flex-start"; "center"; "flex-end"; "stretch"] Utils.getButtonAlign value
    /\ converts 4 ["bold"; "lighter"; "normal"; "semibold"] Utils.getButtonFontWeight value
    /\ (forall width height weight,
          (exists style, Utils.getButtonStyle width height value weight = Returned style)
          <-> codeIn 4 value /\ codeIn 4 weight)
    /\ (forall width height weight e,
          Utils.getButtonAlign value = Thrown e ->
          Utils.getButtonStyle width height value weight = Thrown e).
Proof.
  intros value.
  split; [apply (convertEnum_converts Utils.ButtonAppearanceEnum) |].
  split; [apply (convertEnum_converts Utils.ButtonIconPositionEnum) |].
  split; [apply (convertEnum_converts Utils.ButtonShapeEnum) |].
  split; [apply (convertEnum_converts Utils.ButtonSizeEnum) |].
  split; [apply getButtonAlign_converts |].
  split; [apply getButtonFontWeight_converts |].
  split.
  - intros width height weight.
    destruct (getButtonAlign_converts value) as ((A1 & A2) & _ & A3).
    destruct (getButtonFontWeight_converts weight) as ((W1 & W2) & _ & W3).
    unfold Utils.getButtonStyle.
    destruct (Utils.getButtonAlign value) as [j | e |] eqn:EA.
    + destruct (Utils.getButtonFontWeight weight) as [w | e |] eqn:EW.
      * split; [intros _; split; [apply A1 | apply W1]; eauto | intros _; eauto].
      * split; [intros [st Hst]; discriminate |].
        intros [_ Hw]. destruct (W2 Hw). discriminate.
      * now contradiction W3.
    + split; [intros [st Hst]; discriminate |].
      intros [Ha _]. destruct (A2 Ha). discriminate.
    + now contradiction A3.
  - intros width height weight e H. unfold Utils.getButtonStyle. now rewrite H.
Qed.

Lemma converters_accept_exactly_member_codes_witness :
  Utils.getButtonAlign "left" = Thrown (ErrorObj "Invalid button align: left")
  /\ Utils.getButtonStyle 192 32 "left" "0"
     = Thrown (ErrorObj "Invalid button align: left").
Proof.
  split; [reflexivity |].
  exact (proj2 (proj2 (proj2 (proj2 (proj2 (proj2 (proj2
           (converters_accept_exactly_member_codes "left")))))))
           192 32 "0" (ErrorObj "Invalid button align: left") eq_refl).
Defined.

(** X24. The names [updateView] falls back to are not codes. A value whose
    first character is neither white space, a sign nor a digit is rejected
    by every converter with [Invalid button ...: value]. So when the host
    leaves an enumeration parameter empty, the fallback that [updateView]
    substitutes for it ([Primary], [Before], [Rounded], [Medium], [Center],
    [Normal]) makes the matching converter throw. *)
Theorem converters_reject_fallback_names :
  forall (value : string),
    startsWithWord value = true ->
    Utils.getButtonAppearance value = invalidButton "appearance" value
    /\ Utils.getButtonIconPosition value = invalidButton "icon position" value
    /\ Utils.getButtonShape value = invalidButton "shape" value
    /\ Utils.getButtonSize value = invalidButton "size" value
    /\ Utils.getButtonAlign value = invalidButton "align" value
    /\ Utils.getButtonFontWeight value = invalidButton "font weight" value
    /\ (forall raw, truthy raw = false ->
          startsWithWord (Control.appearanceProp raw) = true
          /\ startsWithWord (Control.iconPositionProp raw) = true
          /\ startsWithWord (Control.shapeProp raw) = true
          /\ startsWithWord (Control.buttonSizeProp raw) = true
          /\ startsWithWord (Control.alignProp raw) = true
          /\ startsWithWord (Control.fontWeightProp raw) = true).
Proof.
  intros value H.
  split; [apply convertEnum_word, H |].
  split; [apply convertEnum_word, H |].
  split; [apply convertEnum_word, H |].
  split; [apply convertEnum_word, H |].
  split; [rewrite getButtonAlign_spec, (convertEnum_word _ _ _ H); reflexivity |].
  split; [rewrite getButtonFontWeight_spec, (convertEnum_word _ _ _ H); reflexivity |].
  intros raw Hr.
  unfold Control.appearanceProp, Control.iconPositionProp, Control.shapeProp,
    Control.buttonSizeProp, Control.alignProp, Control.fontWeightProp.
  destruct raw as [v |]; cbn in *; [| repeat split].
  destruct (String.eqb v ""); [repeat split | discriminate].
Qed.

Lemma converters_reject_fallback_names_witness :
  startsWithWord (Control.alignProp None) = true
  /\ Utils.getButtonAlign (Control.alignProp None)
     = Thrown (ErrorObj "Invalid button align: Center").
Proof.
  split; [reflexivity |].
  exact (proj1 (proj2 (proj2 (proj2 (proj2
           (converters_reject_fallback_names (Control.alignProp None) eq_refl)))))).
Defined.

(** ** The flow client *)

Import FlowClient.
Local Open Scope flow_scope.

Lemma endsWithSlash_app u : endsWithSlash (u +:+ "/") = true.
Proof.
  induction u as [| c u IH]; [reflexivity |].
  rewrite Trim.append_cons. cbn [endsWithSlash]. rewrite IH.
  destruct (u +:+ "/") eqn:E; [| reflexivity].
  destruct u; discriminate.
Qed.

Lemma dropLast_app u c : dropLast (u +:+ String c "") = u.
Proof.
  induction u as [| d u IH]; [reflexivity |].
  rewrite Trim.append_cons. cbn [dropLast]. rewrite IH.
  destruct (u +:+ String c "") eqn:E; [destruct u; discriminate | reflexivity].
Qed.

(** X25. The trigger URL does not depend on a trailing slash of the
    environment URL: for an environment URL that does not end in a slash,
    [buildFlowUrl] gives [url/_api/cloudflow/v1.0/trigger/id] whether the
    configuration holds the URL as it is or with one slash appended. Only
    one slash is removed: with two appended, one stays. *)
Theorem buildFlowUrl_ignores_one_trailing_slash :
  forall (config : ICloudFlowConfig) (url flowId : string),
    endsWithSlash url = false ->
    let at_ (u : string) :=
      mkConfig u (authToken config) (uploadFlowId config) (listFilesFlowId config)
        (deleteFlowId config) (generateViewUrlFlowId config) (flowContainerPath config)
        (timeout config) in
    buildFlowUrl (at_ url) flowId = url +:+ "/_api/cloudflow/v1.0/trigger/" +:+ flowId
    /\ buildFlowUrl (at_ (url +:+ "/")) flowId = buildFlowUrl (at_ url) flowId
    /\ buildFlowUrl (at_ (url +:+ "//")) flowId
       = url +:+ "//_api/cloudflow/v1.0/trigger/" +:+ flowId.
Proof.
  intros config url flowId H at_. subst at_. unfold buildFlowUrl. cbn [environmentUrl].
  rewrite H, endsWithSlash_app, dropLast_app.
  split; [reflexivity |]. split; [reflexivity |].
  replace (url +:+ "//") with ((url +:+ "/") +:+ "/").
  - rewrite endsWithSlash_app, dropLast_app.
    rewrite !Trim.append_assoc_s. reflexivity.
  - rewrite Trim.append_assoc_s. reflexivity.
Qed.

Lemma buildFlowUrl_ignores_one_trailing_slash_witness :
  endsWithSlash "https://org.example" = false
  /\ buildFlowUrl (mkConfig "https://org.example/" "t" "u" "l" "d" "g" "c" None) "u"
     = "https://org.example/_api/cloudflow/v1.0/trigger/u".
Proof.
  split; [reflexivity |].
  destruct (buildFlowUrl_ignores_one_trailing_slash
              (mkConfig "" "t" "u" "l" "d" "g" "c" None) "https://org.example" "u" eq_refl)
    as (H1 & H2 & _).
  exact (eq_trans H2 H1).
Defined.

(** ** The flow client: uploads *)

Import FlowClient.
Local Open Scope flow_scope.

Ltac flow :=
  cbv [uploadFileToCloudFlow fileToBase64 report invokeCloudFlow FlowClient.bind
       FlowClient.tryCatch tell FlowClient.ret FlowClient.throw flowAnswer
       listExistingFilesFromCloudFlow generateViewUrlFromCloudFlow
       deleteFileFromCloudFlow];
  cbn [fst snd app].

(** The ways a single upload can go. *)
Lemma uploadFileToCloudFlow_cases f config folderName onProgress endpoint :
  let run := uploadFileToCloudFlow (Some f) config folderName onProgress endpoint in
  let progress p := match onProgress with Some callback => [callback p] | None => [] end in
  let sent d :=
    progress (mkProgress 0 (size f) 0)
      ++ progress (mkProgress (inject_Z (size f) * 0.5) (size f) 50)
      ++ [uploadPost config folderName f d] in
  match readableAs f with
  | None =>
      run = (progress (mkProgress 0 (size f) 0)
               ++ [LogError ("Cloud Flow upload error: " +:+ readFailure f)],
             Returned (Some (failedUpload f (readFailure f))))
  | Some d =>
      match flowAnswer config endpoint with
      | Returned (Some response) =>
          run = (sent d ++ progress (mkProgress (inject_Z (size f)) (size f) 100),
                 Returned (Some (uploadResultOf response)))
      | Returned None =>
          run = (sent d ++ progress (mkProgress (inject_Z (size f)) (size f) 100)
                   ++ [LogError ("Cloud Flow upload error: "
                                 +:+ "Cannot read properties of null (reading 'fileName')")],
                 Returned (Some (failedUpload f
                                   "Cannot read properties of null (reading 'fileName')")))
      | Thrown e =>
          run = (sent d ++ [LogError ("Cloud Flow upload error: " +:+ errorText e)],
                 Returned (Some (failedUpload f (errorText e))))
      | StillPending => run = (sent d, StillPending)
      end
  end.
Proof.
  intros run progress sent. subst run progress sent.
  unfold readableAs, readFailure, uploadPost, failedUpload, uploadResultOf.
  flow.
  destruct (content f) as [d | | m]; [destruct (String.eqb d "") |..].
  - destruct onProgress; cbn; eauto.
  - destruct (CloudFlows.invokeCloudFlow _ endpoint) as [[response |] | e |];
      destruct onProgress; cbn; reflexivity.
  - destruct onProgress; cbn; eauto.
  - destruct onProgress; cbn; eauto.
Qed.

Lemma uploadFileToCloudFlow_ends f config folderName onProgress endpoint :
  let run := uploadFileToCloudFlow (Some f) config folderName onProgress endpoint in
  (forall e, snd run <> Thrown e)
  /\ (snd run = StillPending <-> readableAs f <> None /\ stalls config endpoint)
  /\ (snd run <> StillPending -> exists r, snd run = Returned (Some r)).
Proof.
  pose proof (uploadFileToCloudFlow_cases f config folderName onProgress endpoint) as H.
  cbv zeta in *. unfold stalls.
  destruct (readableAs f) as [d |].
  - destruct (flowAnswer config endpoint) as [[response |] | e |]; rewrite H; cbn.
    1-3: split; [discriminate |]; split;
      [split; [discriminate | intros [_ C]; discriminate] | eauto].
    split; [discriminate |].
    split; [split; [intros _; split; [discriminate | reflexivity] | reflexivity] |].
    intros C. now contradiction C.
  - rewrite H; cbn. split; [discriminate |]. split; [| eauto].
    split; [discriminate | intros [C _]; now contradiction C].
Qed.



(** A flow that answers with the body [null]: all three percentages are
    reported, then reading the body throws and the result is a failure. *)
Example upload_answered_with_null :
  let run :=
    uploadFileToCloudFlow (Some (Sample.pdf "a.pdf" 1))
      (mkConfig "https://org.example" "t" "u" "l" "d" "g" "c" None) None
      (Some (OnProgress None))
      (CloudFlows.RespondsAfter 10 (mkResponse 200 "OK" (Parsed None))) in
  percentages (fst run) = [0; 50; 100]
  /\ snd run = Returned (Some (failedUpload (Sample.pdf "a.pdf" 1)
                                 "Cannot read properties of null (reading 'fileName')")).
Proof. vm_compute. split; reflexivity. Qed.

(** The loop over the files, file by file. *)
Lemma uploadEachFile_cons f files config folderName onProgress endpoints results :
  uploadEachFile (f :: files) config folderName onProgress endpoints results
  = match snd (singleUpload config folderName onProgress endpoints f) with
    | Returned result =>
        let '(t, c) :=
          uploadEachFile files config folderName onProgress endpoints
            (match result with Some r => results ++ [r] | None => results end) in
        (fst (singleUpload config folderName onProgress endpoints f) ++ t, c)
    | Thrown e => (fst (singleUpload config folderName onProgress endpoints f), Thrown e)
    | StillPending =>
        (fst (singleUpload config folderName onProgress endpoints f), StillPending)
    end.
Proof.
  unfold singleUpload. cbn [uploadEachFile]. unfold FlowClient.bind at 1.
  destruct (uploadFileToCloudFlow _ _ _ _ _) as [t [a | e |]]; reflexivity.
Qed.

Lemma singleUpload_ends config folderName onProgress endpoints f :
  (forall e, snd (singleUpload config folderName onProgress endpoints f) <> Thrown e)
  /\ (snd (singleUpload config folderName onProgress endpoints f) <> StillPending ->
      exists r,
        snd (singleUpload config folderName onProgress endpoints f) = Returned (Some r)).
Proof.
  unfold singleUpload.
  destruct (uploadFileToCloudFlow_ends f config folderName
              (match onProgress with
               | Some callback => Some (fun progress => callback (name f) progress)
               | None => None
               end) (endpoints f)) as (Hn & _ & Hr).
  split; [exact Hn | exact Hr].
Qed.

Lemma uploadEachFile_settled config folderName onProgress endpoints files :
  (forall f, In f files ->
     snd (singleUpload config folderName onProgress endpoints f) <> StillPending) ->
  forall results,
  exists added,
    uploadEachFile files config folderName onProgress endpoints results
    = (List.flat_map (fun f => fst (singleUpload config folderName onProgress endpoints f))
         files,
       Returned (results ++ added))
    /\ Forall2
         (fun f r =>
            snd (singleUpload config folderName onProgress endpoints f)
            = Returned (Some r)) files added.
Proof.
  induction files as [| f files IH]; intros Hs results.
  - exists []. cbn. rewrite app_nil_r. split; [reflexivity | constructor].
  - rewrite uploadEachFile_cons.
    destruct (proj2 (singleUpload_ends config folderName onProgress endpoints f)
                (Hs f (or_introl eq_refl))) as [r Hret].
    rewrite Hret.
    destruct (IH (fun g Hg => Hs g (or_intror Hg)) (results ++ [r]))
      as (added & Hrun & Hall).
    rewrite Hrun. exists (r :: added). cbn [List.flat_map]. rewrite <- app_assoc.
    split; [reflexivity |]. constructor; [exact Hret | exact Hall].
Qed.

Lemma uploadEachFile_stalled config folderName onProgress endpoints before f rest :
  (forall g, In g before ->
     snd (singleUpload config folderName onProgress endpoints g) <> StillPending) ->
  snd (singleUpload config folderName onProgress endpoints f) = StillPending ->
  forall results,
    uploadEachFile (before ++ f :: rest) config folderName onProgress endpoints results
    = (List.flat_map (fun g => fst (singleUpload config folderName onProgress endpoints g))
         (before ++ [f]),
       StillPending).
Proof.
  induction before as [| g before IH]; intros Hs Hf results.
  - cbn [app]. rewrite uploadEachFile_cons, Hf. cbn. now rewrite app_nil_r.
  - cbn [app]. rewrite uploadEachFile_cons.
    destruct (proj2 (singleUpload_ends config folderName onProgress endpoints g)
                (Hs g (or_introl eq_refl))) as [r Hret].
    rewrite Hret, (IH (fun h Hh => Hs h (or_intror Hh)) Hf). reflexivity.
Qed.

Lemma uploadEachFile_never_rejects config folderName onProgress endpoints files :
  forall results e,
    snd (uploadEachFile files config folderName onProgress endpoints results) <> Thrown e.
Proof.
  induction files as [| f files IH]; intros results e; [discriminate |].
  rewrite uploadEachFile_cons.
  pose proof (proj1 (singleUpload_ends config folderName onProgress endpoints f)) as Hn.
  destruct (snd (singleUpload config folderName onProgress endpoints f))
    as [result | e' |]; [| now destruct (Hn e') | discriminate].
  specialize (IH (match result with Some r => results ++ [r] | None => results end) e).
  destruct (uploadEachFile files _ _ _ _ _) as [t c]. exact IH.
Qed.

(** X27. [uploadMultipleFilesToCloudFlow] takes the files one after the
    other and never rejects. When no upload stalls (no body is awaited for
    ever), it returns one result per file in the order of the files, the
    result of [uploadFileToCloudFlow] for that file with the progress
    reported under the file's name, and its calls are the calls of the
    single uploads one after the other: a file that cannot be read or a
    flow that fails does not keep the later files from being sent. At the
    first upload that stalls the call stays pending, and the files after
    it are never sent. *)
Theorem uploadMultipleFilesToCloudFlow_one_result_per_file :
  forall (files : list File) (config : ICloudFlowConfig) (folderName : option string)
         (endpoints : File -> CloudFlows.Timed (Body IUploadFlowResponse)),
    let single :=
      singleUpload config folderName (Some (fun fileName => OnProgress (Some fileName)))
        endpoints in
    let run :=
      uploadMultipleFilesToCloudFlow files config folderName
        (Some (fun fileName => OnProgress (Some fileName))) endpoints in
    (forall f,
       single f
       = uploadFileToCloudFlow (Some f) config folderName
           (Some (OnProgress (Some (name f)))) (endpoints f))
    /\ (forall e, snd run <> Thrown e)
    /\ ((forall f, In f files -> snd (single f) <> StillPending) ->
        fst run = List.flat_map (fun f => fst (single f)) files
        /\ exists results,
             snd run = Returned results
             /\ Forall2 (fun f r => snd (single f) = Returned (Some r)) files results)
    /\ (forall before f rest,
          files = before ++ f :: rest ->
          (forall g, In g before -> snd (single g) <> StillPending) ->
          snd (single f) = StillPending ->
          snd run = StillPending
          /\ fst run = List.flat_map (fun g => fst (single g)) (before ++ [f])).
Proof.
  intros files config folderName endpoints single run.
  subst single run. unfold uploadMultipleFilesToCloudFlow.
  split; [reflexivity |].
  split; [apply uploadEachFile_never_rejects |]. split.
  - intros Hs.
    destruct (uploadEachFile_settled config folderName
                (Some (fun fileName => OnProgress (Some fileName))) endpoints files Hs [])
      as (added & Hrun & Hall).
    rewrite Hrun. split; [reflexivity |]. exists added. split; [reflexivity | exact Hall].
  - intros before f rest -> Hs Hf.
    rewrite (uploadEachFile_stalled config folderName
               (Some (fun fileName => OnProgress (Some fileName))) endpoints
               before f rest Hs Hf []).
    split; reflexivity.
Qed.

Lemma uploadMultipleFilesToCloudFlow_one_result_per_file_witness :
  let config := mkConfig "https://org.example" "t" "u" "l" "d" "g" "c" None in
  let a := Sample.unreadable "a.pdf" in
  let b := Sample.pdf "b.pdf" 1 in
  let c := Sample.pdf "c.pdf" 1 in
  let endpoints (f : File) : CloudFlows.Timed (Body IUploadFlowResponse) :=
    if String.eqb (name f) "b.pdf" then CloudFlows.StallsAfter 10
    else CloudFlows.FailsAfter 10 "Failed to fetch" in
  let run :=
    uploadMultipleFilesToCloudFlow [a; b; c] config None
      (Some (fun fileName => OnProgress (Some fileName))) endpoints in
  snd run = StillPending
  /\ posts (fst run) = [uploadPost config None b "data:application/pdf;base64,JVBERi0="].
Proof.
  intros config a b c endpoints run.
  destruct (proj2 (proj2 (proj2 (uploadMultipleFilesToCloudFlow_one_result_per_file
                                   [a; b; c] config None endpoints))) [a] b [c] eq_refl)
    as (Hp & Ht).
  - intros g [<- | []]. vm_compute. discriminate.
  - vm_compute. reflexivity.
  - split; [exact Hp |]. fold run in Ht. rewrite Ht. vm_compute. reflexivity.
Defined.

(** ** The flow client: list, view, delete *)






(** A 2xx answer whose body never arrives: the helper has cleared its
    timer when the headers came, so the calls wait for ever. *)
Example stalled_body_is_awaited_for_ever :
  let config := mkConfig "e" "t" "u" "l" "d" "g" "c" (Some 5000) in
  snd (listExistingFilesFromCloudFlow config None (CloudFlows.StallsAfter 10))
    = StillPending
  /\ snd (generateViewUrlFromCloudFlow "a.pdf" config None (CloudFlows.StallsAfter 10))
     = StillPending
  /\ snd (deleteFileFromCloudFlow "a.pdf" config None (CloudFlows.StallsAfter 10))
     = StillPending
  /\ snd (listExistingFilesFromCloudFlow config None (CloudFlows.StallsAfter 5000))
     = Returned [].
Proof. vm_compute. repeat split; reflexivity. Qed.

(** ** The configured limit *)

Lemma limit_step props a s :
  propMaxTotalFileSizeMB props <> 0 ->
  maxTotalFileSizeMB (adminConfig s) <> 0 ->
  maxTotalFileSizeMB (adminConfig (out_state (step props a s))) <> 0.
Proof.
  intros Hp Hs. destruct (writesConfig a) eqn:W.
  - destruct a; try discriminate; cbn.
    + destruct parsed as [n |]; [| discriminate].
      destruct (n =? 0) eqn:E; [discriminate | now apply Z.eqb_neq].
    + exact Hs.
    + exact Hp.
  - now rewrite <- (preserves_config_step props a W s).
Qed.

(** X30. The size limit in force is never 0. Starting from a state whose
    limit is not 0, under props made by [updateView] from any parameters,
    no sequence of operations (selections, uploads, deletions, timer
    ticks, typing in the admin panel, resetting it) leaves the configured
    limit at 0: an admin input that is empty, not a number or 0 stores 1,
    a reset stores the limit of the props, which [updateView] never lets
    be 0, and no other operation writes the configuration. *)
Theorem configured_limit_is_never_zero :
  forall (parameters : Control.IInputs) (actions : list Action) (s : St),
    maxTotalFileSizeMB (adminConfig s) <> 0 ->
    maxTotalFileSizeMB (adminConfig (after (Control.updateView parameters) actions s)) <> 0.
Proof.
  intros parameters actions. unfold after.
  induction actions as [| a actions IH]; intros s Hs; [exact Hs |].
  cbn [fold_left]. apply IH. apply limit_step; [| exact Hs].
  cbn. destruct (Control.MaxTotalFileSizeMB parameters) as [n |]; [| discriminate].
  destruct (n =? 0) eqn:E; [discriminate | now apply Z.eqb_neq].
Qed.

Lemma configured_limit_is_never_zero_witness :
  maxTotalFileSizeMB (adminConfig (Sample.emptyState 10 "*")) <> 0
  /\ maxTotalFileSizeMB
       (adminConfig
          (after
             (Control.updateView
                (Control.mkInputs None None None (Some 0) None None None None None None None))
             [AdminSetMaxSize (Some 0); AdminReset; AdminSetMaxSize None]
             (Sample.emptyState 10 "*"))) <> 0.
Proof.
  assert (H : maxTotalFileSizeMB (adminConfig (Sample.emptyState 10 "*")) <> 0)
    by (cbn; discriminate).
  split; [exact H |].
  exact (configured_limit_is_never_zero
           (Control.mkInputs None None None (Some 0) None None None None None None None)
           [AdminSetMaxSize (Some 0); AdminReset; AdminSetMaxSize None]
           (Sample.emptyState 10 "*") H).
Defined.
